(** * Windows System Management Tool: disk manager, packages tree and
      remote-connection core

    A shallow embedding of the Python sources

      - [src/ui/panels/disk/manager.py]        (modules [DiskManager],
                                   [DiskVolumes], [DiskProgram], [PhysicalDisks])
      - [src/ui/panels/packages/tree_widget.py] (module [PackagesTree])
      - [src/ui/panels/applications/tree_widget.py]
                                   (modules [StartupTree], [ProcessesTree])
      - [src/ui/panels/environment/components/variable_operations.py]
                                   (module [VariableOperations])
      - [src/ui/main/remote_handler.py]        (module [RemoteHandler])

    together with a model of the remote-session core ([RemoteManager],
    [FanOutExecutor]) that the handler drives.

    Conventions.  Python [str] values are Rocq [string]s (ASCII); a Python
    function that logs, runs subprocesses, emits Qt signals or raises is a
    computation in the monad [Py], which records the effects in order and
    ends in a value or in a raised exception.  Everything the operating
    system decides (process output, partitions, the win32 API) is read from
    an explicit environment record.  Where [map_network_drive] and
    [disconnect_network_drive] call [self.refresh_volumes()] their trace
    holds the event [RefreshVolumes]; [DiskProgram] puts what that call
    does in its place. *)

From Stdlib Require Import ZArith List Ascii String Bool Lia DecimalString.
From stdpp Require Import base option list strings gmap.

Local Open Scope string_scope.
Local Open Scope list_scope.

(** ** Python string primitives *)

Module PyStr.

Definition is_lower (c : ascii) : bool :=
  (97 <=? nat_of_ascii c)%nat && (nat_of_ascii c <=? 122)%nat.

Definition is_upper (c : ascii) : bool :=
  (65 <=? nat_of_ascii c)%nat && (nat_of_ascii c <=? 90)%nat.

Definition upper_char (c : ascii) : ascii :=
  if is_lower c then ascii_of_nat (nat_of_ascii c - 32) else c.

Definition lower_char (c : ascii) : ascii :=
  if is_upper c then ascii_of_nat (nat_of_ascii c + 32) else c.

(** [s.upper()] and [s.lower()] *)
Fixpoint upper (s : string) : string :=
  match s with
  | EmptyString => EmptyString
  | String c r => String (upper_char c) (upper r)
  end.

Fixpoint lower (s : string) : string :=
  match s with
  | EmptyString => EmptyString
  | String c r => String (lower_char c) (lower r)
  end.

(** the characters [str.strip()] removes: TAB LF VT FF CR, FS GS RS US
    and the blank *)
Definition is_space (c : ascii) : bool :=
  let n := nat_of_ascii c in
  ((9 <=? n)%nat && (n <=? 13)%nat)
  || ((28 <=? n)%nat && (n <=? 31)%nat)
  || (n =? 32)%nat.

Fixpoint lstrip (s : string) : string :=
  match s with
  | EmptyString => EmptyString
  | String c r => if is_space c then lstrip r else s
  end.

Fixpoint rstrip (s : string) : string :=
  match s with
  | EmptyString => EmptyString
  | String c r =>
      match rstrip r with
      | EmptyString => if is_space c then EmptyString else String c EmptyString
      | r' => String c r'
      end
  end.

(** [s.strip()] *)
Definition strip (s : string) : string := rstrip (lstrip s).

(** [s.startswith(p)] *)
Fixpoint startswith (p s : string) : bool :=
  match p, s with
  | EmptyString, _ => true
  | String _ _, EmptyString => false
  | String a p', String b s' => Ascii.eqb a b && startswith p' s'
  end.

(** [needle in hay] *)
Fixpoint contains (needle hay : string) : bool :=
  startswith needle hay
  || match hay with
     | EmptyString => false
     | String _ hay' => contains needle hay'
     end.

(** the last character, if any *)
Fixpoint last_char (s : string) : option ascii :=
  match s with
  | EmptyString => None
  | String c EmptyString => Some c
  | String _ r => last_char r
  end.

(** [s.endswith(c)] for a one-character suffix *)
Definition endswith_char (c : ascii) (s : string) : bool :=
  match last_char s with
  | Some d => Ascii.eqb c d
  | None => false
  end.

(** [s[:n]] *)
Fixpoint slice_to (n : nat) (s : string) : string :=
  match n, s with
  | O, _ => EmptyString
  | S _, EmptyString => EmptyString
  | S n', String c r => String c (slice_to n' r)
  end.

(** [s[:-1]] *)
Fixpoint drop_last (s : string) : string :=
  match s with
  | EmptyString => EmptyString
  | String _ EmptyString => EmptyString
  | String c r => String c (drop_last r)
  end.

(** [s.split(c)] for a one-character separator: the fields between the
    separators, never an empty list *)
Fixpoint split (sep : ascii) (s : string) : list string :=
  match s with
  | EmptyString => [EmptyString]
  | String c r =>
      if Ascii.eqb c sep then EmptyString :: split sep r
      else match split sep r with
           | f :: fs => String c f :: fs
           | [] => [String c EmptyString]
           end
  end.

(** [str(n)] of an integer *)
Definition of_Z (z : Z) : string := NilZero.string_of_int (Z.to_int z).

(** truth value of a string: non-empty *)
Definition truthy (s : string) : bool :=
  match s with EmptyString => false | String _ _ => true end.

Definition backslash : ascii := ascii_of_nat 92.

End PyStr.

(** ** Effects: a trace of events and exceptions *)

Inductive LogLevel := DEBUG | INFO | WARNING | ERROR.

(** the exceptions the modelled code can meet; all derive from
    [Exception] *)
Inductive PyExc :=
| ImportError (msg : string)
| PyWinError (winerror : Z) (strerror : string)   (* pywintypes.error *)
| UnboundLocalError (var : string)
| IndexError
| OtherError (msg : string).                      (* OSError and the like *)

Definition str_exc (e : PyExc) : string :=
  match e with
  | ImportError m => m
  | PyWinError c m => "(" +:+ PyStr.of_Z c +:+ ", 'WNetAddConnection2', '" +:+ m +:+ "')"
  | UnboundLocalError v =>
      "cannot access local variable '" +:+ v +:+ "' where it is not associated with a value"
  | IndexError => "list index out of range"
  | OtherError m => m
  end.

(** a mapping handed to the [volume_mounted] signal *)
Record MountInfo := {
  mi_device : string;
  mi_mountpoint : string;
  mi_network_path : string;
  mi_is_network_drive : bool
}.

Inductive Signal :=
| volumes_refreshed
| volume_mounted (info : MountInfo)
| volume_unmounted (drive : string)
| error_occurred (msg : string).

Inductive Event :=
| Subprocess (argv : list string)              (* subprocess.run(argv, ...) *)
| Win32AddConnection (local remote password username : string) (flags : Z)
| Log (level : LogLevel) (msg : string)        (* self.logger.<level>(msg) *)
| Emit (sig : Signal)                          (* self.<signal>.emit(...) *)
| RefreshVolumes                               (* self.refresh_volumes() *)
| SetConnectionStatus (connected : bool) (host : option string)
                                               (* status_handler.set_connection_status *)
| SetStatus (msg : string)                     (* status_handler.set_status *)
| UpdateRemoteState (enabled : bool)           (* main_window.update_remote_state *)
| MessageBoxWarning (title text : string)      (* QMessageBox.warning *)
| ShowFileTransferDialog.                      (* file_transfer_dialog.show() *)

(** A computation: the events it performed, then a value or the exception
    it raised. *)
Definition Py (A : Type) : Type := list Event * (PyExc + A).

Definition ret {A} (a : A) : Py A := ([], inr a).

Definition raise {A} (e : PyExc) : Py A := ([], inl e).

Definition bind {A B} (m : Py A) (k : A -> Py B) : Py B :=
  match m with
  | (t, inl e) => (t, inl e)
  | (t, inr a) => let '(t', r) := k a in (t ++ t', r)
  end.

Definition emit_event (ev : Event) : Py unit := ([ev], inr tt).

(** [try: m  except <classes selected by h> as e: h e]: the handler
    answers [None] for an exception its clause does not name, which then
    propagates. *)
Definition try_except {A} (m : Py A) (h : PyExc -> option (Py A)) : Py A :=
  match m with
  | (t, inl e) =>
      match h e with
      | Some k => let '(t', r) := k in (t ++ t', r)
      | None => (t, inl e)
      end
  | (t, inr a) => (t, inr a)
  end.

Declare Scope py_scope.
Delimit Scope py_scope with py.
Notation "x <- m ;; k" := (bind m (fun x => k))
  (at level 100, m at next level, right associativity) : py_scope.
Notation "m ;;; k" := (bind m (fun _ => k))
  (at level 100, right associativity) : py_scope.

Definition log (l : LogLevel) (msg : string) : Py unit := emit_event (Log l msg).
Definition emit (s : Signal) : Py unit := emit_event (Emit s).

Definition trace {A} (m : Py A) : list Event := fst m.
Definition outcome {A} (m : Py A) : PyExc + A := snd m.

(** the argument vectors handed to [subprocess.run], in order *)
Fixpoint subprocess_calls (t : list Event) : list (list string) :=
  match t with
  | [] => []
  | Subprocess argv :: t' => argv :: subprocess_calls t'
  | _ :: t' => subprocess_calls t'
  end.

(** ** [DiskManager] (src/ui/panels/disk/manager.py) *)

Module DiskManager.

Import PyStr.
Local Open Scope py_scope.

(** [subprocess.CompletedProcess] with captured text output *)
Record CompletedProcess := {
  returncode : Z;
  stdout : string;
  stderr : string
}.

(** [psutil._common.sdiskpart] *)
Record Partition := {
  device : string;
  mountpoint : string;
  fstype : string;
  opts : string
}.

(** What the operating system answers. *)
Record Env := {
  (** [subprocess.run(argv, capture_output=True, text=True)] *)
  run : list string -> PyExc + CompletedProcess;
  (** [psutil.disk_partitions(all=True)] *)
  disk_partitions : PyExc + list Partition;
  (** [import win32wnet, win32netcon, win32api, pywintypes]:
      [Some msg] when the import raises [ImportError(msg)] *)
  import_win32 : option string;
  (** [win32wnet.WNetAddConnection2(netresource, password, username, flags)]
      on local name, remote name, password, user name and flags:
      [Some e] when it raises [e] *)
  WNetAddConnection2 : string -> string -> string -> string -> Z -> option PyExc
}.

(** pywin32 constants *)
Definition RESOURCETYPE_DISK : Z := 1.
Definition CONNECT_UPDATE_PROFILE : Z := 1.

Definition subprocess_run (env : Env) (argv : list string) : Py CompletedProcess :=
  (emit_event (Subprocess argv) ;;;
   match run env argv with
   | inl e => raise e
   | inr p => ret p
   end).

(** [self.refresh_volumes()], as [map_network_drive] and
    [disconnect_network_drive] call it: the event marks the call, whose
    result they do not use.  What the call does is the method
    [DiskVolumes.refresh_volumes] below, which catches its own exceptions;
    [DiskProgram.whole_trace] puts what it does, its commands among it, in
    the place of the mark. *)
Definition refresh_volumes : Py unit := emit_event RefreshVolumes.

Definition when (b : bool) (m : Py unit) : Py unit := if b then m else ret tt.

(** *** get_drive_letters_info *)

Record DriveLettersInfo := {
  all_letters : list string;
  used_letters : list string;
  available_letters : list string
}.

(** [[f"{chr(i)}:" for i in range(65, 91)]] *)
Definition letters_A_Z : list string :=
  map (fun i => String (ascii_of_nat i) ":") (seq 65 (91 - 65)).

(** the [for partition in ...] loop, appending to [used_letters] *)
Fixpoint collect_used (ps : list Partition) (used : list string) : list string :=
  match ps with
  | [] => used
  | partition :: ps' =>
      if truthy (device partition) && (2 <=? String.length (device partition))%nat
      then collect_used ps' (used ++ [slice_to 2 (device partition)])
      else collect_used ps' used
  end.

(** [x in l] on a list of strings *)
Definition str_in (x : string) (l : list string) : bool :=
  existsb (String.eqb x) l.

Definition get_drive_letters_info (env : Env) : Py DriveLettersInfo :=
  try_except
    (let all := letters_A_Z in
     partitions <- match disk_partitions env with
                   | inl e => raise e
                   | inr ps => ret ps
                   end ;;
     let used := collect_used partitions [] in
     let available := List.filter (fun letter => negb (str_in letter used)) all in
     ret {| all_letters := all;
            used_letters := used;
            available_letters := available |})
    (fun e =>
       Some (log ERROR ("Error getting drive letters info: " +:+ str_exc e) ;;;
             ret {| all_letters := letters_A_Z;
                    used_letters := [];
                    available_letters := letters_A_Z |})).

(** *** disconnect_network_drive *)

(** the dictionaries [{'success': ..., 'error': ..., 'warning': ...}] *)
Record OpResult := {
  success : bool;
  error : option string;
  warning : option string
}.

(** the normalisation of the drive letter: stripped, a colon added to a
    lone letter, one trailing backslash removed *)
Definition normalize_drive_letter (drive_letter : string) : string :=
  let drive_letter := strip drive_letter in
  if (String.length drive_letter =? 1)%nat then drive_letter +:+ ":"
  else if endswith_char backslash drive_letter then drop_last drive_letter
  else drive_letter.

Definition net_use_list : list string := ["net"; "use"].

Definition net_use_delete (drive_letter : string) : list string :=
  ["net"; "use"; drive_letter; "/delete"; "/y"].

Definition disconnect_network_drive (env : Env) (drive_letter : string) : Py OpResult :=
  try_except
    (if negb (truthy drive_letter) then
       ret {| success := false;
              error := Some "No drive letter specified";
              warning := None |}
     else
       let drive_letter := normalize_drive_letter drive_letter in
       check_process <- subprocess_run env net_use_list ;;
       if negb (contains (upper drive_letter) (upper (stdout check_process))) then
         log WARNING ("Drive " +:+ drive_letter +:+ " is not mapped as a network drive") ;;;
         ret {| success := true;
                error := None;
                warning := Some ("Drive " +:+ drive_letter
                                 +:+ " is not mapped as a network drive") |}
       else
         process <- subprocess_run env (net_use_delete drive_letter) ;;
         let out := stdout process in
         let err := stderr process in
         log DEBUG ("Command output: " +:+ out) ;;;
         when (truthy err) (log DEBUG ("Command error: " +:+ err)) ;;;
         if negb (returncode process =? 0)%Z then
           if contains "The network connection could not be found" out then
             log INFO ("Drive " +:+ drive_letter +:+ " was already disconnected") ;;;
             ret {| success := true;
                    error := None;
                    warning := Some "The drive was already disconnected" |}
           else
             let shown := if truthy out then out else err in
             log ERROR ("Failed to disconnect network drive: " +:+ shown) ;;;
             emit (error_occurred ("Failed to disconnect network drive: " +:+ shown)) ;;;
             ret {| success := false; error := Some shown; warning := None |}
         else
           log INFO ("Disconnected network drive " +:+ drive_letter) ;;;
           refresh_volumes ;;;
           emit (volume_unmounted drive_letter) ;;;
           ret {| success := true; error := None; warning := None |})
    (fun e =>
       let error_msg := "Failed to disconnect network drive: " +:+ str_exc e in
       Some (log ERROR error_msg ;;;
             emit (error_occurred error_msg) ;;;
             ret {| success := false; error := Some (str_exc e); warning := None |})).

(** *** map_network_drive *)

Definition nl : string := String (ascii_of_nat 10) EmptyString.

Definition str_bool (b : bool) : string := if b then "True" else "False".

Definition yes_no (reconnect : bool) : string := if reconnect then "yes" else "no".

(** the local variables [stdout], [stderr] and [process] after the
    mapping attempt; [None] is a local that was never assigned *)
Record Locals := {
  l_stdout : option string;
  l_stderr : string;
  l_process : option CompletedProcess
}.

(** reading a local variable *)
Definition read_local {A} (name : string) (v : option A) : Py A :=
  match v with
  | Some a => ret a
  | None => raise (UnboundLocalError name)
  end.

(** [l[i]] *)
Definition index {A} (l : list A) (i : nat) : Py A :=
  match nth_error l i with
  | Some a => ret a
  | None => raise IndexError
  end.

(** the [net use] command of the current-credentials branch *)
Definition net_use_map (drive_letter network_path : string) (reconnect : bool)
  : list string :=
  ["net"; "use"; drive_letter; network_path; "/persistent:" +:+ yes_no reconnect].

(** the [net use] command of the fallback of the custom-credentials
    branch *)
Definition net_use_map_user (drive_letter network_path username password : string)
    (reconnect : bool) : list string :=
  ["net"; "use"; drive_letter; network_path;
   "/user:" +:+ username; password;
   "/persistent:" +:+ yes_no reconnect].

(** the [except pywintypes.error as e] clause *)
Definition on_win32_error (env : Env)
    (network_path drive_letter username password : string) (reconnect : bool)
    (error_code : Z) (error_msg : string) : Py Locals :=
  log ERROR ("Win32 API error: " +:+ of_Z error_code +:+ " - " +:+ error_msg) ;;;
  if (error_code =? 1219)%Z then
    let parts := split backslash network_path in
    let server_name :=
      if (2 <? length parts)%nat then nth 2 parts "server" else "server" in
    log WARNING ("Multiple connection error detected for server: " +:+ server_name) ;;;
    try_except
      (list_process <- subprocess_run env net_use_list ;;
       when (truthy (stdout list_process))
            (log DEBUG ("Existing connections:" +:+ nl +:+ stdout list_process)) ;;;
       let error_msg :=
         "Cannot connect to " +:+ network_path +:+ " with user '" +:+ username
         +:+ "' because you already have a connection to the same server with"
         +:+ " different credentials." +:+ nl +:+ nl
         +:+ "Please disconnect existing connections to " +:+ server_name
         +:+ " first using 'net use /delete', or use the same credentials for"
         +:+ " all connections to this server." in
       ret {| l_stdout := Some ""; l_stderr := error_msg; l_process := None |})
      (fun list_err =>
         Some (log ERROR ("Error listing connections: " +:+ str_exc list_err) ;;;
               ret {| l_stdout := None;
                      l_stderr := "Multiple connections error: " +:+ error_msg;
                      l_process := None |}))
  else
    log DEBUG "Trying fallback with net use command" ;;;
    process <- subprocess_run env
                 (net_use_map_user drive_letter network_path username password
                                   reconnect) ;;
    ret {| l_stdout := Some (stdout process);
           l_stderr := stderr process;
           l_process := Some process |}.

(** the [else] branch of [if use_windows_creds] *)
Definition map_with_custom_creds (env : Env)
    (network_path drive_letter username password : string) (reconnect : bool)
  : Py Locals :=
  log DEBUG ("Using win32 API to map drive with custom credentials for user: "
             +:+ username) ;;;
  try_except
    (match import_win32 env with
     | Some msg => raise (ImportError msg)
     | None => ret tt
     end ;;;
     let flags := if negb reconnect then 0%Z else CONNECT_UPDATE_PROFILE in
     try_except
       (emit_event (Win32AddConnection drive_letter network_path password username
                                       flags) ;;;
        match WNetAddConnection2 env drive_letter network_path password username
                                 flags with
        | Some e => raise e
        | None => ret tt
        end ;;;
        let out := "Successfully mapped " +:+ network_path +:+ " to "
                   +:+ drive_letter +:+ " using win32 API" in
        log INFO out ;;;
        ret {| l_stdout := Some out; l_stderr := ""; l_process := None |})
       (fun e =>
          match e with
          | PyWinError error_code error_msg =>
              Some (on_win32_error env network_path drive_letter username password
                                   reconnect error_code error_msg)
          | _ => None
          end))
    (fun e =>
       match e with
       | ImportError _ =>
           Some (log ERROR ("Failed to import win32 modules: " +:+ str_exc e) ;;;
                 ret {| l_stdout := Some "";
                        l_stderr := "Failed to import win32 modules: " +:+ str_exc e;
                        l_process := None |})
       | _ => None
       end).

(** the diagnostics of a failed custom-credentials mapping *)
Definition diagnose (env : Env) (network_path drive_letter username : string)
    (reconnect : bool) (process : option CompletedProcess) : Py unit :=
  log ERROR ("Return code: "
             +:+ of_Z (match process with Some p => returncode p | None => 2%Z end)) ;;;
  log DEBUG "Attempting diagnostic command..." ;;;
  log DEBUG ("Diagnostic command (password redacted): net use " +:+ drive_letter
             +:+ " " +:+ network_path +:+ " /user:" +:+ username
             +:+ " PASSWORD /persistent:" +:+ yes_no reconnect) ;;;
  try_except
    (server <- index (split backslash network_path) 2 ;;
     log DEBUG ("Attempting to ping server: " +:+ server) ;;;
     ping_result <- subprocess_run env ["ping"; "-n"; "1"; server] ;;
     log DEBUG ("Network connectivity test: " +:+ nl +:+ stdout ping_result))
    (fun ping_err =>
       Some (log ERROR ("Error pinging server: " +:+ str_exc ping_err))).

Definition map_network_drive (env : Env) (network_path drive_letter : string)
    (use_windows_creds : bool) (username password : string) (reconnect : bool)
  : Py OpResult :=
  try_except
    (let drive_letter :=
       if (String.length drive_letter =? 1)%nat then drive_letter +:+ ":"
       else drive_letter in
     try_except
       (_ <- subprocess_run env (net_use_delete drive_letter) ;; ret tt)
       (fun _ => Some (ret tt)) ;;;
     locals <-
       (if use_windows_creds then
          log DEBUG "Using current Windows credentials" ;;;
          process <- subprocess_run env
                       (net_use_map drive_letter network_path reconnect) ;;
          ret {| l_stdout := Some (stdout process);
                 l_stderr := stderr process;
                 l_process := Some process |}
        else
          map_with_custom_creds env network_path drive_letter username password
                                reconnect) ;;
     out <- read_local "stdout" (l_stdout locals) ;;
     let err := l_stderr locals in
     when (truthy out) (log DEBUG ("Command output: " +:+ out)) ;;;
     when (truthy err) (log DEBUG ("Command error: " +:+ err)) ;;;
     if truthy err && contains "error" (lower err) then
       log ERROR ("Failed to map network drive: " +:+ err) ;;;
       log ERROR ("Network path: " +:+ network_path +:+ ", Drive: " +:+ drive_letter) ;;;
       log ERROR ("Using Windows creds: " +:+ str_bool use_windows_creds
                  +:+ ", Username: " +:+ username) ;;;
       when (negb use_windows_creds)
            (diagnose env network_path drive_letter username reconnect
                      (l_process locals)) ;;;
       emit (error_occurred ("Failed to map network drive: " +:+ err)) ;;;
       ret {| success := false; error := Some err; warning := None |}
     else
       log INFO ("Mapping network drive " +:+ network_path +:+ " to " +:+ drive_letter) ;;;
       refresh_volumes ;;;
       emit (volume_mounted {| mi_device := drive_letter;
                               mi_mountpoint := drive_letter
                                                +:+ String backslash EmptyString;
                               mi_network_path := network_path;
                               mi_is_network_drive := true |}) ;;;
       ret {| success := true; error := None; warning := None |})
    (fun e =>
       let error_msg := "Failed to map network drive: " +:+ str_exc e in
       Some (log ERROR error_msg ;;;
             emit (error_occurred error_msg) ;;;
             ret {| success := false; error := Some (str_exc e); warning := None |})).

(** *** Sample machines *)

(** a machine with a system drive and an empty optical drive *)
Definition sample_partitions : list Partition :=
  [ {| device := "C:\"; mountpoint := "C:\"; fstype := "NTFS"; opts := "rw,fixed" |};
    {| device := "D:\"; mountpoint := "D:\"; fstype := ""; opts := "cdrom" |} ].

(** a machine without the [net] command, its partitions read as [ps] *)
Definition sample_env (ps : PyExc + list Partition) : Env :=
  {| run := fun _ => inl (OtherError "[WinError 2] The system cannot find the file specified");
     disk_partitions := ps;
     import_win32 := None;
     WNetAddConnection2 := fun _ _ _ _ _ => None |}.

(** a drive-letter argument that is one TAB *)
Definition tab : string := String (ascii_of_nat 9) EmptyString.

(** what [net use] prints when only Z: is mapped *)
Definition listing : CompletedProcess :=
  {| returncode := 0;
     stdout := "OK           Z:        \\fileserver\share     Microsoft Windows Network";
     stderr := "" |}.

(** a machine on which every command prints that listing *)
Definition listing_env : Env :=
  {| run := fun _ => inr listing;
     disk_partitions := inr [];
     import_win32 := None;
     WNetAddConnection2 := fun _ _ _ _ _ => None |}.

(** a machine on which the win32 call fails with error 53 *)
Definition no_route_env : Env :=
  {| run := fun _ => inr {| returncode := 2;
                            stdout := "";
                            stderr := "System error 53 has occurred." |};
     disk_partitions := inr [];
     import_win32 := None;
     WNetAddConnection2 :=
       fun _ _ _ _ _ => Some (PyWinError 53 "The network path was not found.") |}.

End DiskManager.

(** ** [PackagesTree] (src/ui/panels/packages/tree_widget.py) *)

Module PackagesTree.

(** A [QTreeWidgetItem] built from a list of strings: its column texts. *)
Record QTreeWidgetItem := { columns : list string }.

(** [item.text(column)]; Qt answers the empty string for a column the
    item does not have *)
Definition text (item : QTreeWidgetItem) (column : nat) : string :=
  nth column (columns item) EmptyString.

(** the widget: its header labels and its top-level items *)
Record PackagesTree := {
  header_labels : list string;
  top_level_items : list QTreeWidgetItem
}.

Definition setup_ui : PackagesTree :=
  {| header_labels := ["Name"; "Version"; "Publisher"; "Install Date";
                       "Location"; "Registry Key"];
     top_level_items := [] |}.

Definition addTopLevelItem (self : PackagesTree) (item : QTreeWidgetItem)
  : PackagesTree :=
  {| header_labels := header_labels self;
     top_level_items := top_level_items self ++ [item] |}.

Definition add_program (self : PackagesTree)
    (name version publisher install_date install_location registry_key : string)
  : PackagesTree * QTreeWidgetItem :=
  let item := {| columns := [name; version; publisher; install_date;
                             install_location; registry_key] |} in
  (addTopLevelItem self item, item).

(** the dictionary [get_program] builds, in insertion order *)
Definition get_program (item : QTreeWidgetItem) : list (string * string) :=
  [("name", text item 0);
   ("version", text item 1);
   ("publisher", text item 2);
   ("install_date", text item 3);
   ("install_location", text item 4);
   ("registry_key", text item 5)].

(** [d[key]] *)
Fixpoint dict_get (d : list (string * string)) (key : string) : option string :=
  match d with
  | [] => None
  | (k, v) :: d' => if String.eqb k key then Some v else dict_get d' key
  end.

Definition clear_programs (self : PackagesTree) : PackagesTree :=
  {| header_labels := header_labels self; top_level_items := [] |}.

(** [findItems(name, MatchExactly, 0)] and the first hit *)
Definition find_program (self : PackagesTree) (name : string)
  : option QTreeWidgetItem :=
  List.find (fun item => String.eqb (text item 0) name) (top_level_items self).

End PackagesTree.

(** ** The interface of [RemoteManager] that the main window uses

    [src/core/remote/manager.py] is driven by the handler through these
    calls; a call answers with the manager's next state and either a value
    or the exception it raised. *)

Class RemoteManagerAPI (M : Type) := {
  (** [remote_manager.is_connected()] *)
  rm_is_connected : M -> bool;
  (** [remote_manager.connection.host] *)
  rm_connection_host : M -> PyExc + string;
  (** [remote_manager.disconnect()] *)
  rm_disconnect : M -> M * (PyExc + unit);
  (** [remote_manager.add_connection(name, hostname, username, password)] *)
  rm_add_connection : M -> string -> string -> string -> string -> M * (PyExc + bool);
  (** [remote_manager.remove_connection(name)] *)
  rm_remove_connection : M -> string -> M * (PyExc + bool)
}.

(** ** [RemoteHandler] (src/ui/main/remote_handler.py) *)

Module RemoteHandler.

Local Open Scope py_scope.

Section Handler.

Context {M : Type} `{RemoteManagerAPI M}.

(** [ConnectionDialog(remote_manager, main_window).exec()]: the dialog
    performs the connection on the manager and answers whether it was
    accepted. *)
Variable ConnectionDialog_exec : M -> M * bool.

(** whether a call into the main window raises; the message boxes and the
    file-transfer dialog take the main window as their parent and are
    calls into it as well *)
Variable ui_raises : Event -> option PyExc.

Record RemoteHandler := {
  remote_manager : M;
  file_transfer_dialog : bool     (* has the dialog been created? *)
}.

Definition with_manager (self : RemoteHandler) (m : M) : RemoteHandler :=
  {| remote_manager := m; file_transfer_dialog := file_transfer_dialog self |}.

(** a call into the main window, its status handler, or a widget it is
    the parent of *)
Definition ui_call (ev : Event) : Py unit :=
  emit_event ev ;;;
  match ui_raises ev with
  | Some e => raise e
  | None => ret tt
  end.

Definition lift {A} (r : PyExc + A) : Py A :=
  match r with
  | inl e => raise e
  | inr a => ret a
  end.

Definition enable_remote_features : Py unit := ui_call (UpdateRemoteState true).

Definition disable_remote_features : Py unit := ui_call (UpdateRemoteState false).

Definition is_connected (self : RemoteHandler) : bool :=
  rm_is_connected (remote_manager self).

Definition connect (self : RemoteHandler) : Py RemoteHandler :=
  let '(m, accepted) := ConnectionDialog_exec (remote_manager self) in
  let self := with_manager self m in
  if accepted then
    if rm_is_connected (remote_manager self) then
      host <- lift (rm_connection_host (remote_manager self)) ;;
      ui_call (SetConnectionStatus true (Some host)) ;;;
      host <- lift (rm_connection_host (remote_manager self)) ;;
      ui_call (SetStatus ("Connected to " +:+ host)) ;;;
      enable_remote_features ;;;
      ret self
    else ret self
  else ret self.

Definition disconnect (self : RemoteHandler) : Py RemoteHandler :=
  let '(m, r) := rm_disconnect (remote_manager self) in
  let self := with_manager self m in
  try_except
    (lift r ;;;
     ui_call (SetConnectionStatus false None) ;;;
     ui_call (SetStatus "Disconnected") ;;;
     disable_remote_features ;;;
     ret self)
    (fun e =>
       Some (log ERROR ("Error during disconnect: " +:+ str_exc e) ;;;
             ui_call (MessageBoxWarning
                        "Disconnect Error"
                        ("Error during disconnect: " +:+ str_exc e)) ;;;
             ret self)).

Definition show_file_transfer (self : RemoteHandler) : Py RemoteHandler :=
  if negb (rm_is_connected (remote_manager self)) then
    ui_call (MessageBoxWarning "Not Connected"
                               "Please connect to a remote system first.") ;;;
    ret self
  else
    let self := {| remote_manager := remote_manager self;
                   file_transfer_dialog := true |} in
    ui_call ShowFileTransferDialog ;;;
    ret self.

Definition add_connection (self : RemoteHandler)
    (name hostname username password : string) : RemoteHandler * (PyExc + bool) :=
  let '(m, r) := rm_add_connection (remote_manager self) name hostname username
                                   password in
  (with_manager self m, r).

Definition remove_connection (self : RemoteHandler) (name : string)
  : RemoteHandler * (PyExc + bool) :=
  let '(m, r) := rm_remove_connection (remote_manager self) name in
  (with_manager self m, r).

End Handler.

Arguments RemoteHandler M : clear implicits.

(** what the [except] clause of [disconnect] leaves in the trace *)
Definition reported (e : PyExc) : list Event :=
  [Log ERROR ("Error during disconnect: " +:+ str_exc e);
   MessageBoxWarning "Disconnect Error" ("Error during disconnect: " +:+ str_exc e)].

(** the warning box the [except] clause of [disconnect] opens for a caught
    exception *)
Definition warning_box (e : PyExc) : Event :=
  MessageBoxWarning "Disconnect Error" ("Error during disconnect: " +:+ str_exc e).

(** what [disconnect] does once an exception [e] was caught after the
    events [t]: the error is logged and the warning box opened; the call
    returns unless the warning box itself raises *)
Definition caught {M : Type} `{RemoteManagerAPI M} (ui_raises : Event -> option PyExc)
    (self : RemoteHandler M) (t : list Event) (e : PyExc) : Py (RemoteHandler M) :=
  (t ++ reported e,
   match ui_raises (warning_box e) with
   | Some e' => inl e'
   | None => inr (with_manager self (fst (rm_disconnect (remote_manager self))))
   end).

End RemoteHandler.

(** ** A manager whose session is lost, and a main window that is gone *)

Module LostSession.

(** a manager whose connection broke: its [disconnect()] raises *)
Inductive Lost := lost.

#[export] Instance lost_api : RemoteManagerAPI Lost := {
  rm_is_connected _ := true;
  rm_connection_host _ := inr "srv01";
  rm_disconnect m := (m, inl (OtherError "Socket is closed"));
  rm_add_connection m _ _ _ _ := (m, inr false);
  rm_remove_connection m _ := (m, inr false)
}.

Definition lost_handler : RemoteHandler.RemoteHandler Lost :=
  {| RemoteHandler.remote_manager := lost;
     RemoteHandler.file_transfer_dialog := false |}.

(** a main window that has been deleted: every call that takes it raises
    RuntimeError *)
Definition window_gone (ev : Event) : option PyExc :=
  Some (OtherError "wrapped C/C++ object of type MainWindow has been deleted").

(** a main window that answers every call *)
Definition window_there (ev : Event) : option PyExc := None.

End LostSession.

(** ** The remote-connection core: [RemoteManager]

    The manager behind the handler, [src/core/remote/manager.py], is
    described by the design document; the session registry below follows
    it. *)

Module RemoteManager.

(** Modelled from the spec: the credential field of a persisted
    ConnectionRecord (missing: the record type of
    src/core/remote/manager.py).  The persisted form holds a credential
    reference, a handle into the OS-level secret storage; [Cleartext] is
    the form the connection store must never hold. *)
Inductive Credential :=
| Cleartext (password : string)
| SecretRef (handle : nat).

(** Modelled from the spec: ConnectionRecord, {name (unique key),
    hostname, username, credential-reference, saved-flag} (missing: the
    connection class of src/core/remote/manager.py). *)
Record ConnectionRecord := {
  name : string;
  hostname : string;
  username : string;
  credential : Credential;
  saved : bool
}.

(** Modelled from the spec: the session state machine
    disconnected -> connecting -> connected -> {disconnected, error}
    (missing: the session class). *)
Inductive ConnectionState := disconnected | connecting | connected | error.

(** Modelled from the spec: the typed errors of [connect] (missing: the
    exception classes of the remote core). *)
Inductive ConnectError := AuthError | NetworkError | TimeoutError.

(** Modelled from the spec: RemoteSession, {record reference, transport
    handle, connection-state, last-error} (missing: the session class). *)
Record RemoteSession := {
  record : ConnectionRecord;
  transport_handle : nat;
  state : ConnectionState;
  last_error : option ConnectError
}.

(** Modelled from the spec: the underlying transport, an external
    dependency (missing: the protocol client).  [connect] establishes the
    transport, authenticates, and verifies reachability with a
    bounded-time handshake probe; each stage is answered here. *)
Record Transport := {
  (** the channel handle, or [None] when the host is unreachable or
      refuses *)
  open_channel : ConnectionRecord -> option nat;
  (** are the credentials (the resolved secret, if any) accepted on this
      channel? *)
  authenticate : ConnectionRecord -> option string -> nat -> bool;
  (** did the handshake probe answer within its bound? *)
  probe : nat -> bool
}.

(** Modelled from the spec: the state the RemoteManager owns (missing:
    the attributes of the RemoteManager class): the persisted connection
    store, the OS-level secret storage, the session registry in insertion
    order, and the transport handles currently held. *)
Record Manager := {
  store : list ConnectionRecord;
  secrets : gmap nat string;
  sessions : list RemoteSession;
  open_handles : list nat
}.

Definition empty : Manager :=
  {| store := []; secrets := ∅; sessions := []; open_handles := [] |}.

Definition session_name (s : RemoteSession) : string := name (record s).

(** Modelled from the spec: [is_alive()], the liveness check of a
    session (missing: RemoteSession.is_alive); a session is live in state
    [connected]. *)
Definition is_alive (s : RemoteSession) : bool :=
  match state s with
  | connected => true
  | _ => false
  end.

Definition named (n : string) (s : RemoteSession) : bool :=
  String.eqb (session_name s) n.

Definition find_session (n : string) (ss : list RemoteSession)
  : option RemoteSession :=
  List.find (named n) ss.

Definition remove_session (n : string) (ss : list RemoteSession)
  : list RemoteSession :=
  List.filter (fun s => negb (named n s)) ss.

(** giving a transport handle back: its first occurrence leaves the held
    handles *)
Fixpoint release (h : nat) (hs : list nat) : list nat :=
  match hs with
  | [] => []
  | h' :: hs' => if Nat.eqb h h' then hs' else h' :: release h hs'
  end.

(** Modelled from the spec: the resolution of a credential reference
    (missing: the credential lookup of the remote core); a reference stands
    for the password the secret storage keeps under it. *)
Definition resolve (m : Manager) (c : Credential) : option string :=
  match c with
  | Cleartext p => Some p
  | SecretRef h => secrets m !! h
  end.

(** Modelled from the spec: RemoteSession.connect(record) (missing:
    the session constructor), "establishes transport, authenticates,
    verifies reachability with a bounded-time handshake probe.  On
    success, state = connected; on any failure, no partial session is
    retained (fully torn down)".  Answers the outcome and the handles
    held afterwards. *)
Definition session_connect (t : Transport) (pw : option string)
    (r : ConnectionRecord) (held : list nat)
  : (ConnectError + RemoteSession) * list nat :=
  match open_channel t r with
  | None => (inl NetworkError, held)
  | Some h =>
      let held1 := h :: held in
      if negb (authenticate t r pw h) then (inl AuthError, release h held1)
      else if negb (probe t h) then (inl TimeoutError, release h held1)
      else (inr {| record := r; transport_handle := h;
                   state := connected; last_error := None |},
            held1)
  end.

(** Modelled from the spec: the teardown of one session (missing:
    RemoteSession.disconnect), which "releases the transport handle"; the
    registry forgets the session. *)
Definition teardown (s : RemoteSession) (m : Manager) : Manager :=
  {| store := store m;
     secrets := secrets m;
     sessions := remove_session (session_name s) (sessions m);
     open_handles := release (transport_handle s) (open_handles m) |}.

(** Modelled from the spec: the creation of a session inside
    RemoteManager.connect (missing: RemoteManager.connect); a session that
    connected joins the registry last, a failed attempt leaves none. *)
Definition establish (t : Transport) (r : ConnectionRecord) (m : Manager)
  : (ConnectError + RemoteSession) * Manager :=
  match session_connect t (resolve m (credential r)) r (open_handles m) with
  | (inl e, held) =>
      (inl e, {| store := store m; secrets := secrets m;
                 sessions := sessions m; open_handles := held |})
  | (inr s, held) =>
      (inr s, {| store := store m; secrets := secrets m;
                 sessions := sessions m ++ [s]; open_handles := held |})
  end.

(** Modelled from the spec: RemoteManager.connect(record) (missing:
    RemoteManager.connect), "if a session already exists for
    record.name, reuse if alive, else tear down and recreate". *)
Definition connect (t : Transport) (r : ConnectionRecord) (m : Manager)
  : (ConnectError + RemoteSession) * Manager :=
  match find_session (name r) (sessions m) with
  | Some s =>
      if is_alive s then (inr s, m)
      else establish t r (teardown s m)
  | None => establish t r m
  end.

(** Modelled from the spec: disconnect(name) (missing:
    RemoteManager.disconnect), "tears down one ... session; always
    succeeds from the caller's perspective ... the result communicates
    whether a genuine session existed". *)
Definition disconnect (n : string) (m : Manager) : bool * Manager :=
  match find_session n (sessions m) with
  | Some s => (true, teardown s m)
  | None => (false, m)
  end.

(** Modelled from the spec: disconnect_all() (missing:
    RemoteManager.disconnect_all), one teardown per held session. *)
Definition disconnect_all (m : Manager) : bool * Manager :=
  (match sessions m with [] => false | _ :: _ => true end,
   fold_left (fun m s => teardown s m) (sessions m) m).

(** Modelled from the spec: is-connected (missing:
    RemoteManager.is_connected), whether a live session is held for the
    name. *)
Definition is_connected (n : string) (m : Manager) : bool :=
  existsb (fun s => named n s && is_alive s) (sessions m).

(** the live sessions held for a name *)
Definition live_sessions (n : string) (m : Manager) : list RemoteSession :=
  List.filter (fun s => named n s && is_alive s) (sessions m).

(** Modelled from the spec: get_connected_sessions(filter) (missing:
    RemoteManager.get_connected_sessions), "returns sessions matching a
    host-name filter ...; ordering is insertion order". *)
Definition get_connected_sessions (keep : string -> bool) (m : Manager)
  : list RemoteSession :=
  List.filter (fun s => is_alive s && keep (session_name s)) (sessions m).

(** Modelled from the spec: a transport failure of the session held for
    a name (missing: the transport's failure callback).  A RemoteSession
    is "destroyed on disconnect or transport failure": the instance goes
    to [error] with [e] as its last error, which is terminal for it, and
    is torn down, so the registry forgets it and its handle is released. *)
Definition transport_failed (n : string) (e : ConnectError) (m : Manager) : Manager :=
  match find_session n (sessions m) with
  | Some s => teardown s m
  | None => m
  end.

Definition has_record (n : string) (m : Manager) : bool :=
  existsb (fun r => String.eqb (name r) n) (store m).

(** Modelled from the spec: add_connection (missing:
    RemoteManager.add_connection), which "mutate[s] the persisted
    ConnectionRecord store"; the name is the unique key, and the password
    goes to the OS-level secret storage, "not the plain config file",
    the record keeping the reference. *)
Definition add_connection (m : Manager) (n host user password : string)
  : bool * Manager :=
  if has_record n m then (false, m)
  else
    let h := fresh (dom (secrets m)) in
    (true,
     {| store := store m ++ [{| name := n; hostname := host; username := user;
                                credential := SecretRef h; saved := true |}];
        secrets := <[h := password]> (secrets m);
        sessions := sessions m;
        open_handles := open_handles m |}).

Definition forget_secret (c : Credential) (sec : gmap nat string) : gmap nat string :=
  match c with
  | SecretRef h => delete h sec
  | Cleartext _ => sec
  end.

(** Modelled from the spec: remove_connection (missing:
    RemoteManager.remove_connection), "removing a record with a live
    session implicitly disconnects first". *)
Definition remove_connection (m : Manager) (n : string) : bool * Manager :=
  if has_record n m then
    let m1 := snd (disconnect n m) in
    (true,
     {| store := List.filter (fun r => negb (String.eqb (name r) n)) (store m1);
        secrets := fold_right forget_secret (secrets m1)
                     (map credential
                          (List.filter (fun r => String.eqb (name r) n) (store m1)));
        sessions := sessions m1;
        open_handles := open_handles m1 |})
  else (false, m).

(** the operations a manager goes through *)
Inductive Op :=
| OpConnect (t : Transport) (r : ConnectionRecord)
| OpDisconnect (n : string)
| OpDisconnectAll
| OpTransportFailed (n : string) (e : ConnectError)
| OpAddConnection (n host user password : string)
| OpRemoveConnection (n : string).

Definition step (m : Manager) (o : Op) : Manager :=
  match o with
  | OpConnect t r => snd (connect t r m)
  | OpDisconnect n => snd (disconnect n m)
  | OpDisconnectAll => snd (disconnect_all m)
  | OpTransportFailed n e => transport_failed n e m
  | OpAddConnection n host user password =>
      snd (add_connection m n host user password)
  | OpRemoveConnection n => snd (remove_connection m n)
  end.

(** the managers that exist: what a fresh manager becomes under any
    sequence of operations *)
Definition run (ops : list Op) : Manager := fold_left step ops empty.

Definition reachable (m : Manager) : Prop := exists ops, m = run ops.

(** Modelled from the spec: the manager's [connection] attribute, which
    the handler reads for the status line (missing:
    RemoteManager.connection): the live session connected last. *)
Definition connection (m : Manager) : option RemoteSession :=
  List.last (map Some (List.filter is_alive (sessions m))) None.

(** Modelled from the spec: the calls of the main window on the manager
    (missing: the methods of RemoteManager); the handler's argument-free
    [disconnect()] and [is_connected()] concern every session held. *)
#[export] Instance manager_api : RemoteManagerAPI Manager := {
  rm_is_connected m := existsb is_alive (sessions m);
  rm_connection_host m :=
    match connection m with
    | Some s => inr (hostname (record s))
    | None => inl (OtherError "'NoneType' object has no attribute 'host'")
    end;
  rm_disconnect m := (snd (disconnect_all m), inr tt);
  rm_add_connection m n host user password :=
    let '(b, m') := add_connection m n host user password in (m', inr b);
  rm_remove_connection m n :=
    let '(b, m') := remove_connection m n in (m', inr b)
}.

(** *** Invariants and derived operations *)

(** the registry is keyed by record name: no two sessions share one *)
Definition wf (m : Manager) : Prop := NoDup (map session_name (sessions m)).

(** does the transport accept the record: channel opened, credentials
    accepted, probe answered in time *)
Definition accepts (t : Transport) (m : Manager) (r : ConnectionRecord) : bool :=
  match open_channel t r with
  | Some h => authenticate t r (resolve m (credential r)) h && probe t h
  | None => false
  end.

(** one [connect] per record, in order *)
Definition connect_all (t : Transport) (rs : list ConnectionRecord) (m : Manager)
  : Manager :=
  fold_left (fun m r => snd (connect t r m)) rs m.

(** the sessions [new] are those of the records [rs], all live *)
Definition sessions_of (new : list RemoteSession) (rs : list ConnectionRecord) : Prop :=
  Forall2 (fun s r => record s = r /\ is_alive s = true) new rs.


(** every persisted record holds a reference into the secret storage *)
Definition store_refs (m : Manager) : Prop :=
  forall r, In r (store m) -> exists h, credential r = SecretRef h.

(** *** Sample hosts and records *)

(** a host that accepts every connection, on channel 7 *)
Definition accepting : Transport :=
  {| open_channel := fun _ => Some 7;
     authenticate := fun _ _ _ => true;
     probe := fun _ => true |}.


(** two saved connections *)
Definition record_A : ConnectionRecord :=
  {| name := "A"; hostname := "10.0.0.1"; username := "admin";
     credential := SecretRef 0; saved := true |}.

Definition record_B : ConnectionRecord :=
  {| name := "B"; hostname := "10.0.0.2"; username := "admin";
     credential := SecretRef 1; saved := true |}.




(** a handler on a fresh manager *)
Definition fresh_handler : RemoteHandler.RemoteHandler Manager :=
  {| RemoteHandler.remote_manager := empty;
     RemoteHandler.file_transfer_dialog := false |}.

End RemoteManager.

(** ** The remote-connection core: [FanOutExecutor]

    The fan-out executor is described by the design document as well; the
    model below follows it. *)

Module FanOutExecutor.

Import RemoteManager.

(** Modelled from the spec: the typed operation-kind enumeration
    (missing: the operation classes of the remote core). *)
Inductive OperationKind :=
| SetEnvironmentVariable
| SetRegistryValue
| ControlService
| RunCommand.

(** Modelled from the spec: one high-level operation, kind plus
    structured parameters (missing: the serialisable operation type). *)
Record Operation := {
  kind : OperationKind;
  parameters : list string
}.

(** Modelled from the spec: OperationRequest, {operation kind,
    parameters, target host set} (missing: the request type); the targets
    are host names in the order the request lists them. *)
Record OperationRequest := {
  operation : Operation;
  targets : list string
}.

(** Modelled from the spec: the per-host failures of [execute] (missing:
    the exception classes of the remote core). *)
Inductive ExecError :=
| RemoteExecError (message : string)
| SessionClosedError
| OperationTimeout.

(** Modelled from the spec: OperationResult's per-host outcome,
    success | failure(reason) (missing: the result type). *)
Inductive Outcome :=
| succeeded (output : string)
| failed (reason : ExecError).

Section Executor.

(** Modelled from the spec: RemoteSession.execute(operation) (missing:
    the session's command channel): what the remote host answers. *)
Variable execute : RemoteSession -> Operation -> Outcome.

(** Modelled from the spec: the call made for one target (missing: the
    executor's per-host call): its session is looked up in the registry at
    dispatch time, and a target without a live session is recorded as
    SessionClosedError. *)
Definition run_on (m : Manager) (op : Operation) (host : string) : Outcome :=
  match find_session host (sessions m) with
  | Some s => if is_alive s then execute s op else failed SessionClosedError
  | None => failed SessionClosedError
  end.

(** Modelled from the spec: the result slots at dispatch (missing: the
    executor's result list): one per resolved target, in target order, none
    answered yet. *)
Definition dispatch (req : OperationRequest) : list (string * option Outcome) :=
  map (fun host => (host, None)) (targets req).

(** Modelled from the spec: the completion of the call dispatched at
    index [i] (missing: the executor's worker callback): its outcome goes
    into slot [i]. *)
Definition complete (m : Manager) (req : OperationRequest)
    (slots : list (string * option Outcome)) (i : nat)
  : list (string * option Outcome) :=
  match targets req !! i with
  | Some host => <[i := (host, Some (run_on m (operation req) host))]> slots
  | None => slots
  end.

(** Modelled from the spec: the per-host timeout (missing: the
    executor's timeout handling): a call that has not answered when it
    expires is recorded as a timeout. *)
Definition close_slot (slot : string * option Outcome) : string * Outcome :=
  match slot with
  | (host, Some o) => (host, o)
  | (host, None) => (host, failed OperationTimeout)
  end.

(** Modelled from the spec: FanOutExecutor's algorithm (missing: the
    executor), "resolve target sessions from the registry at dispatch
    time ...; for each session, invoke execute(operation) under a per-host
    timeout; catch and classify failures locally; assemble results
    preserving target order".  The calls run on a worker pool and answer
    in any order: [completion] lists the dispatch indexes in the order the
    calls completed. *)
Definition fan_out (m : Manager) (req : OperationRequest) (completion : list nat)
  : list (string * Outcome) :=
  map close_slot (fold_left (complete m req) completion (dispatch req)).

(** the slots after the calls of [done] have completed: slot [i] names
    target [i] and holds its answer once call [i] is among them *)
Definition slots_ok (m : Manager) (req : OperationRequest) (done : list nat)
    (slots : list (string * option Outcome)) : Prop :=
  forall i,
    slots !! i
    = (fun host =>
         (host, if bool_decide (i ∈ done)
                then Some (run_on m (operation req) host)
                else None)) <$> (targets req !! i).

End Executor.

(** a remote host that answers every operation with "ok" *)
Definition always_ok (s : RemoteSession) (op : Operation) : Outcome := succeeded "ok".

(** the request "set VAR=1" for the hosts "A" and "B" *)
Definition set_var : OperationRequest :=
  {| operation := {| kind := SetEnvironmentVariable; parameters := ["VAR"; "1"] |};
     targets := ["A"; "B"] |}.

End FanOutExecutor.

(** ** [DiskManager]: the stages of [map_network_drive] *)

Module DiskManagerStages.

Import PyStr DiskManager.
Local Open Scope py_scope.

(** the drive letter [map_network_drive] works with: a colon is added to a
    one-character argument *)
Definition map_letter (drive_letter : string) : string :=
  if (String.length drive_letter =? 1)%nat then drive_letter +:+ ":" else drive_letter.

(** [self.volume_mounted.emit({...})] for a mapped drive *)
Definition mounted (network_path letter : string) : Event :=
  Emit (volume_mounted {| mi_device := letter;
                          mi_mountpoint := letter +:+ String backslash EmptyString;
                          mi_network_path := network_path;
                          mi_is_network_drive := true |}).

(** the part of [map_network_drive] that follows the mapping attempt
    (manager.py:377-429), as a function of the local variables the attempt
    left *)
Definition report (env : Env) (network_path drive_letter : string)
    (use_windows_creds : bool) (username : string) (reconnect : bool)
    (locals : Locals) : Py OpResult :=
  (out <- read_local "stdout" (l_stdout locals) ;;
   let err := l_stderr locals in
   when (truthy out) (log DEBUG ("Command output: " +:+ out)) ;;;
   when (truthy err) (log DEBUG ("Command error: " +:+ err)) ;;;
   if truthy err && contains "error" (lower err) then
     log ERROR ("Failed to map network drive: " +:+ err) ;;;
     log ERROR ("Network path: " +:+ network_path +:+ ", Drive: " +:+ drive_letter) ;;;
     log ERROR ("Using Windows creds: " +:+ str_bool use_windows_creds
                +:+ ", Username: " +:+ username) ;;;
     when (negb use_windows_creds)
          (diagnose env network_path drive_letter username reconnect
                    (l_process locals)) ;;;
     emit (error_occurred ("Failed to map network drive: " +:+ err)) ;;;
     ret {| success := false; error := Some err; warning := None |}
   else
     log INFO ("Mapping network drive " +:+ network_path +:+ " to " +:+ drive_letter) ;;;
     refresh_volumes ;;;
     emit (volume_mounted {| mi_device := drive_letter;
                             mi_mountpoint := drive_letter
                                              +:+ String backslash EmptyString;
                             mi_network_path := network_path;
                             mi_is_network_drive := true |}) ;;;
     ret {| success := true; error := None; warning := None |})%py.

(** the [except Exception as e] clause of [map_network_drive]
    (manager.py:430-437) *)
Definition map_failed (e : PyExc) : Py OpResult :=
  (let error_msg := "Failed to map network drive: " +:+ str_exc e in
   log ERROR error_msg ;;;
   emit (error_occurred error_msg) ;;;
   ret {| success := false; error := Some (str_exc e); warning := None |})%py.

(** [parts[2] if len(parts) > 2 else "server"] (manager.py:324-325) *)
Definition server_name_of (network_path : string) : string :=
  let parts := split backslash network_path in
  if (2 <? length parts)%nat then nth 2 parts "server" else "server".

(** the message built for error 1219 (manager.py:341-346) *)
Definition multiple_connections_message (network_path username : string) : string :=
  "Cannot connect to " +:+ network_path +:+ " with user '" +:+ username
  +:+ "' because you already have a connection to the same server with"
  +:+ " different credentials." +:+ nl +:+ nl
  +:+ "Please disconnect existing connections to " +:+ server_name_of network_path
  +:+ " first using 'net use /delete', or use the same credentials for"
  +:+ " all connections to this server.".

(** [0 if not reconnect else win32netcon.CONNECT_UPDATE_PROFILE] *)
Definition connect_flags (reconnect : bool) : Z :=
  if negb reconnect then 0%Z else CONNECT_UPDATE_PROFILE.

(** the connectivity test of the diagnostics *)
Definition is_ping (argv : list string) : Prop :=
  exists server, argv = ["ping"; "-n"; "1"; server].

Definition is_win32_call (ev : Event) : bool :=
  match ev with
  | Win32AddConnection _ _ _ _ _ => true
  | _ => false
  end.

(** *** Sample machines *)

(** what [net use Z: /delete /y] prints *)
Definition deleted : CompletedProcess :=
  {| returncode := 0; stdout := "Z: was deleted successfully."; stderr := EmptyString |}.

(** a refused delete *)
Definition denied : CompletedProcess :=
  {| returncode := 2;
     stdout := EmptyString;
     stderr := "System error 5 has occurred. Access is denied." |}.

(** a command that failed with return code 2 and a message in German *)
Definition failed_quietly : CompletedProcess :=
  {| returncode := 2;
     stdout := EmptyString;
     stderr := "Systemfehler 53 aufgetreten." |}.

(** a machine whose system drive is reported in lower case *)
Definition lower_case_partitions : list Partition :=
  [ {| device := "c:\"; mountpoint := "c:\"; fstype := "NTFS"; opts := "rw,fixed" |} ].

(** a machine where Z: is mapped and a delete answers [answer] *)
Definition mapped_env (answer : CompletedProcess) : Env :=
  {| run := fun argv => match argv with
                        | [_; _] => inr listing
                        | _ => inr answer
                        end;
     disk_partitions := inr [];
     import_win32 := None;
     WNetAddConnection2 := fun _ _ _ _ _ => None |}.

(** a machine already connected to the server under other credentials;
    its commands answer [answer] *)
Definition busy_env (answer : PyExc + CompletedProcess) : Env :=
  {| run := fun _ => answer;
     disk_partitions := inr [];
     import_win32 := None;
     WNetAddConnection2 :=
       fun _ _ _ _ _ =>
         Some (PyWinError 1219 "Multiple connections to a server are not allowed.") |}.

(** a machine without pywin32 *)
Definition no_pywin32_env : Env :=
  {| run := fun _ => inr listing;
     disk_partitions := inr [];
     import_win32 := Some "No module named 'win32wnet'";
     WNetAddConnection2 := fun _ _ _ _ _ => None |}.

End DiskManagerStages.

(** ** [DiskManager.refresh_volumes] and [get_volumes]
       (src/ui/panels/disk/manager.py) *)

Module DiskVolumes.

Import PyStr DiskManager.
Local Open Scope py_scope.

(** a number as psutil reports it: an integer, or a float kept by its
    printed form *)
Inductive PyNum :=
| PyInt (z : Z)
| PyFloat (repr : string).

(** [psutil.disk_usage(path)] *)
Inductive UsageAnswer :=
| Usage (total used free : Z) (percent : PyNum)
| NoAccess                      (* PermissionError or FileNotFoundError *)
| UsageFails (e : PyExc).       (* any other exception *)

(** what the operating system answers to [refresh_volumes] *)
Record VolEnv := {
  os : Env;
  disk_usage : string -> UsageAnswer;
  (** [platform.system()] *)
  platform_system : string
}.

(** the dictionary built for one volume; [v_label] is [None] until the key
    'label' is set *)
Record Volume := {
  v_device : string;
  v_mountpoint : string;
  v_fstype : string;
  v_opts : string;
  v_is_network_drive : bool;
  v_network_path : option string;
  v_type : string;
  v_total : Z;
  v_used : Z;
  v_free : Z;
  v_percent : PyNum;
  v_label : option string
}.

(** [s.rstrip(c)] for a one-character set *)
Fixpoint rstrip_char (c : ascii) (s : string) : string :=
  match s with
  | EmptyString => EmptyString
  | String a r =>
      match rstrip_char c r with
      | EmptyString => if Ascii.eqb a c then EmptyString else String a EmptyString
      | r' => String a r'
      end
  end.

(** [s[n:]] *)
Fixpoint skip (n : nat) (s : string) : string :=
  match n, s with
  | O, _ => s
  | S _, EmptyString => EmptyString
  | S n', String _ r => skip n' r
  end.

(** the longest prefix of characters satisfying [p], and the rest *)
Fixpoint span (p : ascii -> bool) (s : string) : string * string :=
  match s with
  | EmptyString => (EmptyString, EmptyString)
  | String c r =>
      if p c then let '(a, b) := span p r in (String c a, b)
      else (EmptyString, s)
  end.

(** a match of [r'Remote name\s+\\\\([^\s]+)'] at the start of [s]: its
    group 1 *)
Definition remote_name_at (s : string) : option string :=
  if startswith "Remote name" s then
    let '(blanks, rest) := span is_space (skip 11 s) in
    if truthy blanks && startswith "\\" rest then
      let '(name, _) := span (fun c => negb (is_space c)) (skip 2 rest) in
      if truthy name then Some name else None
    else None
  else None.

(** [re.search(r'Remote name\s+\\\\([^\s]+)', s)]: group 1 of the leftmost
    match *)
Fixpoint remote_name_search (s : string) : option string :=
  match remote_name_at s with
  | Some name => Some name
  | None =>
      match s with
      | EmptyString => None
      | String _ r => remote_name_search r
      end
  end.

Definition newline : ascii := ascii_of_nat 10.

(** a match, at the start of [s], of the pattern "Volume in drive [A-Z] is "
    followed by a group of any characters but a newline: that group, the
    rest of the line *)
Definition volume_label_at (s : string) : option string :=
  if startswith "Volume in drive " s then
    match skip 16 s with
    | String c rest =>
        if is_upper c && startswith " is " rest
        then Some (fst (span (fun a => negb (Ascii.eqb a newline)) (skip 4 rest)))
        else None
    | EmptyString => None
    end
  else None.

(** [re.search] for that pattern: group 1 of the leftmost match *)
Fixpoint volume_label_search (s : string) : option string :=
  match volume_label_at s with
  | Some label => Some label
  | None =>
      match s with
      | EmptyString => None
      | String _ r => volume_label_search r
      end
  end.

(** [partition.fstype == 'NTFS' and (partition.opts and 'remote' in
    partition.opts.lower())] *)
Definition is_remote_ntfs (partition : Partition) : bool :=
  String.eqb (fstype partition) "NTFS"
  && (truthy (opts partition) && contains "remote" (lower (opts partition))).

(** the [if]/[elif] chain that names the volume type *)
Definition volume_type (partition : Partition) : string :=
  if is_remote_ntfs partition then "Network Drive"
  else if String.eqb (mountpoint partition) "C:\" then "System Drive"
  else if negb (truthy (fstype partition)) then "Unknown"
  else if (if truthy (opts partition)
           then contains "cdrom" (lower (opts partition)) else false)
       then "CD/DVD"
  else if (if truthy (opts partition)
           then contains "removable" (lower (opts partition)) else false)
       then "Removable Drive"
  else "Local Disk".

(** a [for] loop whose body may raise, collecting what the bodies return *)
Fixpoint for_each {A B} (body : A -> Py B) (l : list A) : Py (list B) :=
  match l with
  | [] => ret []
  | a :: l' => (b <- body a ;; bs <- for_each body l' ;; ret (b :: bs))
  end.

(** the body of the first loop: the volume of one partition *)
Definition make_volume (env : VolEnv) (partition : Partition) : Py Volume :=
  usage <- match disk_usage env (mountpoint partition) with
           | Usage total used free percent => ret (total, used, free, percent)
           | NoAccess => ret (0%Z, 0%Z, 0%Z, PyInt 0)
           | UsageFails e => raise e
           end ;;
  let '(total, used, free, percent) := usage in
  network <-
    (if is_remote_ntfs partition then
       path <- try_except
                 (let drive_letter := rstrip_char backslash (device partition) in
                  result <- subprocess_run (os env) ["net"; "use"; drive_letter] ;;
                  if (returncode result =? 0)%Z then
                    ret (option_map (fun name => "\\" +:+ name)
                                    (remote_name_search (stdout result)))
                  else ret None)
                 (fun e =>
                    Some (log ERROR ("Error getting network path: " +:+ str_exc e) ;;;
                          ret None)) ;;
       ret (true, path)
     else ret (false, None)) ;;
  ret {| v_device := device partition;
         v_mountpoint := mountpoint partition;
         v_fstype := fstype partition;
         v_opts := opts partition;
         v_is_network_drive := fst network;
         v_network_path := snd network;
         v_type := volume_type partition;
         v_total := total;
         v_used := used;
         v_free := free;
         v_percent := percent;
         v_label := None |}.

Definition with_label (volume : Volume) (label : string) : Volume :=
  {| v_device := v_device volume;
     v_mountpoint := v_mountpoint volume;
     v_fstype := v_fstype volume;
     v_opts := v_opts volume;
     v_is_network_drive := v_is_network_drive volume;
     v_network_path := v_network_path volume;
     v_type := v_type volume;
     v_total := v_total volume;
     v_used := v_used volume;
     v_free := v_free volume;
     v_percent := v_percent volume;
     v_label := Some label |}.

(** the body of the second loop: the label of one volume *)
Definition label_volume (env : VolEnv) (volume : Volume) : Py Volume :=
  try_except
    (if String.eqb (platform_system env) "Windows" && truthy (v_mountpoint volume) then
       let drive_letter := rstrip_char backslash (v_mountpoint volume) in
       result <- subprocess_run (os env) ["cmd"; "/c"; "vol " +:+ drive_letter] ;;
       if (returncode result =? 0)%Z then
         match volume_label_search (stdout result) with
         | Some label => ret (with_label volume (strip label))
         | None => ret (with_label volume "No Label")
         end
       else ret (with_label volume "Unknown")
     else ret (with_label volume "Unknown"))
    (fun e =>
       Some (log ERROR ("Error getting volume label: " +:+ str_exc e) ;;;
             ret (with_label volume "Error"))).

(** [refresh_volumes]: the new value of [self.volumes] and the list
    returned *)
Definition refresh_volumes (env : VolEnv) (self_volumes : list Volume)
  : Py (list Volume * list Volume) :=
  try_except
    (log DEBUG "Refreshing volumes" ;;;
     partitions <- match disk_partitions (os env) with
                   | inl e => raise e
                   | inr ps => ret ps
                   end ;;
     volumes <- for_each (make_volume env) partitions ;;
     volumes <- for_each (label_volume env) volumes ;;
     emit volumes_refreshed ;;;
     log DEBUG "Refreshed volumes" ;;;
     ret (volumes, volumes))
    (fun e =>
       let error_msg := "Failed to refresh volumes: " +:+ str_exc e in
       Some (log ERROR error_msg ;;;
             emit (error_occurred error_msg) ;;;
             ret (self_volumes, []))).

(** [get_volumes]: the compatibility wrapper *)
Definition get_volumes (env : VolEnv) (self_volumes : list Volume)
  : Py (list Volume * list Volume) :=
  refresh_volumes env self_volumes.

(** *** What the loops compute *)

(** the usage figures the first loop stores: zeros when the usage cannot
    be read *)
Definition usage_of (env : VolEnv) (p : Partition) : Z * Z * Z * PyNum :=
  match disk_usage env (mountpoint p) with
  | Usage total used free percent => (total, used, free, percent)
  | _ => (0%Z, 0%Z, 0%Z, PyInt 0)
  end.

(** the network path the first loop stores *)
Definition network_path_of (env : VolEnv) (p : Partition) : option string :=
  if is_remote_ntfs p then
    match run (os env) ["net"; "use"; rstrip_char backslash (device p)] with
    | inr result =>
        if (returncode result =? 0)%Z
        then option_map (fun name => "\\" +:+ name) (remote_name_search (stdout result))
        else None
    | inl _ => None
    end
  else None.

(** the volume the first loop appends for a partition *)
Definition volume_of (env : VolEnv) (p : Partition) : Volume :=
  {| v_device := device p;
     v_mountpoint := mountpoint p;
     v_fstype := fstype p;
     v_opts := opts p;
     v_is_network_drive := is_remote_ntfs p;
     v_network_path := network_path_of env p;
     v_type := volume_type p;
     v_total := fst (fst (fst (usage_of env p)));
     v_used := snd (fst (fst (usage_of env p)));
     v_free := snd (fst (usage_of env p));
     v_percent := snd (usage_of env p);
     v_label := None |}.

(** the label the second loop gives a volume *)
Definition label_of (env : VolEnv) (v : Volume) : string :=
  if String.eqb (platform_system env) "Windows" && truthy (v_mountpoint v) then
    match run (os env)
              ["cmd"; "/c"; "vol " +:+ rstrip_char backslash (v_mountpoint v)] with
    | inr result =>
        if (returncode result =? 0)%Z then
          match volume_label_search (stdout result) with
          | Some label => strip label
          | None => "No Label"
          end
        else "Unknown"
    | inl _ => "Error"
    end
  else "Unknown".

Definition final_volume (env : VolEnv) (p : Partition) : Volume :=
  with_label (volume_of env p) (label_of env (volume_of env p)).

(** can the usage of the partition be read, or does reading it raise
    something else than PermissionError and FileNotFoundError? *)
Definition usable (env : VolEnv) (p : Partition) : bool :=
  match disk_usage env (mountpoint p) with
  | UsageFails _ => false
  | _ => true
  end.

(** the signals emitted, in order *)
Fixpoint signals (t : list Event) : list Signal :=
  match t with
  | [] => []
  | Emit sig :: t' => sig :: signals t'
  | _ :: t' => signals t'
  end.

(** the command the first loop runs for a partition, if any *)
Definition net_use_of (p : Partition) : list (list string) :=
  if is_remote_ntfs p then [["net"; "use"; rstrip_char backslash (device p)]] else [].

(** the command the second loop runs for the volume of a partition, if
    any *)
Definition vol_of (env : VolEnv) (p : Partition) : list (list string) :=
  if String.eqb (platform_system env) "Windows" && truthy (mountpoint p)
  then [["cmd"; "/c"; "vol " +:+ rstrip_char backslash (mountpoint p)]]
  else [].

(** the six names of a volume type *)
Definition volume_types : list string :=
  ["Local Disk"; "Network Drive"; "System Drive"; "Unknown"; "CD/DVD";
   "Removable Drive"].

(** *** A sample machine *)

(** what [net use Z:] prints *)
Definition net_use_Z : string :=
  "Local name        Z:" +:+ nl +:+
  "Remote name       \\fileserver\share" +:+ nl +:+
  "Resource type     Disk" +:+ nl.

(** what [vol C:] prints *)
Definition vol_C : string :=
  " Volume in drive C is Windows" +:+ String (ascii_of_nat 13) nl +:+
  " Volume Serial Number is 1234-ABCD" +:+ nl.

Definition three_partitions : list Partition :=
  [ {| device := "C:\"; mountpoint := "C:\"; fstype := "NTFS"; opts := "rw,fixed" |};
    {| device := "D:\"; mountpoint := "D:\"; fstype := ""; opts := "cdrom" |};
    {| device := "Z:\"; mountpoint := "Z:\"; fstype := "NTFS"; opts := "rw,remote" |} ].

(** a Windows machine with a system drive, an empty optical drive that
    cannot be read, and a network drive *)
Definition windows_env : VolEnv :=
  {| os := {| run := fun argv =>
                       match argv with
                       | ["net"; "use"; _] =>
                           inr {| returncode := 0; stdout := net_use_Z;
                                  stderr := EmptyString |}
                       | ["cmd"; "/c"; "vol C:"] =>
                           inr {| returncode := 0; stdout := vol_C;
                                  stderr := EmptyString |}
                       | _ =>
                           inr {| returncode := 1; stdout := EmptyString;
                                  stderr := "The device is not ready." |}
                       end;
              disk_partitions := inr three_partitions;
              import_win32 := None;
              WNetAddConnection2 := fun _ _ _ _ _ => None |};
     disk_usage := fun path =>
                     if String.eqb path "D:\" then NoAccess
                     else Usage 1000 400 600 (PyFloat "40.0");
     platform_system := "Windows" |}.

(** the same machine with an optical drive whose usage raises "device not
    ready" *)
Definition not_ready_env : VolEnv :=
  {| os := os windows_env;
     disk_usage := fun path =>
                     if String.eqb path "D:\" then
                       UsageFails (OtherError "[WinError 21] The device is not ready")
                     else Usage 1000 400 600 (PyFloat "40.0");
     platform_system := "Windows" |}.

(** the same machine seen from another platform *)
Definition linux_env : VolEnv :=
  {| os := os windows_env;
     disk_usage := disk_usage windows_env;
     platform_system := "Linux" |}.

End DiskVolumes.

(** ** [DiskManager]: a method together with the [refresh_volumes] it calls *)

Module DiskProgram.

Import PyStr DiskManager DiskVolumes.

(** [self.volumes] after a call of [refresh_volumes] *)
Definition volumes_after (env : VolEnv) (self_volumes : list Volume) : list Volume :=
  match outcome (DiskVolumes.refresh_volumes env self_volumes) with
  | inr (volumes, _) => volumes
  | inl _ => self_volumes
  end.

(** In the trace of [map_network_drive] and of [disconnect_network_drive]
    the event [RefreshVolumes] marks the call [self.refresh_volumes()].
    The trace of the program has, after each mark, what [refresh_volumes]
    does on the machine, [self.volumes] being what the call before left. *)
Fixpoint whole_trace (env : VolEnv) (self_volumes : list Volume) (t : list Event)
  : list Event :=
  match t with
  | [] => []
  | RefreshVolumes :: t' =>
      RefreshVolumes
      :: trace (DiskVolumes.refresh_volumes env self_volumes)
      ++ whole_trace env (volumes_after env self_volumes) t'
  | ev :: t' => ev :: whole_trace env self_volumes t'
  end.

(** what a method of [DiskManager] does on a machine, the refreshes it
    calls included; [os env] is the machine the method is run on *)
Definition program_trace {A} (env : VolEnv) (self_volumes : list Volume) (m : Py A)
  : list Event :=
  whole_trace env self_volumes (trace m).

(** the commands it runs, those of the refreshes included *)
Definition program_commands {A} (env : VolEnv) (self_volumes : list Volume) (m : Py A)
  : list (list string) :=
  subprocess_calls (program_trace env self_volumes m).

(** the commands of one call of [refresh_volumes] *)
Definition refresh_commands (env : VolEnv) (self_volumes : list Volume)
  : list (list string) :=
  subprocess_calls (trace (DiskVolumes.refresh_volumes env self_volumes)).

(** a command of [refresh_volumes]: [net use <drive>] for the device of a
    partition, or [cmd /c vol <drive>] for its mountpoint *)
Definition is_refresh_command (env : VolEnv) (argv : list string) : Prop :=
  exists ps p,
    disk_partitions (os env) = inr ps /\ In p ps
    /\ (argv = ["net"; "use"; rstrip_char backslash (device p)]
        \/ argv = ["cmd"; "/c"; "vol " +:+ rstrip_char backslash (mountpoint p)]).

Definition is_refresh_call (ev : Event) : bool :=
  match ev with
  | RefreshVolumes => true
  | _ => false
  end.

(** what [refresh_volumes] may do: run one of its commands, log, emit *)
Definition is_refresh_event (env : VolEnv) (ev : Event) : Prop :=
  match ev with
  | Subprocess argv => is_refresh_command env argv
  | Log _ _ | Emit _ => True
  | _ => False
  end.

(** *** Sample machines *)

(** the machine of [windows_env] with Z: in the listing of [net use]; its
    other [net use] commands (delete, map) complete, and the win32 call
    succeeds *)
Definition mapped_windows_env : VolEnv :=
  {| os := {| run := fun argv =>
                       match argv with
                       | ["net"; "use"] => inr listing
                       | ["net"; "use"; _] =>
                           inr {| returncode := 0; stdout := net_use_Z;
                                  stderr := EmptyString |}
                       | ["cmd"; "/c"; "vol C:"] =>
                           inr {| returncode := 0; stdout := vol_C;
                                  stderr := EmptyString |}
                       | ["cmd"; _; _] =>
                           inr {| returncode := 1; stdout := EmptyString;
                                  stderr := "The device is not ready." |}
                       | _ =>
                           inr {| returncode := 0;
                                  stdout := "The command completed successfully.";
                                  stderr := EmptyString |}
                       end;
              disk_partitions := inr three_partitions;
              import_win32 := None;
              WNetAddConnection2 := fun _ _ _ _ _ => None |};
     disk_usage := disk_usage windows_env;
     platform_system := "Windows" |}.

(** the machine of [windows_env], already connected to the file server
    under other credentials: the win32 call fails with error 1219 *)
Definition busy_windows_env : VolEnv :=
  {| os := {| run := run (os mapped_windows_env);
              disk_partitions := inr three_partitions;
              import_win32 := None;
              WNetAddConnection2 :=
                fun _ _ _ _ _ =>
                  Some (PyWinError 1219
                          "Multiple connections to a server are not allowed.") |};
     disk_usage := disk_usage windows_env;
     platform_system := "Windows" |}.

(** the machine of [windows_env] without pywin32 *)
Definition no_pywin32_windows_env : VolEnv :=
  {| os := {| run := run (os mapped_windows_env);
              disk_partitions := inr three_partitions;
              import_win32 := Some "No module named 'win32wnet'";
              WNetAddConnection2 := fun _ _ _ _ _ => None |};
     disk_usage := disk_usage windows_env;
     platform_system := "Windows" |}.

End DiskProgram.

From Stdlib Require Import DecimalPos DecimalZ.

(** ** Python's [int] of a string *)

Module PyInt.

Import PyStr.

Definition is_digit (c : ascii) : bool :=
  (48 <=? nat_of_ascii c)%nat && (nat_of_ascii c <=? 57)%nat.

Definition digit_value (c : ascii) : Z := Z.of_nat (nat_of_ascii c) - 48.

(** the digits of a literal, with single underscores between digits:
    [after_digit] tells whether the character before was a digit, so
    that an underscore or the end may follow *)
Fixpoint digits (s : string) (acc : Z) (after_digit : bool) : option Z :=
  match s with
  | EmptyString => if after_digit then Some acc else None
  | String c r =>
      if is_digit c then digits r (10 * acc + digit_value c) true
      else if Ascii.eqb c "_" && after_digit then digits r acc false
      else None
  end.

Fixpoint count_digits (s : string) : nat :=
  match s with
  | EmptyString => 0
  | String c r => if is_digit c then S (count_digits r) else count_digits r
  end.

(** [sys.int_info.default_max_str_digits] *)
Definition max_str_digits : nat := 4300.

Definition quote : ascii := ascii_of_nat 39.
Definition double_quote : ascii := ascii_of_nat 34.

Definition hex_digit (n : nat) : ascii :=
  if (n <? 10)%nat then ascii_of_nat (48 + n) else ascii_of_nat (87 + n).

(** one character of [repr(s)] *)
Definition repr_char (q c : ascii) : string :=
  let n := nat_of_ascii c in
  if Ascii.eqb c backslash then String backslash (String backslash EmptyString)
  else if Ascii.eqb c q then String backslash (String c EmptyString)
  else if (n =? 9)%nat then String backslash "t"
  else if (n =? 10)%nat then String backslash "n"
  else if (n =? 13)%nat then String backslash "r"
  else if (n <? 32)%nat || (n =? 127)%nat then
    String backslash (String "x" (String (hex_digit (n / 16))
                                         (String (hex_digit (n mod 16)) EmptyString)))
  else String c EmptyString.

Fixpoint repr_chars (q : ascii) (s : string) : string :=
  match s with
  | EmptyString => EmptyString
  | String c r => repr_char q c +:+ repr_chars q r
  end.

(** [repr(s)] of an ASCII string: double quotes when the string holds a
    single quote and no double quote, single quotes otherwise *)
Definition py_repr (s : string) : string :=
  let q := if contains (String quote EmptyString) s
              && negb (contains (String double_quote EmptyString) s)
           then double_quote else quote in
  String q (repr_chars q s) +:+ String q EmptyString.

(** the ValueError of a refused literal; the message shows at most 200
    characters of [repr(s)] *)
Definition invalid_literal (s : string) : PyExc :=
  OtherError ("invalid literal for int() with base 10: " +:+ slice_to 200 (py_repr s)).

Definition too_many_digits (n : nat) : PyExc :=
  OtherError ("Exceeds the limit (4300 digits) for integer string conversion: value has "
              +:+ of_Z (Z.of_nat n)
              +:+ " digits; use sys.set_int_max_str_digits() to increase the limit").

(** the characters [int] skips around a literal: TAB LF VT FF CR and the
    blank; unlike [str.strip()] it keeps FS GS RS US, which make the
    literal invalid *)
Definition is_blank (c : ascii) : bool :=
  let n := nat_of_ascii c in
  ((9 <=? n)%nat && (n <=? 13)%nat) || (n =? 32)%nat.

Fixpoint skip_leading (s : string) : string :=
  match s with
  | EmptyString => EmptyString
  | String c r => if is_blank c then skip_leading r else s
  end.

Fixpoint skip_trailing (s : string) : string :=
  match s with
  | EmptyString => EmptyString
  | String c r =>
      match skip_trailing r with
      | EmptyString => if is_blank c then EmptyString else String c EmptyString
      | r' => String c r'
      end
  end.

Definition skip_blanks (s : string) : string := skip_trailing (skip_leading s).

(** the literal after the blanks were dropped: an optional sign, then the
    digits *)
Definition parse_literal (t : string) : option Z :=
  match t with
  | EmptyString => None
  | String c r =>
      if Ascii.eqb c "+" then digits r 0 false
      else if Ascii.eqb c "-" then option_map Z.opp (digits r 0 false)
      else digits t 0 false
  end.

(** [int(s)] of a string: blanks around the literal are dropped, a sign
    may lead, the digits may be grouped by single underscores; anything
    else raises ValueError, and so does a literal of more than 4300
    digits *)
Definition py_int (s : string) : PyExc + Z :=
  let t := skip_blanks s in
  match parse_literal t with
  | None => inl (invalid_literal s)
  | Some z =>
      if (max_str_digits <? count_digits t)%nat
      then inl (too_many_digits (count_digits t))
      else inr z
  end.

End PyInt.

(** ** [DiskManager.get_disks] (src/ui/panels/disk/manager.py) *)

Module PhysicalDisks.

Import PyStr PyInt.
Local Open Scope py_scope.

(** a property value of a WMI object *)
Inductive Value :=
| VNone
| VStr (s : string)
| VInt (z : Z)
| VBool (b : bool).

(** a [Win32_DiskDrive] object.  [Index], [Caption], [Model] and [Size]
    are read without a test; [None] is a null property.  [Size], an
    unsigned 64-bit property, comes as a string.  The four properties read
    under [hasattr] are [None] when the object has no such attribute. *)
Record Win32_DiskDrive := {
  Index : option Z;
  Caption : option string;
  Model : option string;
  Size : option string;
  InterfaceType : option Value;
  SerialNumber : option Value;
  Status : option Value;
  FirmwareRevision : option Value
}.

(** a [Win32_DiskPartition] object *)
Record Win32_DiskPartition := {
  DiskIndex : option Z;
  Name : option string;
  PartitionType : option string;
  PartitionSize : option string;
  Bootable : option Value
}.

(** what the [wmi] module answers *)
Record WmiEnv := {
  (** [import wmi]: [Some msg] when it raises [ImportError(msg)] *)
  import_wmi : option string;
  (** [wmi.WMI()]: [Some e] when it raises [e] *)
  WMI : option PyExc;
  (** [c.Win32_DiskDrive()] *)
  query_DiskDrive : PyExc + list Win32_DiskDrive;
  (** [c.Win32_DiskPartition()] *)
  query_DiskPartition : PyExc + list Win32_DiskPartition
}.

Record PartitionInfo := {
  pi_name : option string;
  pi_type : option string;
  pi_size : Z;
  pi_bootable : Value
}.

Record DiskInfo := {
  di_name : option string;
  di_model : option string;
  di_size : Z;
  di_interface : Value;
  di_serial : Value;
  di_status : Value;
  di_firmware : Value;
  di_partitions : list PartitionInfo
}.

(** [int(x.Size) if x.Size else 0] *)
Definition size_or_zero (size : option string) : PyExc + Z :=
  match size with
  | Some (String c r) => py_int (String c r)
  | _ => inr 0%Z
  end.

(** [x.attr if hasattr(x, 'attr') else default] *)
Definition attr_or (attr : option Value) (default : Value) : Value :=
  match attr with
  | Some v => v
  | None => default
  end.

(** the dictionary built for a drive, before its partitions are known *)
Definition disk_info (disk : Win32_DiskDrive) : PyExc + DiskInfo :=
  match size_or_zero (Size disk) with
  | inl e => inl e
  | inr size =>
      inr {| di_name := Caption disk;
             di_model := Model disk;
             di_size := size;
             di_interface := attr_or (InterfaceType disk) (VStr "Unknown");
             di_serial := attr_or (SerialNumber disk) (VStr "Unknown");
             di_status := attr_or (Status disk) (VStr "Unknown");
             di_firmware := attr_or (FirmwareRevision disk) (VStr "Unknown");
             di_partitions := [] |}
  end.

(** the first loop: [disk_map[disk.Index] = disk], then the dictionary of
    the drive is appended to [disks] *)
Fixpoint read_drives (drives : list Win32_DiskDrive)
    (disk_map : gmap (option Z) Win32_DiskDrive) (disks : list DiskInfo)
  : PyExc + (gmap (option Z) Win32_DiskDrive * list DiskInfo) :=
  match drives with
  | [] => inr (disk_map, disks)
  | disk :: drives' =>
      let disk_map := <[Index disk := disk]> disk_map in
      match disk_info disk with
      | inl e => inl e
      | inr info => read_drives drives' disk_map (disks ++ [info])
      end
  end.

(** [int(partition.DiskIndex)] *)
Definition int_of_index (index : option Z) : PyExc + Z :=
  match index with
  | Some i => inr i
  | None =>
      inl (OtherError "int() argument must be a string, a bytes-like object or a real number, not 'NoneType'")
  end.

(** [a == b] on two captions *)
Definition caption_eqb (a b : option string) : bool :=
  match a, b with
  | Some x, Some y => String.eqb x y
  | None, None => true
  | _, _ => false
  end.

Definition partition_info (partition : Win32_DiskPartition) : PyExc + PartitionInfo :=
  match size_or_zero (PartitionSize partition) with
  | inl e => inl e
  | inr size =>
      inr {| pi_name := Name partition;
             pi_type := PartitionType partition;
             pi_size := size;
             pi_bootable := attr_or (Bootable partition) (VBool false) |}
  end.

Definition append_partition (disk : DiskInfo) (info : PartitionInfo) : DiskInfo :=
  {| di_name := di_name disk;
     di_model := di_model disk;
     di_size := di_size disk;
     di_interface := di_interface disk;
     di_serial := di_serial disk;
     di_status := di_status disk;
     di_firmware := di_firmware disk;
     di_partitions := di_partitions disk ++ [info] |}.

(** [for disk in disks: if disk['name'] == caption: ... append]: the
    dictionaries are changed in place, so what was appended before an
    exception stays; the answer is the list after the loop and the
    exception that ended it, if any *)
Fixpoint attach (partition : Win32_DiskPartition) (caption : option string)
    (disks : list DiskInfo) : list DiskInfo * option PyExc :=
  match disks with
  | [] => ([], None)
  | disk :: rest =>
      if caption_eqb (di_name disk) caption then
        match partition_info partition with
        | inl e => (disk :: rest, Some e)
        | inr info =>
            let '(rest', r) := attach partition caption rest in
            (append_partition disk info :: rest', r)
        end
      else
        let '(rest', r) := attach partition caption rest in
        (disk :: rest', r)
  end.

(** [str(x)] of a string or None inside an f-string *)
Definition str_opt (s : option string) : string :=
  match s with
  | Some s => s
  | None => "None"
  end.

(** the body of the second loop for one partition, with its [try] *)
Definition place_partition (disk_map : gmap (option Z) Win32_DiskDrive)
    (partition : Win32_DiskPartition) (disks : list DiskInfo) : Py (list DiskInfo) :=
  let '(disks', r) :=
    match int_of_index (DiskIndex partition) with
    | inl e => (disks, Some e)
    | inr disk_index =>
        match disk_map !! Some disk_index with
        | Some drive => attach partition (Caption drive) disks
        | None => (disks, None)
        end
    end in
  match r with
  | Some e =>
      log WARNING ("Error processing partition " +:+ str_opt (Name partition)
                   +:+ ": " +:+ str_exc e) ;;;
      ret disks'
  | None => ret disks'
  end.

(** the second loop *)
Fixpoint place_partitions (disk_map : gmap (option Z) Win32_DiskDrive)
    (partitions : list Win32_DiskPartition) (disks : list DiskInfo)
  : Py (list DiskInfo) :=
  match partitions with
  | [] => ret disks
  | partition :: partitions' =>
      disks <- place_partition disk_map partition disks ;;
      place_partitions disk_map partitions' disks
  end.

Definition lift {A} (r : PyExc + A) : Py A :=
  match r with
  | inl e => raise e
  | inr a => ret a
  end.

Definition get_disks (env : WmiEnv) : Py (list DiskInfo) :=
  match import_wmi env with
  | Some msg => raise (ImportError msg)
  | None =>
      try_except
        (match WMI env with Some e => raise e | None => ret tt end ;;;
         drives <- lift (query_DiskDrive env) ;;
         read <- lift (read_drives drives ∅ []) ;;
         partitions <- lift (query_DiskPartition env) ;;
         place_partitions (fst read) partitions (snd read))
        (fun e => Some (log ERROR ("Error getting physical disks: " +:+ str_exc e) ;;;
                        ret []))
  end.

(** *** What the two loops compute *)

(** [disk_map] after the first loop: for each index the last drive that
    has it *)
Definition index_map (drives : list Win32_DiskDrive) : gmap (option Z) Win32_DiskDrive :=
  foldl (fun m disk => <[Index disk := disk]> m) ∅ drives.

(** the dictionary of a drive whose size can be read *)
Definition disk_info_of (disk : Win32_DiskDrive) : DiskInfo :=
  {| di_name := Caption disk;
     di_model := Model disk;
     di_size := match size_or_zero (Size disk) with inr z => z | inl _ => 0%Z end;
     di_interface := attr_or (InterfaceType disk) (VStr "Unknown");
     di_serial := attr_or (SerialNumber disk) (VStr "Unknown");
     di_status := attr_or (Status disk) (VStr "Unknown");
     di_firmware := attr_or (FirmwareRevision disk) (VStr "Unknown");
     di_partitions := [] |}.

(** what a partition adds to the disks of a given name: its dictionary,
    when its [DiskIndex] is the index of a drive whose caption is that
    name and its size can be read *)
Definition contributes (disk_map : gmap (option Z) Win32_DiskDrive)
    (name : option string) (partition : Win32_DiskPartition) : option PartitionInfo :=
  match DiskIndex partition with
  | Some disk_index =>
      match disk_map !! Some disk_index with
      | Some drive =>
          if caption_eqb name (Caption drive) then
            match partition_info partition with
            | inr info => Some info
            | inl _ => None
            end
          else None
      | None => None
      end
  | None => None
  end.

Definition add_partitions (disk : DiskInfo) (infos : list PartitionInfo) : DiskInfo :=
  {| di_name := di_name disk;
     di_model := di_model disk;
     di_size := di_size disk;
     di_interface := di_interface disk;
     di_serial := di_serial disk;
     di_status := di_status disk;
     di_firmware := di_firmware disk;
     di_partitions := di_partitions disk ++ infos |}.

(** the result of [get_disks] when nothing raises in its [try] *)
Definition disks_of (drives : list Win32_DiskDrive)
    (partitions : list Win32_DiskPartition) : list DiskInfo :=
  map (fun disk =>
         add_partitions (disk_info_of disk)
           (omap (contributes (index_map drives) (Caption disk)) partitions))
      drives.

(** *** Sample machines *)

Definition drive (index : Z) (caption size : string) : Win32_DiskDrive :=
  {| Index := Some index; Caption := Some caption; Model := Some caption;
     Size := Some size; InterfaceType := Some (VStr "SCSI"); SerialNumber := None;
     Status := Some (VStr "OK"); FirmwareRevision := Some VNone |}.

Definition part (index : Z) (name size : string) : Win32_DiskPartition :=
  {| DiskIndex := Some index; Name := Some name;
     PartitionType := Some "GPT: Basic Data"; PartitionSize := Some size;
     Bootable := Some (VBool false) |}.

(** two drives of the same model, one partition each *)
Definition twin_drives : WmiEnv :=
  {| import_wmi := None;
     WMI := None;
     query_DiskDrive := inr [drive 0 "Samsung SSD 970 EVO 1TB" "1000202273280";
                             drive 1 "Samsung SSD 970 EVO 1TB" "1000202273280"];
     query_DiskPartition := inr [part 0 "Disk #0, Partition #0" "1000186314752";
                                 part 1 "Disk #1, Partition #0" "1000186314752"] |}.

(** two drives of different models; the size of one partition is not a
    number *)
Definition two_models : WmiEnv :=
  {| import_wmi := None;
     WMI := None;
     query_DiskDrive := inr [drive 0 "Samsung SSD 970 EVO 1TB" "1000202273280";
                             drive 1 "WDC WD40EZRZ" "4000784417280"];
     query_DiskPartition := inr [part 0 "Disk #0, Partition #0" "104857600";
                                 part 0 "Disk #0, Partition #1" "n/a";
                                 part 1 "Disk #1, Partition #0" "4000769794048"] |}.

(** the partitions cannot be queried *)
Definition no_partitions : WmiEnv :=
  {| import_wmi := None;
     WMI := None;
     query_DiskDrive := query_DiskDrive two_models;
     query_DiskPartition := inl (OtherError "<x_wmi: Unexpected COM Error>") |}.

(** a machine without the [wmi] module *)
Definition no_wmi : WmiEnv :=
  {| import_wmi := Some "No module named 'wmi'";
     WMI := None;
     query_DiskDrive := inr [];
     query_DiskPartition := inr [] |}.

End PhysicalDisks.

(** ** [StartupTree] (src/ui/panels/applications/tree_widget.py) *)

Module StartupTree.

Import PackagesTree.

(** the widget: its header labels and its top-level items *)
Record StartupTree := {
  startup_header_labels : list string;
  startup_items : list QTreeWidgetItem
}.

Definition setup_ui : StartupTree :=
  {| startup_header_labels := ["Name"; "Command"; "Location"; "Type"];
     startup_items := [] |}.

Definition addTopLevelItem (self : StartupTree) (item : QTreeWidgetItem)
  : StartupTree :=
  {| startup_header_labels := startup_header_labels self;
     startup_items := startup_items self ++ [item] |}.

Definition add_startup_item (self : StartupTree)
    (name command location item_type : string) : StartupTree * QTreeWidgetItem :=
  let item := {| columns := [name; command; location; item_type] |} in
  (addTopLevelItem self item, item).

(** the dictionary [get_startup_item] builds, in insertion order *)
Definition get_startup_item (item : QTreeWidgetItem) : list (string * string) :=
  [("name", text item 0);
   ("command", text item 1);
   ("location", text item 2);
   ("type", text item 3)].

Definition clear_startup_items (self : StartupTree) : StartupTree :=
  {| startup_header_labels := startup_header_labels self; startup_items := [] |}.

(** [findItems(name, MatchExactly, 0)] and the first hit *)
Definition find_startup_item (self : StartupTree) (name : string)
  : option QTreeWidgetItem :=
  List.find (fun item => String.eqb (text item 0) name) (startup_items self).

(** a tree with two entries *)
Definition two_entries : StartupTree :=
  fst (add_startup_item
         (fst (add_startup_item setup_ui "OneDrive" "OneDrive.exe /background"
                                "HKCU" "Run"))
         "Updater" "update.exe" "HKLM" "RunOnce").

End StartupTree.

(** ** A manager with one connection, as the main window sees it *)

Module OneHostManager.

Record OneHost := {
  connected : bool;
  host : string
}.

#[export] Instance one_host_api : RemoteManagerAPI OneHost := {
  rm_is_connected m := connected m;
  rm_connection_host m :=
    if connected m then inr (host m)
    else inl (OtherError "'NoneType' object has no attribute 'host'");
  rm_disconnect m := ({| connected := false; host := host m |}, inr tt);
  rm_add_connection m _ _ _ _ := (m, inr true);
  rm_remove_connection m _ := (m, inr true)
}.

(** the connection dialog connects to "srv01" and is accepted *)
Definition dialog_connects (m : OneHost) : OneHost * bool :=
  ({| connected := true; host := "srv01" |}, true).

Definition idle_handler : RemoteHandler.RemoteHandler OneHost :=
  {| RemoteHandler.remote_manager := {| connected := false; host := EmptyString |};
     RemoteHandler.file_transfer_dialog := false |}.

(** a status handler whose [set_status] raises *)
Definition status_line_broken (ev : Event) : option PyExc :=
  match ev with
  | SetStatus _ => Some (OtherError "wrapped C/C++ object has been deleted")
  | _ => None
  end.

End OneHostManager.

(** ** [ProcessesTree] (src/ui/panels/applications/tree_widget.py) *)

Module ProcessesTree.

Import PyStr PyInt PackagesTree.

Section Formats.

(** Python floats and datetimes are not computed with here: the tree only
    divides two integers, formats and parses. *)
Variables float datetime : Type.
(** [a / b] on two integers *)
Variable truediv : Z -> Z -> float.
(** [f"{x:.1f}"] *)
Variable format_1f : float -> string.
(** [t.strftime(fmt)] *)
Variable strftime : datetime -> string -> string.
(** [float(s)] *)
Variable float_of_string : string -> PyExc + float.

(** the widget: its header labels and its top-level items *)
Record ProcessesTree := {
  process_header_labels : list string;
  process_items : list QTreeWidgetItem
}.

Definition setup_ui : ProcessesTree :=
  {| process_header_labels := ["Name"; "PID"; "Status"; "CPU %"; "Memory"; "User";
                               "Started"];
     process_items := [] |}.

Definition addTopLevelItem (self : ProcessesTree) (item : QTreeWidgetItem)
  : ProcessesTree :=
  {| process_header_labels := process_header_labels self;
     process_items := process_items self ++ [item] |}.

(** the memory column *)
Definition mem_str (memory : Z) : string :=
  if (1024 * 1024 * 1024 <? memory)%Z
  then format_1f (truediv memory (1024 * 1024 * 1024)) +:+ " GB"
  else format_1f (truediv memory (1024 * 1024)) +:+ " MB".

Definition add_process (self : ProcessesTree) (name : string) (pid : Z)
    (status : string) (cpu_percent : float) (memory : Z) (username : string)
    (create_time : datetime) : ProcessesTree * QTreeWidgetItem :=
  let mem_str := mem_str memory in
  let time_str := strftime create_time "%Y-%m-%d %H:%M:%S" in
  let item := {| columns := [name; of_Z pid; status; format_1f cpu_percent; mem_str;
                             username; time_str] |} in
  (addTopLevelItem self item, item).

(** the dictionary [get_process] builds *)
Record ProcessDetails := {
  pd_name : string;
  pd_pid : Z;
  pd_status : string;
  pd_cpu_percent : float;
  pd_memory : string;
  pd_username : string;
  pd_started : string
}.

Definition get_process (item : QTreeWidgetItem) : PyExc + ProcessDetails :=
  match py_int (text item 1) with
  | inl e => inl e
  | inr pid =>
      match float_of_string (DiskVolumes.rstrip_char "%" (text item 3)) with
      | inl e => inl e
      | inr cpu_percent =>
          inr {| pd_name := text item 0;
                 pd_pid := pid;
                 pd_status := text item 2;
                 pd_cpu_percent := cpu_percent;
                 pd_memory := text item 4;
                 pd_username := text item 5;
                 pd_started := text item 6 |}
      end
  end.

Definition clear_processes (self : ProcessesTree) : ProcessesTree :=
  {| process_header_labels := process_header_labels self; process_items := [] |}.

(** [findItems(str(pid), MatchExactly, 1)] and the first hit *)
Definition find_process (self : ProcessesTree) (pid : Z) : option QTreeWidgetItem :=
  List.find (fun item => String.eqb (text item 1) (of_Z pid)) (process_items self).

End Formats.

Arguments pd_name {float} _.
Arguments pd_pid {float} _.
Arguments pd_status {float} _.
Arguments pd_cpu_percent {float} _.
Arguments pd_memory {float} _.
Arguments pd_username {float} _.
Arguments pd_started {float} _.

(** *** A sample: floats and times carried as their text *)

Definition text_float_of_string (s : string) : PyExc + string :=
  match s with
  | EmptyString => inl (OtherError "could not convert string to float: ''")
  | _ => inr s
  end.

Definition text_truediv (a b : Z) : string := of_Z (a / b) +:+ ".0".

Definition text_strftime (t fmt : string) : string := t.

End ProcessesTree.

(** ** [VariableOperations]
       (src/ui/panels/environment/components/variable_operations.py) *)

Module VariableOperations.

(** what the operations do to the panel's components, in order *)
Inductive Action :=
| SetSystemVariable (name value : string)     (* manager.set_system_variable *)
| SetUserVariable (name value : string)       (* manager.set_user_variable *)
| DeleteSystemVariable (name : string)        (* manager.delete_system_variable *)
| DeleteUserVariable (name : string)          (* manager.delete_user_variable *)
| GetUserVariables                            (* manager.get_user_variables *)
| GetSystemVariables                          (* manager.get_system_variables *)
| ViewAdd (name value var_type : string)      (* variables_view.add_variable *)
| ViewUpdate (name value var_type : string)   (* variables_view.update_variable *)
| ViewClear                                   (* variables_view.clear_variables *)
| ShowError (msg : string)                    (* dialog_factory.show_error *)
| ShowWarning (title text : string)           (* dialog_factory.show_warning *)
| LogInfo (msg : string)                      (* self.logger.info *)
| LogError (msg : string).                    (* self.logger.error *)

(** a variable as the view and the dialog hand it over: name, value and
    type *)
Definition VariableTuple : Type := string * string * string.

(** the dialog [dialog_factory.create_add_dialog(...)] answers with *)
Record Dialog := {
  (** [dialog.exec()] *)
  exec : PyExc + bool;
  (** [name, value, var_type = dialog.get_variable()]: the three values,
      or what the call or the unpacking raises *)
  get_variable : PyExc + VariableTuple
}.

(** What the panel's components answer; every call into the view, the
    dialogs and the manager may raise.  The calls of [self.logger] are
    taken not to raise. *)
Record Panel := {
  (** [variables_view.get_selected_variable()] *)
  get_selected_variable : PyExc + option VariableTuple;
  (** [dialog_factory.create_add_dialog(...)], given the variable it is
      opened with if any *)
  create_add_dialog : option VariableTuple -> PyExc + Dialog;
  (** [dialog_factory.confirm_delete(var_type, name)] *)
  confirm_delete : string -> string -> PyExc + bool;
  set_system_variable : string -> string -> PyExc + bool;
  set_user_variable : string -> string -> PyExc + bool;
  delete_system_variable : string -> PyExc + bool;
  delete_user_variable : string -> PyExc + bool;
  (** the items of the two dictionaries, in their order *)
  get_user_variables : PyExc + list (string * string);
  get_system_variables : PyExc + list (string * string);
  (** whether a call into the view raises: [Some e] when it raises [e] *)
  view_raises : Action -> option PyExc;
  (** whether [dialog_factory.show_error] or [show_warning] raises *)
  dialog_raises : Action -> option PyExc
}.

(** a computation: the actions performed, then a value or the exception
    raised *)
Definition Op (A : Type) : Type := list Action * (PyExc + A).

Definition ret {A} (a : A) : Op A := ([], inr a).

Definition raise {A} (e : PyExc) : Op A := ([], inl e).

Definition bind {A B} (m : Op A) (k : A -> Op B) : Op B :=
  match m with
  | (t, inl e) => (t, inl e)
  | (t, inr a) => let '(t', r) := k a in (t ++ t', r)
  end.

(** [try: m  except Exception as e: h e] *)
Definition try_except {A} (m : Op A) (h : PyExc -> Op A) : Op A :=
  match m with
  | (t, inl e) => let '(t', r) := h e in (t ++ t', r)
  | (t, inr a) => (t, inr a)
  end.

Definition act (a : Action) : Op unit := ([a], inr tt).

(** a call into the manager: the action, then its answer *)
Definition call {A} (a : Action) (answer : PyExc + A) : Op A :=
  match answer with
  | inl e => ([a], inl e)
  | inr x => ([a], inr x)
  end.

(** a call into the view *)
Definition view_call (self : Panel) (a : Action) : Op unit :=
  match view_raises self a with
  | Some e => ([a], inl e)
  | None => ([a], inr tt)
  end.

(** [dialog_factory.show_error(...)] and [show_warning(...)] *)
Definition dialog_call (self : Panel) (a : Action) : Op unit :=
  match dialog_raises self a with
  | Some e => ([a], inl e)
  | None => ([a], inr tt)
  end.

(** a call that only answers: the selection, the creation of a dialog,
    [exec()], [get_variable()], [confirm_delete(...)] *)
Definition answer {A} (r : PyExc + A) : Op A := ([], r).

Declare Scope op_scope.
Delimit Scope op_scope with op.
Notation "x <- m ;; k" := (bind m (fun x => k))
  (at level 100, m at next level, right associativity) : op_scope.
Notation "m ;;; k" := (bind m (fun _ => k))
  (at level 100, right associativity) : op_scope.
Local Open Scope op_scope.

Definition actions {A} (m : Op A) : list Action := fst m.
Definition result {A} (m : Op A) : PyExc + A := snd m.

Definition add_variable (self : Panel) : Op unit :=
  dialog <- answer (create_add_dialog self None) ;;
  accepted <- answer (exec dialog) ;;
  if accepted : bool then
    variable <- answer (get_variable dialog) ;;
    let '(name, value, var_type) := variable : VariableTuple in
    try_except
      (success <- (if String.eqb var_type "System"
                   then call (SetSystemVariable name value)
                             (set_system_variable self name value)
                   else call (SetUserVariable name value)
                             (set_user_variable self name value)) ;;
       if success : bool then
         view_call self (ViewAdd name value var_type) ;;;
         act (LogInfo ("Added " +:+ var_type +:+ " variable: " +:+ name +:+ "="
                       +:+ value))
       else raise (OtherError "Failed to set variable"))
      (fun e =>
         act (LogError ("Failed to add variable: " +:+ str_exc e)) ;;;
         dialog_call self (ShowError ("Failed to add variable: " +:+ str_exc e)))
  else ret tt.

(** the [try] statement of [edit_variable], once the dialog has answered
    (variable_operations.py:68-93) *)
Definition apply_edit (self : Panel) (name value var_type : string)
    (new_name new_value new_type : string) : Op unit :=
  try_except
    ((if negb (String.eqb name new_name) then
        success <- (if String.eqb var_type "System"
                    then call (DeleteSystemVariable name)
                              (delete_system_variable self name)
                    else call (DeleteUserVariable name)
                              (delete_user_variable self name)) ;;
        if success : bool then ret tt
        else raise (OtherError ("Failed to delete old variable " +:+ name))
      else ret tt) ;;;
     success <- (if String.eqb new_type "System"
                 then call (SetSystemVariable new_name new_value)
                           (set_system_variable self new_name new_value)
                 else call (SetUserVariable new_name new_value)
                           (set_user_variable self new_name new_value)) ;;
     if success : bool then
       view_call self (ViewUpdate new_name new_value new_type) ;;;
       act (LogInfo ("Updated variable: " +:+ name +:+ "=" +:+ value +:+ " -> "
                     +:+ new_name +:+ "=" +:+ new_value))
     else raise (OtherError "Failed to set new variable value"))
    (fun e =>
       act (LogError ("Failed to update variable: " +:+ str_exc e)) ;;;
       dialog_call self (ShowError ("Failed to update variable: " +:+ str_exc e))).

Definition edit_variable (self : Panel) : Op unit :=
  variable <- answer (get_selected_variable self) ;;
  match variable with
  | None =>
      dialog_call self (ShowWarning "No Selection" "Please select a variable to edit.")
  | Some (name, value, var_type) =>
      dialog <- answer (create_add_dialog self (Some (name, value, var_type))) ;;
      accepted <- answer (exec dialog) ;;
      if accepted : bool then
        new <- answer (get_variable dialog) ;;
        let '(new_name, new_value, new_type) := new : VariableTuple in
        apply_edit self name value var_type new_name new_value new_type
      else ret tt
  end.

(** [for name, value in items: self.variables_view.add_variable(name,
    value, var_type)] *)
Fixpoint add_all (self : Panel) (items : list (string * string)) (var_type : string)
  : Op unit :=
  match items with
  | [] => ret tt
  | (name, value) :: items' =>
      view_call self (ViewAdd name value var_type) ;;;
      add_all self items' var_type
  end.

Definition refresh_variables (self : Panel) : Op unit :=
  view_call self ViewClear ;;;
  user <- call GetUserVariables (get_user_variables self) ;;
  add_all self user "User" ;;;
  system <- call GetSystemVariables (get_system_variables self) ;;
  add_all self system "System".

Definition delete_variable (self : Panel) : Op unit :=
  variable <- answer (get_selected_variable self) ;;
  match variable with
  | None =>
      dialog_call self (ShowWarning "No Selection" "Please select a variable to delete.")
  | Some (name, _, var_type) =>
      confirmed <- answer (confirm_delete self var_type name) ;;
      if confirmed : bool then
        try_except
          (success <- (if String.eqb var_type "System"
                       then call (DeleteSystemVariable name)
                                 (delete_system_variable self name)
                       else call (DeleteUserVariable name)
                                 (delete_user_variable self name)) ;;
           if success : bool then
             refresh_variables self ;;;
             act (LogInfo ("Deleted " +:+ var_type +:+ " variable: " +:+ name))
           else raise (OtherError "Failed to delete variable"))
          (fun e =>
             act (LogError ("Failed to delete variable: " +:+ str_exc e)) ;;;
             dialog_call self (ShowError ("Failed to delete variable: " +:+ str_exc e)))
      else ret tt
  end.

(** the calls into the manager that change a variable *)
Definition is_change (a : Action) : bool :=
  match a with
  | SetSystemVariable _ _ | SetUserVariable _ _
  | DeleteSystemVariable _ | DeleteUserVariable _ => true
  | _ => false
  end.

(** the calls into the view *)
Definition is_view (a : Action) : bool :=
  match a with
  | ViewAdd _ _ _ | ViewUpdate _ _ _ | ViewClear => true
  | _ => false
  end.

(** the view calls that list the items of a dictionary under a type *)
Definition view_adds (items : list (string * string)) (var_type : string)
  : list Action :=
  map (fun item => ViewAdd (fst item) (snd item) var_type) items.

(** the manager call that sets, and the one that deletes, a variable of a
    type *)
Definition set_call (var_type name value : string) : Action :=
  if String.eqb var_type "System" then SetSystemVariable name value
  else SetUserVariable name value.

Definition delete_call (var_type name : string) : Action :=
  if String.eqb var_type "System" then DeleteSystemVariable name
  else DeleteUserVariable name.

(** the manager's answers to them *)
Definition set_answer (self : Panel) (var_type name value : string) : PyExc + bool :=
  if String.eqb var_type "System" then set_system_variable self name value
  else set_user_variable self name value.

Definition delete_answer (self : Panel) (var_type name : string) : PyExc + bool :=
  if String.eqb var_type "System" then delete_system_variable self name
  else delete_user_variable self name.

(** *** Sample panels *)

(** a dialog that is accepted with a variable *)
Definition accepted_with (variable : VariableTuple) : Dialog :=
  {| exec := inr true; get_variable := inr variable |}.

(** PATH of the user is selected; the dialog renames it to Path and moves
    it to the system variables; the manager deletes but cannot set, and the
    system variables cannot be read *)
Definition rename_panel : Panel :=
  {| get_selected_variable := inr (Some ("PATH", "C:\bin", "User"));
     create_add_dialog := fun _ => inr (accepted_with ("Path", "C:\bin", "System"));
     confirm_delete := fun _ _ => inr true;
     set_system_variable := fun _ _ => inr false;
     set_user_variable := fun _ _ => inr true;
     delete_system_variable := fun _ => inr true;
     delete_user_variable := fun _ => inr true;
     get_user_variables := inr [("TEMP", "C:\Temp")];
     get_system_variables := inl (OtherError "[WinError 5] Access is denied");
     view_raises := fun _ => None;
     dialog_raises := fun _ => None |}.

(** the dialog keeps the name and moves the variable to the system
    variables *)
Definition retype_panel : Panel :=
  {| get_selected_variable := inr (Some ("PATH", "C:\bin", "User"));
     create_add_dialog := fun _ => inr (accepted_with ("PATH", "C:\bin", "System"));
     confirm_delete := fun _ _ => inr true;
     set_system_variable := fun _ _ => inr true;
     set_user_variable := fun _ _ => inr true;
     delete_system_variable := fun _ => inr true;
     delete_user_variable := fun _ => inr true;
     get_user_variables := inr [("TEMP", "C:\Temp"); ("PATH", "C:\bin")];
     get_system_variables := inr [("PATH", "C:\Windows")];
     view_raises := fun _ => None;
     dialog_raises := fun _ => None |}.

End VariableOperations.

(** * Properties *)

(** ** Facts about the [Py] monad *)

Lemma trace_bind {A B} (m : Py A) (k : A -> Py B) (a : A) :
  outcome m = inr a ->
  trace (bind m k) = trace m ++ trace (k a)
  /\ outcome (bind m k) = outcome (k a).
Proof.
  destruct m as [t [e | a']]; simpl; intros Hm; [discriminate |].
  injection Hm as ->. destruct (k a) as [t' r]. simpl. auto.
Qed.

Lemma subprocess_calls_app (t1 t2 : list Event) :
  subprocess_calls (t1 ++ t2) = subprocess_calls t1 ++ subprocess_calls t2.
Proof.
  induction t1 as [| ev t1 IH]; simpl; [reflexivity |].
  destruct ev; simpl; rewrite ?IH; reflexivity.
Qed.

Lemma in_subprocess_calls (argv : list string) (t : list Event) :
  In (Subprocess argv) t -> In argv (subprocess_calls t).
Proof.
  induction t as [| ev t IH]; simpl; [tauto |].
  intros [-> | Hin]; [simpl; auto |].
  destruct ev; simpl; auto.
Qed.

Lemma in_trace_bind_l {A B} (m : Py A) (k : A -> Py B) (ev : Event) :
  In ev (trace m) -> In ev (trace (bind m k)).
Proof.
  destruct m as [t [e | a]]; simpl; [auto |].
  intros Hin. destruct (k a) as [t' r]. simpl. apply in_or_app. auto.
Qed.

Lemma in_trace_bind_r {A B} (m : Py A) (k : A -> Py B) (a : A) (ev : Event) :
  outcome m = inr a -> In ev (trace (k a)) -> In ev (trace (bind m k)).
Proof.
  intros Hm Hin. destruct (trace_bind m k a Hm) as [-> _].
  apply in_or_app. auto.
Qed.

Lemma in_trace_try_body {A} (m : Py A) (h : PyExc -> option (Py A)) (ev : Event) :
  In ev (trace m) -> In ev (trace (try_except m h)).
Proof.
  destruct m as [t [e | a]]; simpl; [| auto].
  intros Hin. destruct (h e) as [[t' r] |]; simpl; [apply in_or_app |]; auto.
Qed.

Lemma in_trace_try_handler {A} (m : Py A) (h : PyExc -> option (Py A))
    (e : PyExc) (k : Py A) (ev : Event) :
  outcome m = inl e -> h e = Some k -> In ev (trace k) ->
  In ev (trace (try_except m h)).
Proof.
  destruct m as [t [e' | a]]; simpl; intros He Hh Hin; [| discriminate].
  injection He as ->. rewrite Hh. destruct k as [t' r]. simpl in *.
  apply in_or_app. auto.
Qed.

Lemma trace_bind_prefix {A B} (m : Py A) (k : A -> Py B) :
  exists t, trace (bind m k) = trace m ++ t.
Proof.
  destruct m as [t [e | a]]; simpl.
  - exists []. by rewrite app_nil_r.
  - destruct (k a) as [t' r]. by exists t'.
Qed.

(** [try: m  except Exception: pass] always completes. *)
Lemma outcome_swallow (m : Py unit) :
  outcome (try_except m (fun _ => Some (ret tt))) = inr tt.
Proof. destruct m as [t [e | []]]; reflexivity. Qed.

(** A [try] whose handler catches every exception and itself completes
    always completes, and what its body did stays in the trace. *)
Lemma try_except_total {A} (m : Py A) (h : PyExc -> Py A) :
  (forall e, exists a, outcome (h e) = inr a) ->
  exists (a : A) (t : list Event),
    outcome (try_except m (fun e => Some (h e))) = inr a
    /\ trace (try_except m (fun e => Some (h e))) = trace m ++ t.
Proof.
  intros Hh. destruct m as [t [e | a]]; simpl.
  - destruct (Hh e) as [a Ha]. destruct (h e) as [t' r]. simpl in *.
    exists a, t'. auto.
  - exists a, []. rewrite app_nil_r. auto.
Qed.

(** ** [DiskManager] *)

Module DiskManagerFacts.

Import PyStr DiskManager.

Lemma str_in_elem_of (x : string) (l : list string) :
  str_in x l = true <-> x ∈ l.
Proof.
  unfold str_in. rewrite existsb_exists. split.
  - intros (y & Hy & Heq). apply String.eqb_eq in Heq. subst.
    by apply list_elem_of_In.
  - intros Hx. exists x. split; [by apply list_elem_of_In | apply String.eqb_refl].
Qed.

(** The comprehension [[letter for letter in all if letter not in used]]
    keeps exactly the letters that are not in [used], in order. *)
Lemma not_in_comprehension (used l : list string) :
  List.filter (fun letter => negb (str_in letter used)) l
  = filter (fun letter => letter ∉ used) l.
Proof.
  induction l as [| x l IH]; [reflexivity |].
  simpl. rewrite filter_cons. destruct (str_in x used) eqn:Hx; simpl.
  - apply str_in_elem_of in Hx. rewrite decide_False; [exact IH | tauto].
  - rewrite decide_True; [by rewrite IH |].
    intros Hin. apply str_in_elem_of in Hin. congruence.
Qed.

Lemma letters_A_Z_eq :
  letters_A_Z =
  ["A:"; "B:"; "C:"; "D:"; "E:"; "F:"; "G:"; "H:"; "I:"; "J:"; "K:"; "L:"; "M:";
   "N:"; "O:"; "P:"; "Q:"; "R:"; "S:"; "T:"; "U:"; "V:"; "W:"; "X:"; "Y:"; "Z:"].
Proof. reflexivity. Qed.

Lemma get_drive_letters_info_ok (env : Env) (ps : list Partition) :
  disk_partitions env = inr ps ->
  get_drive_letters_info env
  = ([], inr {| all_letters := letters_A_Z;
                used_letters := collect_used ps [];
                available_letters :=
                  List.filter (fun letter => negb (str_in letter (collect_used ps [])))
                              letters_A_Z |}).
Proof. intros Hps. unfold get_drive_letters_info. rewrite Hps. reflexivity. Qed.

Lemma get_drive_letters_info_fallback (env : Env) (e : PyExc) :
  disk_partitions env = inl e ->
  get_drive_letters_info env
  = ([Log ERROR ("Error getting drive letters info: " +:+ str_exc e)],
     inr {| all_letters := letters_A_Z;
            used_letters := [];
            available_letters := letters_A_Z |}).
Proof. intros Hps. unfold get_drive_letters_info. rewrite Hps. reflexivity. Qed.

(** C8.  [get_drive_letters_info] always returns (it never raises), the
    [all_letters] field of what it returns is exactly the 26 strings "A:"
    to "Z:" in that order, and [available_letters] is exactly the members
    of [all_letters] that are not in [used_letters], in the order of
    [all_letters].  When reading the partitions raises, [used_letters] is
    empty and [available_letters] equals [all_letters]; otherwise
    [used_letters] holds the first two characters of every partition device
    of length two or more, in partition order. *)
Theorem get_drive_letters_info_letters (env : Env) :
  exists info,
    outcome (get_drive_letters_info env) = inr info
    /\ all_letters info =
       ["A:"; "B:"; "C:"; "D:"; "E:"; "F:"; "G:"; "H:"; "I:"; "J:"; "K:"; "L:";
        "M:"; "N:"; "O:"; "P:"; "Q:"; "R:"; "S:"; "T:"; "U:"; "V:"; "W:"; "X:";
        "Y:"; "Z:"]
    /\ available_letters info
       = filter (fun letter => letter ∉ used_letters info) (all_letters info)
    /\ (forall e, disk_partitions env = inl e ->
                  used_letters info = []
                  /\ available_letters info = all_letters info)
    /\ (forall ps, disk_partitions env = inr ps ->
                   used_letters info = collect_used ps []).
Proof.
  destruct (disk_partitions env) as [e | ps] eqn:Hps.
  - rewrite (get_drive_letters_info_fallback env e Hps).
    eexists. split; [reflexivity |].
    cbn [all_letters used_letters available_letters].
    split; [apply letters_A_Z_eq |].
    split; [| split; [auto | intros ps' Hps'; discriminate]].
    rewrite <- not_in_comprehension. reflexivity.
  - rewrite (get_drive_letters_info_ok env ps Hps).
    eexists. split; [reflexivity |].
    cbn [all_letters used_letters available_letters].
    split; [apply letters_A_Z_eq |].
    split; [apply not_in_comprehension |].
    split; [intros e He; discriminate |].
    intros ps' Hps'. by injection Hps' as ->.
Qed.

(** The statement of C8 at a machine with drives C: and D:, and at one
    where reading the partitions fails. *)
Lemma get_drive_letters_info_letters_witness :
  (exists info,
     outcome (get_drive_letters_info (sample_env (inr sample_partitions))) = inr info
     /\ used_letters info = ["C:"; "D:"]
     /\ available_letters info
        = filter (fun letter => letter ∉ ["C:"; "D:"]) (all_letters info))
  /\ (exists info,
        outcome (get_drive_letters_info (sample_env (inl (OtherError "denied"))))
        = inr info
        /\ used_letters info = []
        /\ available_letters info = all_letters info).
Proof.
  split.
  - destruct (get_drive_letters_info_letters (sample_env (inr sample_partitions)))
      as (info & Hout & _ & Hav & _ & Hused).
    exists info. specialize (Hused sample_partitions eq_refl).
    split; [exact Hout |]. split; [exact Hused |].
    rewrite Hav, Hused. reflexivity.
  - destruct (get_drive_letters_info_letters
                (sample_env (inl (OtherError "denied"))))
      as (info & Hout & _ & _ & Hexc & _).
    exists info. destruct (Hexc _ eq_refl) as [Hu Ha]. auto.
Defined.

Lemma trace_subprocess_run (env : Env) (argv : list string) :
  trace (subprocess_run env argv) = [Subprocess argv].
Proof. unfold subprocess_run. destruct (run env argv); reflexivity. Qed.

Lemma disconnect_unmapped_run (env : Env) (drive_letter : string)
    (check_process : CompletedProcess) :
  drive_letter <> "" ->
  run env net_use_list = inr check_process ->
  contains (upper (normalize_drive_letter drive_letter))
           (upper (stdout check_process)) = false ->
  disconnect_network_drive env drive_letter
  = ([Subprocess net_use_list;
      Log WARNING ("Drive " +:+ normalize_drive_letter drive_letter
                   +:+ " is not mapped as a network drive")],
     inr {| success := true;
            error := None;
            warning := Some ("Drive " +:+ normalize_drive_letter drive_letter
                             +:+ " is not mapped as a network drive") |}).
Proof.
  intros Hne Hrun Hc. unfold disconnect_network_drive.
  destruct drive_letter as [| c dl]; [congruence |].
  cbn [truthy negb].
  remember (normalize_drive_letter (String c dl)) as n eqn:Hn.
  unfold subprocess_run. rewrite Hrun.
  cbn [bind emit_event ret app].
  rewrite Hc. reflexivity.
Qed.

(** With a drive letter given, the first thing [disconnect_network_drive]
    does is to list the mapped drives. *)
Lemma disconnect_lists_first (env : Env) (c : ascii) (dl : string) :
  exists (r : OpResult) (t : list Event),
    outcome (disconnect_network_drive env (String c dl)) = inr r
    /\ trace (disconnect_network_drive env (String c dl))
       = Subprocess net_use_list :: t.
Proof.
  unfold disconnect_network_drive. cbn [truthy negb].
  remember (normalize_drive_letter (String c dl)) as n eqn:Hn.
  match goal with
  | |- context [try_except ?m (fun e => Some (@?h e))] =>
      destruct (try_except_total m h) as (r & t & Hr & Ht);
      [ intros e; eexists; reflexivity | ]
  end.
  exists r. rewrite Hr, Ht.
  match goal with
  | |- context [trace (bind (subprocess_run env net_use_list) ?k)] =>
      destruct (trace_bind_prefix (subprocess_run env net_use_list) k) as [t' ->]
  end.
  rewrite trace_subprocess_run. exists (t' ++ t). split; reflexivity.
Qed.

(** C9, amended.  For every non-empty drive letter whose normalised form
    (stripped of blanks, a colon added to a single character, one trailing
    backslash removed) does not occur, compared in upper case, as a
    substring of what [net use] prints, [disconnect_network_drive] returns
    success true with the warning that the drive is not mapped, having run
    the listing command
    and no other (no delete command); and the call returns success false
    without having run any command exactly when the drive-letter argument
    is empty. *)
Theorem disconnect_network_drive_unmapped :
  (forall (env : Env) (drive_letter : string) (check_process : CompletedProcess),
     drive_letter <> "" ->
     run env net_use_list = inr check_process ->
     contains (upper (normalize_drive_letter drive_letter))
              (upper (stdout check_process)) = false ->
     outcome (disconnect_network_drive env drive_letter)
     = inr {| success := true;
              error := None;
              warning := Some ("Drive " +:+ normalize_drive_letter drive_letter
                               +:+ " is not mapped as a network drive") |}
     /\ subprocess_calls (trace (disconnect_network_drive env drive_letter))
        = [net_use_list]
     /\ forall d, ~ In (net_use_delete d)
                       (subprocess_calls
                          (trace (disconnect_network_drive env drive_letter))))
  /\ (forall (env : Env) (drive_letter : string),
        exists r,
          outcome (disconnect_network_drive env drive_letter) = inr r
          /\ (success r = false
              /\ subprocess_calls (trace (disconnect_network_drive env drive_letter))
                 = []
              <-> drive_letter = "")).
Proof.
  split.
  - intros env drive_letter check_process Hne Hrun Hc.
    rewrite (disconnect_unmapped_run env drive_letter check_process Hne Hrun Hc).
    cbn [outcome trace fst snd subprocess_calls].
    split; [reflexivity |]. split; [reflexivity |].
    intros d [Heq | []]. discriminate.
  - intros env [| c dl].
    + eexists. split; [reflexivity |]. split; [reflexivity | auto].
    + destruct (disconnect_lists_first env c dl) as (r & t & Hr & Ht).
      exists r. split; [exact Hr |]. rewrite Ht. cbn [subprocess_calls].
      split; [intros [_ Hnil]; discriminate | discriminate].
Qed.

(** C9 at the drive letter "y:\" on a machine where only Z: is mapped. *)
Lemma disconnect_network_drive_unmapped_witness :
  outcome (disconnect_network_drive listing_env "y:\")
  = inr {| success := true;
           error := None;
           warning := Some "Drive y: is not mapped as a network drive" |}
  /\ subprocess_calls (trace (disconnect_network_drive listing_env "y:\"))
     = [["net"; "use"]].
Proof.
  destruct (proj1 disconnect_network_drive_unmapped listing_env "y:\" listing)
    as (Hout & Hcalls & _).
  - discriminate.
  - reflexivity.
  - reflexivity.
  - split; [exact Hout | exact Hcalls].
Defined.

(** C9, as stated, fails: a TAB is a non-empty argument that occurs
    nowhere in the listing, here the listing of a machine with no mapped
    drive at all.  It passes the first test, normalises to the empty
    string, which is a substring of every listing, and the delete command
    is run with an empty drive letter; its failure is returned as success
    false. *)
Lemma blank_drive_letter_is_deleted :
  tab <> ""
  /\ run no_route_env net_use_list
     = inr {| returncode := 2; stdout := ""; stderr := "System error 53 has occurred." |}
  /\ contains (upper tab) (upper "") = false
  /\ normalize_drive_letter tab = ""
  /\ outcome (disconnect_network_drive no_route_env tab)
     = inr {| success := false;
              error := Some "System error 53 has occurred.";
              warning := None |}
  /\ subprocess_calls (trace (disconnect_network_drive no_route_env tab))
     = [["net"; "use"]; ["net"; "use"; ""; "/delete"; "/y"]].
Proof. repeat split; try reflexivity. discriminate. Qed.

Lemma fallback_command_in_trace (env : Env)
    (network_path drive_letter username password : string) (reconnect : bool)
    (code : Z) (msg : string) :
  let letter := if (String.length drive_letter =? 1)%nat then drive_letter +:+ ":"
                else drive_letter in
  import_win32 env = None ->
  WNetAddConnection2 env letter network_path password username
    (if negb reconnect then 0%Z else CONNECT_UPDATE_PROFILE)
  = Some (PyWinError code msg) ->
  code <> 1219%Z ->
  In (Subprocess (net_use_map_user letter network_path username password reconnect))
     (trace (map_network_drive env network_path drive_letter false username password
                               reconnect)).
Proof.
  intros letter Himp Hwnet Hcode.
  unfold map_network_drive. fold letter.
  apply in_trace_try_body.
  eapply in_trace_bind_r; [apply outcome_swallow |].
  apply in_trace_bind_l.
  cbn match.
  unfold map_with_custom_creds.
  eapply in_trace_bind_r; [reflexivity |].
  apply in_trace_try_body.
  rewrite Himp.
  eapply in_trace_bind_r; [reflexivity |].
  eapply in_trace_try_handler.
  - rewrite Hwnet. reflexivity.
  - reflexivity.
  - unfold on_win32_error.
    eapply in_trace_bind_r; [reflexivity |].
    apply Z.eqb_neq in Hcode. rewrite Hcode.
    eapply in_trace_bind_r; [reflexivity |].
    apply in_trace_bind_l. unfold subprocess_run.
    apply in_trace_bind_l. simpl. auto.
Qed.

(** C6.  Whatever the password, there is an input of [map_network_drive]
    with custom credentials ([use_windows_creds] false) on which the
    cleartext password is one of the arguments of a command handed to
    [subprocess.run]: when the win32 call fails with an error other than
    1219, the fallback runs
    [net use <drive> <path> /user:<username> <password> /persistent:...]. *)
Theorem map_network_drive_password_in_argv :
  forall password : string,
  exists (env : Env) (network_path drive_letter username : string)
         (reconnect : bool) (argv : list string),
    In argv (subprocess_calls
               (trace (map_network_drive env network_path drive_letter false
                                         username password reconnect)))
    /\ argv = net_use_map_user drive_letter network_path username password reconnect
    /\ nth_error argv 5 = Some password.
Proof.
  intros password.
  exists no_route_env, "\\fileserver\share", "Z:", "alice", true.
  eexists. split; [| split; reflexivity].
  apply in_subprocess_calls.
  apply (fallback_command_in_trace no_route_env "\\fileserver\share" "Z:" "alice"
           password true 53 "The network path was not found.");
    [reflexivity | reflexivity | discriminate].
Qed.

End DiskManagerFacts.

(** ** [PackagesTree] *)

Module PackagesTreeFacts.

Import PackagesTree.

(** C10.  [get_program] on the item [add_program] returns yields the
    dictionary whose six fields are exactly the six strings passed to
    [add_program], unchanged; the item is the one the tree now holds
    last. *)
Theorem add_program_get_program (self : PackagesTree)
    (name version publisher install_date install_location registry_key : string) :
  let item := snd (add_program self name version publisher install_date
                               install_location registry_key) in
  get_program item
  = [("name", name); ("version", version); ("publisher", publisher);
     ("install_date", install_date); ("install_location", install_location);
     ("registry_key", registry_key)]
  /\ dict_get (get_program item) "name" = Some name
  /\ dict_get (get_program item) "version" = Some version
  /\ dict_get (get_program item) "publisher" = Some publisher
  /\ dict_get (get_program item) "install_date" = Some install_date
  /\ dict_get (get_program item) "install_location" = Some install_location
  /\ dict_get (get_program item) "registry_key" = Some registry_key
  /\ top_level_items (fst (add_program self name version publisher install_date
                                       install_location registry_key))
     = top_level_items self ++ [item].
Proof. cbv zeta. repeat split. Qed.

End PackagesTreeFacts.

(** ** [RemoteHandler] *)

Module RemoteHandlerFacts.

Import RemoteHandler.

Section Disconnect.

Context {M : Type} `{RemoteManagerAPI M}.

Variable ui_raises : Event -> option PyExc.

(** [disconnect], path by path *)
Lemma disconnect_cases (self : RemoteHandler M) :
  disconnect ui_raises self
  = match snd (rm_disconnect (remote_manager self)) with
    | inl e => caught ui_raises self [] e
    | inr _ =>
        match ui_raises (SetConnectionStatus false None) with
        | Some e => caught ui_raises self [SetConnectionStatus false None] e
        | None =>
            match ui_raises (SetStatus "Disconnected") with
            | Some e =>
                caught ui_raises self [SetConnectionStatus false None; SetStatus "Disconnected"] e
            | None =>
                match ui_raises (UpdateRemoteState false) with
                | Some e =>
                    caught ui_raises self [SetConnectionStatus false None;
                                 SetStatus "Disconnected"; UpdateRemoteState false] e
                | None =>
                    ([SetConnectionStatus false None; SetStatus "Disconnected";
                      UpdateRemoteState false],
                     inr (with_manager self (fst (rm_disconnect (remote_manager self)))))
                end
            end
        end
    end.
Proof.
  unfold disconnect, disable_remote_features, ui_call, lift, caught, reported,
    warning_box.
  destruct (rm_disconnect (remote_manager self)) as [m [e | []]]; cbn [fst snd].
  { cbn [bind raise try_except log emit_event app].
    by destruct (ui_raises (MessageBoxWarning _ _)). }
  destruct (ui_raises (SetConnectionStatus false None)) as [e |].
  { cbn [bind ret raise try_except log emit_event app].
    by destruct (ui_raises (MessageBoxWarning _ _)). }
  destruct (ui_raises (SetStatus "Disconnected")) as [e |].
  { cbn [bind ret raise try_except log emit_event app].
    by destruct (ui_raises (MessageBoxWarning _ _)). }
  destruct (ui_raises (UpdateRemoteState false)) as [e |]; [| reflexivity].
  cbn [bind ret raise try_except log emit_event app].
  by destruct (ui_raises (MessageBoxWarning _ _)).
Qed.

(** C4, amended.  An exception raised by [remote_manager.disconnect()],
    or by one of the status updates that follow it, never leaves
    [disconnect]: it is caught, logged as an error and reported in a
    warning box.  [disconnect] returns to its caller whenever that warning
    box can be shown; what can leave it is only an exception of the
    warning box itself, raised after the error was logged.  Without an
    exception the status is set to disconnected and the remote features
    are disabled. *)
Theorem disconnect_never_propagates (self : RemoteHandler M) :
  let m := fst (rm_disconnect (remote_manager self)) in
  let call := disconnect ui_raises self in
  ((forall title text, ui_raises (MessageBoxWarning title text) = None) ->
   outcome call = inr (with_manager self m))
  /\ (forall e, snd (rm_disconnect (remote_manager self)) = inl e ->
                trace call = reported e)
  /\ (call = ([SetConnectionStatus false None; SetStatus "Disconnected";
               UpdateRemoteState false], inr (with_manager self m))
      \/ exists e t,
           trace call = t ++ reported e
           /\ outcome call = match ui_raises (warning_box e) with
                             | Some e' => inl e'
                             | None => inr (with_manager self m)
                             end)
  /\ (forall e', outcome call = inl e' ->
                 exists e, In (Log ERROR ("Error during disconnect: " +:+ str_exc e))
                              (trace call)
                           /\ ui_raises (warning_box e) = Some e').
Proof.
  cbv zeta.
  assert (Hshape :
            disconnect ui_raises self
            = ([SetConnectionStatus false None; SetStatus "Disconnected";
                UpdateRemoteState false],
               inr (with_manager self (fst (rm_disconnect (remote_manager self)))))
            /\ (exists u, snd (rm_disconnect (remote_manager self)) = inr u)
            \/ exists e t,
                 disconnect ui_raises self = caught ui_raises self t e
                 /\ (snd (rm_disconnect (remote_manager self)) = inl e -> t = [])
                 /\ (forall e0, snd (rm_disconnect (remote_manager self)) = inl e0 ->
                                e0 = e)).
  { rewrite disconnect_cases.
    destruct (snd (rm_disconnect (remote_manager self))) as [e | u].
    { right. exists e, []. split; [reflexivity |]. split; [reflexivity |].
      by intros e0 [= ->]. }
    destruct (ui_raises (SetConnectionStatus false None)) as [e |];
      [right; eexists e, _; split; [reflexivity | split; discriminate] |].
    destruct (ui_raises (SetStatus "Disconnected")) as [e |];
      [right; eexists e, _; split; [reflexivity | split; discriminate] |].
    destruct (ui_raises (UpdateRemoteState false)) as [e |];
      [right; eexists e, _; split; [reflexivity | split; discriminate] |].
    left. split; [reflexivity | by exists u]. }
  destruct Hshape as [[-> [u Hu]] | (e & t & -> & Hnil & Hsame)]; unfold caught;
    cbn [outcome trace fst snd].
  - split; [reflexivity |].
    split; [intros e He; congruence |].
    split; [by left |]. discriminate.
  - split.
    { intros Hbox. unfold warning_box. by rewrite Hbox. }
    split.
    { intros e0 He0. pose proof (Hsame e0 He0) as ->. by rewrite (Hnil He0). }
    split; [right; by exists e, t |].
    intros e' He'. exists e. split.
    + apply in_or_app. right. by left.
    + destruct (ui_raises (warning_box e)); congruence.
Qed.

End Disconnect.

Import LostSession.

(** C4 at a manager whose [disconnect()] raises, with the main window
    there: the error is logged and shown, and the call returns. *)
Lemma disconnect_never_propagates_witness :
  disconnect window_there lost_handler
  = ([Log ERROR "Error during disconnect: Socket is closed";
      MessageBoxWarning "Disconnect Error" "Error during disconnect: Socket is closed"],
     inr lost_handler).
Proof.
  pose proof (disconnect_never_propagates window_there lost_handler) as (Hret & Hlog & _).
  specialize (Hret (fun _ _ => eq_refl)). specialize (Hlog _ eq_refl).
  destruct (disconnect window_there lost_handler) as [t r].
  cbn [outcome trace fst snd] in Hret, Hlog. by rewrite Hret, Hlog.
Defined.

(** C4, as stated, fails: when the manager's [disconnect()] raises and the
    main window has been deleted, the warning box of the [except] clause
    raises in its turn, and that exception leaves [disconnect]. *)
Lemma disconnect_propagates_without_window :
  disconnect window_gone lost_handler
  = ([Log ERROR "Error during disconnect: Socket is closed";
      MessageBoxWarning "Disconnect Error" "Error during disconnect: Socket is closed"],
     inl (OtherError "wrapped C/C++ object of type MainWindow has been deleted")).
Proof. reflexivity. Qed.

End RemoteHandlerFacts.

(** ** [RemoteManager]: the registry invariant *)

Module RemoteManagerFacts.

Import RemoteManager.

Lemma find_session_Some (n : string) (ss : list RemoteSession) (s : RemoteSession) :
  find_session n ss = Some s -> In s ss /\ session_name s = n.
Proof.
  intros Hf. apply List.find_some in Hf as [Hin Hn].
  split; [exact Hin | by apply String.eqb_eq].
Qed.

Lemma find_session_None (n : string) (ss : list RemoteSession) :
  find_session n ss = None <-> ~ In n (map session_name ss).
Proof.
  unfold find_session. induction ss as [| x ss IH]; simpl; [tauto |].
  unfold named at 1. destruct (String.eqb_spec (session_name x) n) as [-> | Hne].
  - split; [discriminate | intros Hn; exfalso; auto].
  - rewrite IH. tauto.
Qed.

Lemma find_session_app (n : string) (ss ss' : list RemoteSession) :
  find_session n (ss ++ ss')
  = match find_session n ss with
    | Some s => Some s
    | None => find_session n ss'
    end.
Proof.
  unfold find_session. induction ss as [| x ss IH]; simpl; [reflexivity |].
  destruct (named n x); [reflexivity | exact IH].
Qed.

Lemma names_remove_session (n : string) (ss : list RemoteSession) :
  map session_name (remove_session n ss)
  = List.filter (fun x => negb (String.eqb x n)) (map session_name ss).
Proof.
  unfold remove_session, named. induction ss as [| x ss IH]; simpl; [reflexivity |].
  destruct (String.eqb (session_name x) n); simpl; by rewrite IH.
Qed.

Lemma remove_session_not_in (n : string) (ss : list RemoteSession) :
  ~ In n (map session_name (remove_session n ss)).
Proof.
  rewrite names_remove_session. intros Hin. apply filter_In in Hin as [_ Hn].
  by rewrite String.eqb_refl in Hn.
Qed.

Lemma remove_session_id (n : string) (ss : list RemoteSession) :
  ~ In n (map session_name ss) -> remove_session n ss = ss.
Proof.
  unfold remove_session, named. induction ss as [| x ss IH]; simpl; [reflexivity |].
  intros Hn. destruct (String.eqb_spec (session_name x) n) as [Heq | Hne]; simpl.
  - exfalso. auto.
  - rewrite IH; [reflexivity | tauto].
Qed.

Lemma remove_session_In (n : string) (ss : list RemoteSession) (s : RemoteSession) :
  In s (remove_session n ss) <-> In s ss /\ session_name s <> n.
Proof.
  unfold remove_session, named. rewrite filter_In.
  destruct (String.eqb_spec (session_name s) n); simpl; intuition congruence.
Qed.

Lemma wf_remove_session (n : string) (ss : list RemoteSession) :
  NoDup (map session_name ss) -> NoDup (map session_name (remove_session n ss)).
Proof.
  intros Hnd. rewrite names_remove_session.
  apply NoDup_ListNoDup, List.NoDup_filter. by apply NoDup_ListNoDup.
Qed.

Lemma NoDup_snoc_In {A} (l : list A) (x : A) :
  NoDup l -> ~ In x l -> NoDup (l ++ [x]).
Proof.
  intros Hl Hx. apply NoDup_app. split; [exact Hl |].
  split; [| apply NoDup_singleton].
  intros y Hy Hyx. apply list_elem_of_singleton in Hyx. subst.
  by apply list_elem_of_In in Hy.
Qed.

Lemma release_head (h : nat) (held : list nat) : release h (h :: held) = held.
Proof. simpl. by rewrite Nat.eqb_refl. Qed.

(** *** What one attempt leaves behind *)

Lemma session_connect_err (t : Transport) (pw : option string)
    (r : ConnectionRecord) (held : list nat) (e : ConnectError) :
  fst (session_connect t pw r held) = inl e ->
  snd (session_connect t pw r held) = held.
Proof.
  unfold session_connect. destruct (open_channel t r) as [h |]; [| reflexivity].
  destruct (authenticate t r pw h); simpl; [| by rewrite Nat.eqb_refl].
  destruct (probe t h); simpl; [discriminate | by rewrite Nat.eqb_refl].
Qed.

Lemma session_connect_ok (t : Transport) (pw : option string)
    (r : ConnectionRecord) (held : list nat) (s : RemoteSession) :
  fst (session_connect t pw r held) = inr s ->
  record s = r /\ state s = connected
  /\ snd (session_connect t pw r held) = transport_handle s :: held.
Proof.
  unfold session_connect. destruct (open_channel t r) as [h |]; [| discriminate].
  destruct (authenticate t r pw h); simpl; [| discriminate].
  destruct (probe t h); simpl; [| discriminate].
  intros Hs. injection Hs as <-. auto.
Qed.

Lemma establish_err (t : Transport) (r : ConnectionRecord) (m : Manager)
    (e : ConnectError) :
  fst (establish t r m) = inl e -> snd (establish t r m) = m.
Proof.
  unfold establish.
  pose proof (session_connect_err t (resolve m (credential r)) r (open_handles m))
    as Herr.
  destruct (session_connect t (resolve m (credential r)) r (open_handles m))
    as [[e' | s] held]; simpl in *; [| discriminate].
  intros _. rewrite (Herr e' eq_refl). by destruct m.
Qed.

Lemma establish_ok (t : Transport) (r : ConnectionRecord) (m : Manager)
    (s : RemoteSession) :
  fst (establish t r m) = inr s ->
  record s = r /\ is_alive s = true
  /\ sessions (snd (establish t r m)) = sessions m ++ [s]
  /\ store (snd (establish t r m)) = store m
  /\ secrets (snd (establish t r m)) = secrets m
  /\ open_handles (snd (establish t r m)) = transport_handle s :: open_handles m.
Proof.
  unfold establish.
  pose proof (session_connect_ok t (resolve m (credential r)) r (open_handles m))
    as Hok.
  destruct (session_connect t (resolve m (credential r)) r (open_handles m))
    as [[e' | s'] held]; simpl in *; [discriminate |].
  intros Hs. injection Hs as ->. destruct (Hok s eq_refl) as (Hr & Hst & Hh).
  unfold is_alive. rewrite Hst, Hh. repeat split; auto.
Qed.

Lemma establish_store (t : Transport) (r : ConnectionRecord) (m : Manager) :
  store (snd (establish t r m)) = store m
  /\ secrets (snd (establish t r m)) = secrets m.
Proof.
  unfold establish.
  destruct (session_connect t (resolve m (credential r)) r (open_handles m))
    as [[e | s] held]; auto.
Qed.

(** *** The invariant is kept by every operation *)

Lemma wf_teardown (s : RemoteSession) (m : Manager) : wf m -> wf (teardown s m).
Proof. unfold wf. simpl. apply wf_remove_session. Qed.

Lemma wf_establish (t : Transport) (r : ConnectionRecord) (m : Manager) :
  wf m -> ~ In (name r) (map session_name (sessions m)) ->
  wf (snd (establish t r m)).
Proof.
  intros Hwf Hfresh.
  destruct (fst (establish t r m)) as [e | s] eqn:Hres.
  - by rewrite (establish_err t r m e Hres).
  - destruct (establish_ok t r m s Hres) as (Hr & _ & Hss & _).
    unfold wf. rewrite Hss, map_app. simpl.
    apply NoDup_snoc_In; [exact Hwf |].
    unfold session_name at 1. by rewrite Hr.
Qed.

Lemma wf_connect (t : Transport) (r : ConnectionRecord) (m : Manager) :
  wf m -> wf (snd (connect t r m)).
Proof.
  intros Hwf. unfold connect.
  destruct (find_session (name r) (sessions m)) as [s |] eqn:Hf.
  - destruct (is_alive s); [exact Hwf |].
    apply find_session_Some in Hf as [_ Hn].
    apply wf_establish; [by apply wf_teardown |].
    simpl. rewrite Hn. apply remove_session_not_in.
  - apply wf_establish; [exact Hwf | by apply find_session_None].
Qed.

Lemma wf_disconnect (n : string) (m : Manager) : wf m -> wf (snd (disconnect n m)).
Proof.
  intros Hwf. unfold disconnect.
  destruct (find_session n (sessions m)); [by apply wf_teardown | exact Hwf].
Qed.

Lemma wf_teardown_all (l : list RemoteSession) (m : Manager) :
  wf m -> wf (fold_left (fun m s => teardown s m) l m).
Proof.
  revert m. induction l as [| s l IH]; intros m Hwf; simpl; [exact Hwf |].
  apply IH. by apply wf_teardown.
Qed.

Lemma wf_transport_failed (n : string) (e : ConnectError) (m : Manager) :
  wf m -> wf (transport_failed n e m).
Proof.
  intros Hwf. unfold transport_failed.
  destruct (find_session n (sessions m)); [by apply wf_teardown | exact Hwf].
Qed.

Lemma wf_step (m : Manager) (o : Op) : wf m -> wf (step m o).
Proof.
  intros Hwf. destruct o as [t r | n | | n e | n host user pw | n]; simpl.
  - by apply wf_connect.
  - by apply wf_disconnect.
  - by apply wf_teardown_all.
  - by apply wf_transport_failed.
  - unfold add_connection. by destruct (has_record n m).
  - unfold remove_connection. destruct (has_record n m); [| exact Hwf].
    apply (wf_disconnect n m Hwf).
Qed.

Lemma wf_fold (ops : list Op) (m : Manager) : wf m -> wf (fold_left step ops m).
Proof.
  revert m. induction ops as [| o ops IH]; intros m Hwf; simpl; [exact Hwf |].
  apply IH. by apply wf_step.
Qed.

Lemma reachable_wf (m : Manager) : reachable m -> wf m.
Proof. intros [ops ->]. apply wf_fold. apply NoDup_nil_2. Qed.

Lemma reachable_step (m : Manager) (o : Op) : reachable m -> reachable (step m o).
Proof.
  intros [ops ->]. exists (ops ++ [o]). unfold run. by rewrite fold_left_app.
Qed.

Lemma no_session_no_live (n : string) (ss : list RemoteSession) :
  ~ In n (map session_name ss) ->
  List.filter (fun s => named n s && is_alive s) ss = [].
Proof.
  induction ss as [| y ss IH]; simpl; [reflexivity |].
  intros Hn. unfold named at 1.
  destruct (String.eqb_spec (session_name y) n) as [Hyn | Hyn]; [tauto |].
  simpl. apply IH. tauto.
Qed.

(** under the invariant a name has at most one session, so at most one
    live one *)
Lemma named_at_most_one (n : string) (ss : list RemoteSession) :
  NoDup (map session_name ss) ->
  length (List.filter (fun s => named n s && is_alive s) ss) <= 1.
Proof.
  induction ss as [| x ss IH]; simpl; [lia |].
  intros Hnd. apply NoDup_cons in Hnd as [Hx Hnd]. specialize (IH Hnd).
  unfold named at 1. destruct (String.eqb_spec (session_name x) n) as [Hn | Hn];
    [| exact IH].
  rewrite no_session_no_live.
  - destruct (is_alive x); simpl; lia.
  - rewrite <- Hn. by rewrite <- list_elem_of_In.
Qed.

Lemma live_sessions_le_1 (n : string) (m : Manager) :
  wf m -> length (live_sessions n m) <= 1.
Proof. apply named_at_most_one. Qed.

Lemma live_sessions_singleton (n : string) (m : Manager) (s : RemoteSession) :
  wf m -> In s (sessions m) -> session_name s = n -> is_alive s = true ->
  live_sessions n m = [s].
Proof.
  intros Hwf Hin Hn Ha.
  assert (Hs : In s (live_sessions n m)).
  { unfold live_sessions. apply filter_In. split; [exact Hin |].
    unfold named. rewrite Hn, String.eqb_refl. by rewrite Ha. }
  pose proof (live_sessions_le_1 n m Hwf) as Hle.
  destruct (live_sessions n m) as [| a [| b l]]; simpl in *; [tauto | | lia].
  destruct Hs as [-> | []]. reflexivity.
Qed.

(** *** Connecting twice *)

Lemma establish_result (t : Transport) (r : ConnectionRecord) (m : Manager)
    (s : RemoteSession) :
  ~ In (name r) (map session_name (sessions m)) ->
  fst (establish t r m) = inr s ->
  In s (sessions (snd (establish t r m)))
  /\ session_name s = name r
  /\ is_alive s = true
  /\ find_session (name r) (sessions (snd (establish t r m))) = Some s.
Proof.
  intros Hfresh Hres.
  destruct (establish_ok t r m s Hres) as (Hr & Ha & Hss & _).
  assert (Hn : session_name s = name r) by (unfold session_name; by rewrite Hr).
  rewrite Hss. split; [apply in_or_app; simpl; auto |].
  split; [exact Hn |]. split; [exact Ha |].
  rewrite find_session_app.
  apply find_session_None in Hfresh. rewrite Hfresh.
  unfold find_session. simpl. unfold named. by rewrite Hn, String.eqb_refl.
Qed.

(** a successful [connect] answers with the session the registry now holds
    for the record, and that session is live *)
Lemma connect_result (t : Transport) (r : ConnectionRecord) (m : Manager)
    (s : RemoteSession) :
  fst (connect t r m) = inr s ->
  In s (sessions (snd (connect t r m)))
  /\ session_name s = name r
  /\ is_alive s = true
  /\ find_session (name r) (sessions (snd (connect t r m))) = Some s.
Proof.
  unfold connect.
  destruct (find_session (name r) (sessions m)) as [s0 |] eqn:Hf.
  - destruct (is_alive s0) eqn:Ha.
    + simpl. intros Hs. injection Hs as ->.
      destruct (find_session_Some _ _ _ Hf) as [Hin Hn]. auto.
    + apply establish_result. simpl.
      apply find_session_Some in Hf as [_ <-]. apply remove_session_not_in.
  - apply establish_result. by apply find_session_None.
Qed.

(** connecting again while the session is live reuses it and changes
    nothing *)
Lemma connect_reuse (t : Transport) (r : ConnectionRecord) (m : Manager)
    (s : RemoteSession) :
  find_session (name r) (sessions m) = Some s -> is_alive s = true ->
  connect t r m = (inr s, m).
Proof. intros Hf Ha. unfold connect. by rewrite Hf, Ha. Qed.

(** C1.  In every state a manager can be in, calling [connect] twice for
    a record, with no disconnect between the calls, leaves at most one live
    session for every record of the registry; when the second call
    succeeds the registry holds exactly one live session for the record,
    the one the call answered with; and when the first call succeeded the
    second reuses its session and changes nothing (no duplicate). *)
Theorem connect_twice_one_live_session (t1 t2 : Transport) (r : ConnectionRecord)
    (m : Manager) :
  reachable m ->
  let first := connect t1 r m in
  let second := connect t2 r (snd first) in
  (forall n, length (live_sessions n (snd second)) <= 1)
  /\ (forall s, fst second = inr s -> live_sessions (name r) (snd second) = [s])
  /\ (forall s, fst first = inr s -> second = (inr s, snd first)).
Proof.
  intros Hreach first second.
  assert (Hwf1 : wf (snd first)) by (apply wf_connect; by apply reachable_wf).
  assert (Hwf2 : wf (snd second)) by (by apply wf_connect).
  split; [intros n; by apply live_sessions_le_1 |].
  split.
  - intros s Hs. destruct (connect_result t2 r (snd first) s Hs) as (Hin & Hn & Ha & _).
    by apply live_sessions_singleton.
  - intros s Hs. destruct (connect_result t1 r m s Hs) as (_ & _ & Ha & Hf).
    by apply connect_reuse.
Qed.

(** C1 at a fresh manager and the record "A": two successful calls, one
    live session. *)
Lemma connect_twice_one_live_session_witness :
  length (live_sessions "A"
            (snd (connect accepting record_A
                          (snd (connect accepting record_A empty))))) = 1.
Proof.
  destruct (connect_twice_one_live_session accepting accepting record_A empty
              (ex_intro _ [] eq_refl)) as (_ & Hone & _).
  change (name record_A) with "A" in Hone.
  by rewrite (Hone _ eq_refl).
Defined.

(** *** A failed [connect] *)










(** *** Several hosts at once *)

Lemma resolve_secrets (m m' : Manager) (c : Credential) :
  secrets m' = secrets m -> resolve m' c = resolve m c.
Proof. intros Hs. destruct c; simpl; by rewrite ?Hs. Qed.

Lemma establish_accepts (t : Transport) (r : ConnectionRecord) (m : Manager) :
  accepts t m r = true -> exists s, fst (establish t r m) = inr s.
Proof.
  unfold accepts, establish, session_connect.
  destruct (open_channel t r) as [h |]; [| discriminate].
  intros Hacc. apply andb_true_iff in Hacc as [-> ->]. simpl. eauto.
Qed.

Lemma connect_all_sessions (t : Transport) (rs : list ConnectionRecord) (m : Manager) :
  NoDup (map name rs) ->
  (forall r, In r rs -> ~ In (name r) (map session_name (sessions m))) ->
  (forall r, In r rs -> accepts t m r = true) ->
  exists new,
    sessions (connect_all t rs m) = sessions m ++ new /\ sessions_of new rs.
Proof.
  revert m. induction rs as [| r rs IH]; intros m Hnd Hfresh Hacc; simpl.
  - exists []. split; [by rewrite app_nil_r | constructor].
  - apply NoDup_cons in Hnd as [Hr Hnd].
    assert (Hf : find_session (name r) (sessions m) = None).
    { apply find_session_None, Hfresh. simpl. auto. }
    destruct (establish_accepts t r m (Hacc r (or_introl eq_refl))) as [s Hs].
    destruct (establish_ok t r m s Hs) as (Hrec & Ha & Hss & _ & Hsec & _).
    fold (connect_all t rs (snd (connect t r m))).
    replace (connect t r m) with (establish t r m)
      by (unfold connect; by rewrite Hf).
    destruct (IH (snd (establish t r m)) Hnd) as (new & Hnew & Hof).
    + intros r' Hr'. rewrite Hss, map_app, in_app_iff. simpl.
      intros [Hin | [Heq | []]].
      * apply (Hfresh r'); simpl; auto.
      * apply Hr. rewrite list_elem_of_In. apply in_map_iff. exists r'.
        split; [| exact Hr']. unfold session_name in Heq. by rewrite Hrec in Heq.
    + intros r' Hr'. unfold accepts. rewrite (resolve_secrets m _ _ Hsec).
      apply (Hacc r'). simpl. auto.
    + exists (s :: new).
      rewrite Hnew, Hss, <- app_assoc. split; [reflexivity |].
      constructor; auto.
Qed.

Lemma sessions_of_names (new : list RemoteSession) (rs : list ConnectionRecord) :
  sessions_of new rs -> map session_name new = map name rs.
Proof.
  induction 1 as [| s r new rs [Hr _] _ IH]; simpl; [reflexivity |].
  unfold session_name at 1. by rewrite Hr, IH.
Qed.

Lemma sessions_of_all_live (new : list RemoteSession) (rs : list ConnectionRecord) :
  sessions_of new rs ->
  List.filter (fun s => is_alive s && true) new = new.
Proof.
  induction 1 as [| s r new rs [_ Ha] _ IH]; simpl; [reflexivity |].
  by rewrite Ha, IH.
Qed.

Lemma sessions_of_connected (new : list RemoteSession) (rs : list ConnectionRecord)
    (r : ConnectionRecord) :
  sessions_of new rs -> In r rs ->
  existsb (fun s => named (name r) s && is_alive s) new = true.
Proof.
  induction 1 as [| s r0 new rs [Hr Ha] _ IH]; simpl; [tauto |].
  intros [-> | Hin].
  - unfold named, session_name. by rewrite Hr, String.eqb_refl, Ha.
  - rewrite (IH Hin). apply orb_true_r.
Qed.

Lemma existsb_remove_other (n n' : string) (ss : list RemoteSession) :
  n' <> n ->
  existsb (fun s => named n' s && is_alive s) (remove_session n ss)
  = existsb (fun s => named n' s && is_alive s) ss.
Proof.
  intros Hne. unfold remove_session.
  induction ss as [| x ss IH]; simpl; [reflexivity |].
  destruct (named n x) eqn:Hx; simpl; [| by rewrite IH].
  assert (Hx' : named n' x = false).
  { unfold named in *. apply String.eqb_eq in Hx. apply String.eqb_neq. congruence. }
  by rewrite IH, Hx'.
Qed.

Lemma is_connected_disconnect (n : string) (m : Manager) :
  is_connected n (snd (disconnect n m)) = false
  /\ forall n', n' <> n ->
                is_connected n' (snd (disconnect n m)) = is_connected n' m.
Proof.
  unfold disconnect, is_connected.
  destruct (find_session n (sessions m)) as [s |] eqn:Hf; simpl.
  - apply find_session_Some in Hf as [_ ->]. split.
    + apply not_true_is_false. intros Hex.
      apply existsb_exists in Hex as (x & Hx & Hnx).
      apply remove_session_In in Hx as [_ Hne].
      apply andb_true_iff in Hnx as [Hnx _]. by apply String.eqb_eq in Hnx.
    + intros n' Hne. by apply existsb_remove_other.
  - split; [| reflexivity].
    apply find_session_None in Hf. apply not_true_is_false. intros Hex.
    apply existsb_exists in Hex as (x & Hx & Hnx).
    apply andb_true_iff in Hnx as [Hnx _]. apply String.eqb_eq in Hnx.
    apply Hf. apply in_map_iff. eauto.
Qed.

(** C2.  The manager holds zero or more open sessions at the same time,
    one per connected host: connecting the records of any list of distinct
    names, on a transport that accepts them, to a fresh manager leaves
    every one of them connected at once, the connected sessions being
    exactly one per record, in the order they were connected (none for the
    empty list); and [disconnect] of one name leaves that name not
    connected and every other name as it was. *)
Theorem manager_holds_many_sessions (t : Transport) (rs : list ConnectionRecord) :
  NoDup (map name rs) ->
  (forall r, In r rs -> accepts t empty r = true) ->
  let m := connect_all t rs empty in
  map session_name (get_connected_sessions (fun _ => true) m) = map name rs
  /\ length (get_connected_sessions (fun _ => true) m) = length rs
  /\ (forall r, In r rs -> is_connected (name r) m = true)
  /\ (forall n,
        is_connected n (snd (disconnect n m)) = false
        /\ forall n', n' <> n ->
                      is_connected n' (snd (disconnect n m)) = is_connected n' m).
Proof.
  intros Hnd Hacc m.
  destruct (connect_all_sessions t rs empty Hnd) as (new & Hnew & Hof);
    [intros r _ [] | exact Hacc |].
  simpl in Hnew. fold m in Hnew.
  assert (Hall : get_connected_sessions (fun _ => true) m = new).
  { unfold get_connected_sessions. rewrite Hnew.
    by apply (sessions_of_all_live new rs). }
  rewrite Hall. split; [by apply sessions_of_names |].
  split; [rewrite <- (length_map session_name), <- (length_map name rs);
          f_equal; by apply sessions_of_names |].
  split; [| intros n; apply is_connected_disconnect].
  intros r Hr. unfold is_connected. rewrite Hnew.
  by apply (sessions_of_connected new rs).
Qed.

(** C2 at the hosts "A" and "B": both are connected at the same time, and
    disconnecting "A" leaves "B" connected. *)
Lemma manager_holds_many_sessions_witness :
  let m := connect_all accepting [record_A; record_B] empty in
  map session_name (get_connected_sessions (fun _ => true) m) = ["A"; "B"]
  /\ is_connected "A" m = true
  /\ is_connected "B" m = true
  /\ is_connected "B" (snd (disconnect "A" m)) = true.
Proof.
  cbv zeta.
  destruct (manager_holds_many_sessions accepting [record_A; record_B])
    as (Hnames & _ & Hconn & Hdis).
  - apply NoDup_ListNoDup. repeat constructor; simpl; intuition discriminate.
  - intros r _. reflexivity.
  - split; [exact Hnames |].
    split; [apply (Hconn record_A); simpl; auto |].
    split; [apply (Hconn record_B); simpl; auto |].
    destruct (Hdis "A") as [_ Hother].
    rewrite (Hother "B"); [apply (Hconn record_B); simpl; auto | discriminate].
Defined.

End RemoteManagerFacts.

(** ** The persisted connection store *)

Module ConnectionStoreFacts.

Import RemoteManager RemoteManagerFacts.

Lemma connect_store (t : Transport) (r : ConnectionRecord) (m : Manager) :
  store (snd (connect t r m)) = store m.
Proof.
  unfold connect. destruct (find_session (name r) (sessions m)) as [s |].
  - destruct (is_alive s); [reflexivity |].
    by destruct (establish_store t r (teardown s m)) as [-> _].
  - apply establish_store.
Qed.

Lemma teardown_all_store (l : list RemoteSession) (m : Manager) :
  store (fold_left (fun m s => teardown s m) l m) = store m.
Proof.
  revert m. induction l as [| s l IH]; intros m; simpl; [reflexivity |].
  by rewrite IH.
Qed.

Lemma disconnect_store (n : string) (m : Manager) :
  store (snd (disconnect n m)) = store m.
Proof. unfold disconnect. by destruct (find_session n (sessions m)). Qed.

Lemma add_connection_store (m : Manager) (n host user password : string) :
  store_refs m -> store_refs (snd (add_connection m n host user password)).
Proof.
  intros Hrefs. unfold add_connection. destruct (has_record n m); [exact Hrefs |].
  intros r. simpl. rewrite in_app_iff. intros [Hin | [<- | []]]; [by apply Hrefs |].
  simpl. eauto.
Qed.

Lemma remove_connection_store (m : Manager) (n : string) :
  store_refs m -> store_refs (snd (remove_connection m n)).
Proof.
  intros Hrefs. unfold remove_connection. destruct (has_record n m); [| exact Hrefs].
  intros r. simpl. rewrite filter_In, disconnect_store. intros [Hin _].
  by apply Hrefs.
Qed.

Lemma store_refs_step (m : Manager) (o : Op) : store_refs m -> store_refs (step m o).
Proof.
  intros Hrefs. destruct o as [t r | n | | n e | n host user pw | n];
    unfold store_refs; simpl.
  - by rewrite connect_store.
  - by rewrite disconnect_store.
  - by rewrite teardown_all_store.
  - unfold transport_failed. by destruct (find_session n (sessions m)).
  - by apply add_connection_store.
  - by apply remove_connection_store.
Qed.

Lemma reachable_store_refs (m : Manager) : reachable m -> store_refs m.
Proof.
  intros [ops ->]. unfold run.
  assert (Hgen : forall m0, store_refs m0 -> store_refs (fold_left step ops m0)).
  { induction ops as [| o ops IH]; intros m0 H0; simpl; [exact H0 |].
    apply IH. by apply store_refs_step. }
  apply Hgen. intros r [].
Qed.

(** C7.  After [add_connection(name, hostname, username, password)] on the
    handler of any manager that can exist, no record of the persisted
    connection store holds the cleartext password: every record holds a
    reference into the OS secret storage.  When the connection is added,
    the store gains one record whose credential is a fresh reference, under
    which the secret storage (and not the store) keeps the password; when
    the name is taken nothing changes. *)
Theorem add_connection_stores_no_cleartext (self : RemoteHandler.RemoteHandler Manager)
    (n host user password : string) :
  reachable (RemoteHandler.remote_manager self) ->
  let m := RemoteHandler.remote_manager self in
  let result := RemoteHandler.add_connection self n host user password in
  let m' := RemoteHandler.remote_manager (fst result) in
  (forall r, In r (store m') ->
             credential r <> Cleartext password
             /\ exists h, credential r = SecretRef h)
  /\ (snd result = inr true ->
      exists h,
        store m' = store m ++ [{| name := n; hostname := host; username := user;
                                  credential := SecretRef h; saved := true |}]
        /\ secrets m !! h = None
        /\ secrets m' !! h = Some password)
  /\ (snd result = inr false -> m' = m).
Proof.
  intros Hreach m result m'.
  assert (Hm' : m' = snd (add_connection m n host user password)).
  { subst m' result. unfold RemoteHandler.add_connection. simpl.
    fold m. by destruct (add_connection m n host user password). }
  assert (Hres : snd result = inr (fst (add_connection m n host user password))).
  { subst result. unfold RemoteHandler.add_connection. simpl.
    fold m. by destruct (add_connection m n host user password). }
  rewrite Hres, Hm'. clear Hm' Hres.
  split.
  - intros r Hr.
    destruct (add_connection_store m n host user password
                (reachable_store_refs m Hreach) r Hr) as [h Hh].
    split; [by rewrite Hh | eauto].
  - unfold add_connection. destruct (has_record n m); simpl.
    + split; [discriminate | reflexivity].
    + split; [| discriminate]. intros _. exists (fresh (dom (secrets m))).
      split; [reflexivity |].
      split; [apply not_elem_of_dom, is_fresh | apply lookup_insert_eq].
Qed.

(** C7 at a fresh manager: the record stored for "A" carries a reference,
    not the password "hunter2". *)
Lemma add_connection_stores_no_cleartext_witness :
  forallb (fun r => match credential r with
                    | Cleartext _ => false
                    | SecretRef _ => true
                    end)
          (store (RemoteHandler.remote_manager
                    (fst (RemoteHandler.add_connection
                            fresh_handler "A" "10.0.0.1" "admin" "hunter2"))))
  = true.
Proof.
  destruct (add_connection_stores_no_cleartext fresh_handler "A" "10.0.0.1" "admin"
              "hunter2" (ex_intro _ [] eq_refl)) as (Hrefs & _ & _).
  apply forallb_forall. intros r Hr.
  destruct (Hrefs r Hr) as [_ [h ->]]. reflexivity.
Defined.

End ConnectionStoreFacts.

(** ** [FanOutExecutor] *)

Module FanOutFacts.

Import RemoteManager FanOutExecutor.

Section FanOut.

Variable execute : RemoteSession -> Operation -> Outcome.
Variable m : Manager.
Variable req : OperationRequest.

Lemma dispatch_ok : slots_ok execute m req [] (dispatch req).
Proof.
  intros i. unfold dispatch. change (map ?f ?l) with (f <$> l).
  rewrite list_lookup_fmap. destruct (targets req !! i); [| reflexivity].
  cbn [fmap option_fmap option_map].
  case_bool_decide as Hin; [by apply not_elem_of_nil in Hin | reflexivity].
Qed.

Lemma complete_ok (done : list nat) (slots : list (string * option Outcome)) (i : nat) :
  slots_ok execute m req done slots ->
  slots_ok execute m req (i :: done) (complete execute m req slots i).
Proof.
  intros Hok j. unfold complete. destruct (targets req !! i) as [host |] eqn:Hi.
  - destruct (decide (j = i)) as [-> | Hne].
    + rewrite list_lookup_insert_eq.
      * rewrite Hi. simpl. rewrite bool_decide_eq_true_2; [reflexivity | left].
      * specialize (Hok i). rewrite Hi in Hok. simpl in Hok.
        by apply lookup_lt_Some in Hok.
    + rewrite list_lookup_insert_ne by congruence. rewrite Hok.
      destruct (targets req !! j); simpl; [| reflexivity].
      rewrite (bool_decide_ext (j ∈ i :: done) (j ∈ done)); [reflexivity |].
      rewrite elem_of_cons. tauto.
  - rewrite Hok. destruct (targets req !! j) eqn:Hj; simpl; [| reflexivity].
    rewrite (bool_decide_ext (j ∈ i :: done) (j ∈ done)); [reflexivity |].
    rewrite elem_of_cons.
    split; [intros [-> | H]; [congruence | exact H] | tauto].
Qed.

Lemma fold_complete_ok (completion done : list nat)
    (slots : list (string * option Outcome)) :
  slots_ok execute m req done slots ->
  slots_ok execute m req (rev completion ++ done)
           (fold_left (complete execute m req) completion slots).
Proof.
  revert done slots.
  induction completion as [| i c IH]; intros done slots Hok; simpl.
  - exact Hok.
  - rewrite <- app_assoc. simpl. apply IH. by apply complete_ok.
Qed.

(** entry [i] of the aggregate result is the entry of target [i]: its
    answer if its call completed, a timeout otherwise *)
Lemma fan_out_lookup (completion : list nat) (i : nat) :
  fan_out execute m req completion !! i
  = (fun host =>
       (host, if bool_decide (i ∈ completion)
              then run_on execute m (operation req) host
              else failed OperationTimeout)) <$> (targets req !! i).
Proof.
  unfold fan_out. change (map ?f ?l) with (f <$> l). rewrite list_lookup_fmap.
  rewrite (fold_complete_ok completion [] (dispatch req) dispatch_ok i).
  rewrite app_nil_r. destruct (targets req !! i); simpl; [| reflexivity].
  rewrite (bool_decide_ext (i ∈ rev completion) (i ∈ completion))
    by (rewrite !list_elem_of_In; symmetry; apply in_rev).
  by destruct (bool_decide (i ∈ completion)).
Qed.

Lemma fan_out_hosts (completion : list nat) :
  map fst (fan_out execute m req completion) = targets req.
Proof.
  apply list_eq. intros i. change (map ?f ?l) with (f <$> l).
  rewrite list_lookup_fmap, fan_out_lookup.
  by destruct (targets req !! i).
Qed.

(** C3.  Whatever the order in which the per-host calls complete, the
    aggregate result of a fan-out has exactly one entry per targeted host,
    |S| entries in all, in the order in which the target set S was resolved
    at dispatch; it is empty, not an error, when S is empty; and when every
    dispatched call completes, in any order, the result is the list of the
    targets' answers in target order, independent of the completion
    order. *)
Theorem fan_out_one_entry_per_target (completion : list nat) :
  let result := fan_out execute m req completion in
  length result = length (targets req)
  /\ map fst result = targets req
  /\ (targets req = [] -> result = [])
  /\ (completion ≡ₚ seq 0 (length (targets req)) ->
      result = map (fun host => (host, run_on execute m (operation req) host))
                   (targets req)).
Proof.
  intros result.
  assert (Hlen : length result = length (targets req)).
  { rewrite <- (fan_out_hosts completion). symmetry. apply length_map. }
  split; [exact Hlen |]. split; [apply fan_out_hosts |].
  split.
  - intros Hnil. rewrite Hnil in Hlen. by destruct result.
  - intros Hperm. apply list_eq. intros i. subst result.
    rewrite fan_out_lookup. change (map ?f ?l) with (f <$> l).
    rewrite list_lookup_fmap.
    destruct (targets req !! i) as [host |] eqn:Hi; simpl; [| reflexivity].
    rewrite bool_decide_eq_true_2; [reflexivity |].
    rewrite Hperm. apply elem_of_seq. apply lookup_lt_Some in Hi. lia.
Qed.

End FanOut.

(** C3 at the fan-out of "set VAR=1" to the hosts "A" and "B", of which
    only "A" is connected, the call for "B" completing first: two entries,
    in target order. *)
Lemma fan_out_one_entry_per_target_witness :
  fan_out always_ok (run [OpConnect accepting
                                                  record_A])
          set_var [1; 0]
  = [("A", succeeded "ok"); ("B", failed SessionClosedError)].
Proof.
  destruct (fan_out_one_entry_per_target
              always_ok
              (run [OpConnect accepting
                                            record_A])
              set_var [1; 0]) as (_ & _ & _ & Horder).
  rewrite Horder; [reflexivity |]. apply perm_swap.
Defined.

End FanOutFacts.

(** * Further properties of the code *)

(** ** [DiskManager]: the paths of [disconnect_network_drive] *)

Module DiskManagerPaths.

Import PyStr DiskManager DiskManagerStages DiskManagerFacts.

Lemma normalize_spellings (c : ascii) :
  is_space c = false ->
  normalize_drive_letter (String c EmptyString) = String c ":"
  /\ normalize_drive_letter (String c ":") = String c ":"
  /\ normalize_drive_letter (String c ":\") = String c ":".
Proof.
  intros Hc. unfold normalize_drive_letter, strip. cbn [lstrip]. rewrite Hc.
  cbn. rewrite Hc. cbn. auto.
Qed.

Lemma disconnect_by_normal_form (env : Env) (a b : string) :
  a <> EmptyString -> b <> EmptyString ->
  normalize_drive_letter a = normalize_drive_letter b ->
  disconnect_network_drive env a = disconnect_network_drive env b.
Proof.
  intros Ha Hb Hn. unfold disconnect_network_drive.
  destruct a; [congruence |]. destruct b; [congruence |].
  cbn [truthy negb]. by rewrite Hn.
Qed.

(** X1.  [disconnect_network_drive] treats the three spellings of a drive,
    the bare letter, the letter with a colon, and the letter with a colon
    and a backslash, alike: it does and returns the same for each. *)
Theorem disconnect_spellings (env : Env) (c : ascii) :
  is_space c = false ->
  disconnect_network_drive env (String c EmptyString)
  = disconnect_network_drive env (String c ":")
  /\ disconnect_network_drive env (String c ":\")
     = disconnect_network_drive env (String c ":").
Proof.
  intros Hc. destruct (normalize_spellings c Hc) as (H1 & H2 & H3).
  split; apply disconnect_by_normal_form; try discriminate; congruence.
Qed.

Lemma disconnect_spellings_witness :
  disconnect_network_drive listing_env "Z" = disconnect_network_drive listing_env "Z:"
  /\ disconnect_network_drive listing_env "Z:\"
     = disconnect_network_drive listing_env "Z:".
Proof. exact (disconnect_spellings listing_env "Z"%char eq_refl). Defined.

(** what [disconnect_network_drive] does and returns, path by path *)
Lemma disconnect_network_drive_cases (env : Env) (drive_letter : string) :
  drive_letter <> EmptyString ->
  let n := normalize_drive_letter drive_letter in
  disconnect_network_drive env drive_letter =
  match run env net_use_list with
  | inl e =>
      ([Subprocess net_use_list;
        Log ERROR ("Failed to disconnect network drive: " +:+ str_exc e);
        Emit (error_occurred ("Failed to disconnect network drive: " +:+ str_exc e))],
       inr {| success := false; error := Some (str_exc e); warning := None |})
  | inr check =>
      if negb (contains (upper n) (upper (stdout check))) then
        ([Subprocess net_use_list;
          Log WARNING ("Drive " +:+ n +:+ " is not mapped as a network drive")],
         inr {| success := true; error := None;
                warning := Some ("Drive " +:+ n
                                 +:+ " is not mapped as a network drive") |})
      else
        match run env (net_use_delete n) with
        | inl e =>
            ([Subprocess net_use_list; Subprocess (net_use_delete n);
              Log ERROR ("Failed to disconnect network drive: " +:+ str_exc e);
              Emit (error_occurred ("Failed to disconnect network drive: "
                                    +:+ str_exc e))],
             inr {| success := false; error := Some (str_exc e); warning := None |})
        | inr p =>
            let debug :=
              Log DEBUG ("Command output: " +:+ stdout p)
              :: (if truthy (stderr p)
                  then [Log DEBUG ("Command error: " +:+ stderr p)]
                  else []) in
            if negb (returncode p =? 0)%Z then
              if contains "The network connection could not be found" (stdout p) then
                (Subprocess net_use_list :: Subprocess (net_use_delete n) :: debug
                 ++ [Log INFO ("Drive " +:+ n +:+ " was already disconnected")],
                 inr {| success := true; error := None;
                        warning := Some "The drive was already disconnected" |})
              else
                let shown := if truthy (stdout p) then stdout p else stderr p in
                (Subprocess net_use_list :: Subprocess (net_use_delete n) :: debug
                 ++ [Log ERROR ("Failed to disconnect network drive: " +:+ shown);
                     Emit (error_occurred ("Failed to disconnect network drive: "
                                           +:+ shown))],
                 inr {| success := false; error := Some shown; warning := None |})
            else
              (Subprocess net_use_list :: Subprocess (net_use_delete n) :: debug
               ++ [Log INFO ("Disconnected network drive " +:+ n); RefreshVolumes;
                   Emit (volume_unmounted n)],
               inr {| success := true; error := None; warning := None |})
        end
  end.
Proof.
  intros Hne n. unfold disconnect_network_drive.
  destruct drive_letter as [| c dl]; [congruence |].
  cbn [truthy negb]. fold n. clearbody n.
  unfold subprocess_run.
  destruct (run env net_use_list) as [e | check]; [reflexivity |].
  cbn [bind emit_event ret app].
  destruct (contains (upper n) (upper (stdout check))); cbn [negb]; [| reflexivity].
  destruct (run env (net_use_delete n)) as [e | p]; [reflexivity |].
  cbn [bind emit_event ret app].
  destruct (truthy (stderr p)); destruct (returncode p =? 0)%Z; cbn [negb];
    try reflexivity;
    destruct (contains "The network connection could not be found" (stdout p));
    reflexivity.
Qed.


(** X3.  When the listing mentions the normalised drive letter and the
    delete command returns code 0, [disconnect_network_drive] returns
    success without a warning, and the last things it does are to log the
    disconnection, refresh the volumes and emit [volume_unmounted] with the
    normalised letter. *)
Theorem disconnect_mapped_drive (env : Env) (drive_letter : string)
    (check p : CompletedProcess) :
  drive_letter <> EmptyString ->
  let n := normalize_drive_letter drive_letter in
  run env net_use_list = inr check ->
  contains (upper n) (upper (stdout check)) = true ->
  run env (net_use_delete n) = inr p ->
  returncode p = 0%Z ->
  outcome (disconnect_network_drive env drive_letter)
  = inr {| success := true; error := None; warning := None |}
  /\ exists t,
       trace (disconnect_network_drive env drive_letter)
       = t ++ [Log INFO ("Disconnected network drive " +:+ n);
               RefreshVolumes; Emit (volume_unmounted n)].
Proof.
  intros Hne n Hlist Hin Hdel Hrc.
  rewrite (disconnect_network_drive_cases env drive_letter Hne). cbv zeta. fold n.
  clearbody n.
  rewrite Hlist, Hin, Hdel, Hrc. cbn [negb Z.eqb outcome snd trace fst].
  split; [reflexivity |].
  eexists (_ :: _ :: _). reflexivity.
Qed.

Lemma disconnect_mapped_drive_witness :
  outcome (disconnect_network_drive (mapped_env deleted) "z:\")
  = inr {| success := true; error := None; warning := None |}.
Proof.
  refine (proj1 (disconnect_mapped_drive (mapped_env deleted) "z:\" listing deleted
                   _ eq_refl eq_refl eq_refl eq_refl)).
  discriminate.
Defined.

(** X4.  When the delete command returns a non-zero code, the volumes are
    not refreshed and no [volume_unmounted] is emitted.  If its output
    says "The network connection could not be found" the result is success
    with the warning that the drive was already disconnected; otherwise the
    result is a failure whose error is the command's stdout, or its stderr
    when stdout is empty, and [error_occurred] is emitted with it. *)
Theorem disconnect_failed_delete (env : Env) (drive_letter : string)
    (check p : CompletedProcess) :
  drive_letter <> EmptyString ->
  let n := normalize_drive_letter drive_letter in
  run env net_use_list = inr check ->
  contains (upper n) (upper (stdout check)) = true ->
  run env (net_use_delete n) = inr p ->
  returncode p <> 0%Z ->
  let r := outcome (disconnect_network_drive env drive_letter) in
  let t := trace (disconnect_network_drive env drive_letter) in
  ~ In RefreshVolumes t
  /\ ~ In (Emit (volume_unmounted n)) t
  /\ if contains "The network connection could not be found" (stdout p)
     then r = inr {| success := true; error := None;
                     warning := Some "The drive was already disconnected" |}
     else r = inr {| success := false;
                     error := Some (if truthy (stdout p) then stdout p else stderr p);
                     warning := None |}
          /\ In (Emit (error_occurred
                         ("Failed to disconnect network drive: "
                          +:+ (if truthy (stdout p) then stdout p else stderr p)))) t.
Proof.
  intros Hne n Hlist Hin Hdel Hrc.
  cbv zeta. rewrite (disconnect_network_drive_cases env drive_letter Hne). cbv zeta.
  fold n. clearbody n.
  rewrite Hlist, Hin, Hdel. apply Z.eqb_neq in Hrc. rewrite Hrc. cbn [negb].
  destruct (contains "The network connection could not be found" (stdout p));
    cbn [outcome snd trace fst]; destruct (truthy (stderr p)); simpl;
    intuition congruence.
Qed.

Lemma disconnect_failed_delete_witness :
  outcome (disconnect_network_drive (mapped_env denied) "Z")
  = inr {| success := false;
           error := Some "System error 5 has occurred. Access is denied.";
           warning := None |}.
Proof.
  assert (Hne : "Z" <> EmptyString) by discriminate.
  assert (Hrc : returncode denied <> 0%Z) by discriminate.
  destruct (disconnect_failed_delete (mapped_env denied) "Z" listing denied
              Hne eq_refl eq_refl eq_refl Hrc) as (_ & _ & Hres).
  exact (proj1 Hres).
Defined.

(** X5.  An exception raised by the listing command, or by the delete
    command, does not leave [disconnect_network_drive]: the result is a
    failure whose error is the text of the exception, and [error_occurred]
    is emitted. *)
Theorem disconnect_exception_is_error_result (env : Env) (drive_letter : string)
    (e : PyExc) :
  drive_letter <> EmptyString ->
  let n := normalize_drive_letter drive_letter in
  (run env net_use_list = inl e
   \/ exists check,
        run env net_use_list = inr check
        /\ contains (upper n) (upper (stdout check)) = true
        /\ run env (net_use_delete n) = inl e) ->
  outcome (disconnect_network_drive env drive_letter)
  = inr {| success := false; error := Some (str_exc e); warning := None |}
  /\ In (Emit (error_occurred ("Failed to disconnect network drive: " +:+ str_exc e)))
        (trace (disconnect_network_drive env drive_letter)).
Proof.
  intros Hne n Hexc.
  rewrite (disconnect_network_drive_cases env drive_letter Hne). cbv zeta. fold n.
  clearbody n.
  destruct Hexc as [-> | (check & -> & -> & ->)];
    cbn [negb outcome snd trace fst]; (split; [reflexivity |]);
    cbn [In]; auto 10.
Qed.

Lemma disconnect_exception_is_error_result_witness :
  outcome (disconnect_network_drive (sample_env (inr [])) "Z:")
  = inr {| success := false;
           error := Some "[WinError 2] The system cannot find the file specified";
           warning := None |}.
Proof.
  assert (Hne : "Z:" <> EmptyString) by discriminate.
  exact (proj1 (disconnect_exception_is_error_result
                  (sample_env (inr [])) "Z:"
                  (OtherError "[WinError 2] The system cannot find the file specified")
                  Hne (or_introl eq_refl))).
Defined.

End DiskManagerPaths.

(** ** [DiskManager]: the paths of [map_network_drive] *)

Module DiskManagerMapPaths.

Import PyStr DiskManager DiskManagerStages DiskManagerFacts.

Lemma trace_delete_first (env : Env) (letter : string) :
  try_except (bind (subprocess_run env (net_use_delete letter)) (fun _ => ret tt))
             (fun _ => Some (ret tt))
  = ([Subprocess (net_use_delete letter)], inr tt).
Proof.
  unfold subprocess_run. destruct (run env (net_use_delete letter)); reflexivity.
Qed.

(** X6.  [map_network_drive] never raises: whatever the arguments and
    whatever the commands, the win32 call and the import do, it returns a
    result. *)
Theorem map_network_drive_never_raises (env : Env)
    (network_path drive_letter : string) (use_windows_creds : bool)
    (username password : string) (reconnect : bool) :
  exists r,
    outcome (map_network_drive env network_path drive_letter use_windows_creds
                               username password reconnect) = inr r.
Proof.
  unfold map_network_drive.
  match goal with
  | |- context [try_except ?m (fun e => Some (@?h e))] =>
      destruct (try_except_total m h) as (r & t & Hr & _);
      [intros e; eexists; reflexivity | exists r; exact Hr]
  end.
Qed.

(** what [map_network_drive] does and returns with the current Windows
    credentials *)
Lemma map_windows_creds_cases (env : Env)
    (network_path drive_letter username password : string) (reconnect : bool) :
  let letter := map_letter drive_letter in
  map_network_drive env network_path drive_letter true username password reconnect =
  match run env (net_use_map letter network_path reconnect) with
  | inl e =>
      ([Subprocess (net_use_delete letter);
        Log DEBUG "Using current Windows credentials";
        Subprocess (net_use_map letter network_path reconnect);
        Log ERROR ("Failed to map network drive: " +:+ str_exc e);
        Emit (error_occurred ("Failed to map network drive: " +:+ str_exc e))],
       inr {| success := false; error := Some (str_exc e); warning := None |})
  | inr p =>
      let debug :=
        (if truthy (stdout p) then [Log DEBUG ("Command output: " +:+ stdout p)]
         else [])
        ++ (if truthy (stderr p) then [Log DEBUG ("Command error: " +:+ stderr p)]
            else []) in
      if truthy (stderr p) && contains "error" (lower (stderr p)) then
        (Subprocess (net_use_delete letter)
         :: Log DEBUG "Using current Windows credentials"
         :: Subprocess (net_use_map letter network_path reconnect)
         :: debug
         ++ [Log ERROR ("Failed to map network drive: " +:+ stderr p);
             Log ERROR ("Network path: " +:+ network_path +:+ ", Drive: " +:+ letter);
             Log ERROR ("Using Windows creds: True, Username: " +:+ username);
             Emit (error_occurred ("Failed to map network drive: " +:+ stderr p))],
         inr {| success := false; error := Some (stderr p); warning := None |})
      else
        (Subprocess (net_use_delete letter)
         :: Log DEBUG "Using current Windows credentials"
         :: Subprocess (net_use_map letter network_path reconnect)
         :: debug
         ++ [Log INFO ("Mapping network drive " +:+ network_path +:+ " to " +:+ letter);
             RefreshVolumes; mounted network_path letter],
         inr {| success := true; error := None; warning := None |})
  end.
Proof.
  intros letter. unfold map_network_drive. fold (map_letter drive_letter). fold letter.
  clearbody letter. rewrite trace_delete_first.
  unfold subprocess_run.
  destruct (run env (net_use_map letter network_path reconnect)) as [e | p];
    [reflexivity |].
  cbn [bind emit_event ret app log read_local l_stdout l_stderr l_process].
  destruct (truthy (stdout p)); destruct (truthy (stderr p)); cbn [andb when];
    try reflexivity;
    destruct (contains "error" (lower (stderr p))); reflexivity.
Qed.

(** With the current Windows credentials ([use_windows_creds] true)
    [map_network_drive] runs two commands of its own, the delete of the old
    mapping and [net use <drive> <path> /persistent:...], makes no win32
    call, and does and returns the same whatever the password argument
    is.  The commands of the [refresh_volumes] it calls are added in
    [DiskProgramFacts]. *)
Lemma map_windows_creds_own_commands (env : Env)
    (network_path drive_letter username password : string) (reconnect : bool) :
  let letter := map_letter drive_letter in
  let call := map_network_drive env network_path drive_letter true username password
                                reconnect in
  subprocess_calls (trace call)
  = [net_use_delete letter; net_use_map letter network_path reconnect]
  /\ forallb (fun ev => negb (is_win32_call ev)) (trace call) = true
  /\ forall password',
       map_network_drive env network_path drive_letter true username password'
                         reconnect = call.
Proof.
  intros letter call. subst call.
  split; [| split].
  - rewrite map_windows_creds_cases. cbv zeta. fold letter. clearbody letter.
    destruct (run env (net_use_map letter network_path reconnect)) as [e | p];
      [reflexivity |].
    destruct (truthy (stdout p)); destruct (truthy (stderr p)); cbn [andb app];
      try reflexivity;
      destruct (contains "error" (lower (stderr p))); reflexivity.
  - rewrite map_windows_creds_cases. cbv zeta. fold letter. clearbody letter.
    destruct (run env (net_use_map letter network_path reconnect)) as [e | p];
      [reflexivity |].
    destruct (truthy (stdout p)); destruct (truthy (stderr p)); cbn [andb app];
      try reflexivity;
      destruct (contains "error" (lower (stderr p))); reflexivity.
  - intros password'. by rewrite !map_windows_creds_cases.
Qed.

(** X8.  With the current Windows credentials, once the [net use] command
    has run, [map_network_drive] reports success exactly when the
    command's stderr does not contain "error" (compared in lower case);
    the return code plays no part.  On success [volume_mounted] is
    emitted for the drive. *)
Theorem map_windows_creds_success_is_stderr_test (env : Env)
    (network_path drive_letter username password : string) (reconnect : bool)
    (p : CompletedProcess) :
  run env (net_use_map (map_letter drive_letter) network_path reconnect) = inr p ->
  exists r,
    outcome (map_network_drive env network_path drive_letter true username password
                               reconnect) = inr r
    /\ success r = negb (truthy (stderr p) && contains "error" (lower (stderr p)))
    /\ (success r = true ->
        In (mounted network_path (map_letter drive_letter))
           (trace (map_network_drive env network_path drive_letter true username
                                     password reconnect))).
Proof.
  intros Hrun. rewrite map_windows_creds_cases. cbv zeta.
  set (letter := map_letter drive_letter) in *. clearbody letter. rewrite Hrun.
  destruct (truthy (stderr p) && contains "error" (lower (stderr p))).
  - eexists. split; [reflexivity |]. split; [reflexivity | discriminate].
  - eexists. split; [reflexivity |]. split; [reflexivity |]. intros _.
    cbn [trace fst]. rewrite !app_comm_cons. apply in_or_app. right.
    cbn [In]. auto.
Qed.

Lemma map_windows_creds_success_is_stderr_test_witness :
  exists r,
    outcome (map_network_drive (mapped_env failed_quietly) "\\fileserver\share" "Y"
                               true "" "" true) = inr r
    /\ success r = true.
Proof.
  destruct (map_windows_creds_success_is_stderr_test
              (mapped_env failed_quietly) "\\fileserver\share" "Y" "" "" true
              failed_quietly eq_refl) as (r & Hout & Hs & _).
  exists r. split; [exact Hout | exact Hs].
Defined.

(** the mapping with custom credentials, stage by stage *)
Lemma map_custom_stages (env : Env)
    (network_path drive_letter username password : string) (reconnect : bool) :
  map_network_drive env network_path drive_letter false username password reconnect
  = try_except
      (let '(t, r) :=
         bind (map_with_custom_creds env network_path (map_letter drive_letter)
                                     username password reconnect)
              (report env network_path (map_letter drive_letter) false username
                      reconnect) in
       (Subprocess (net_use_delete (map_letter drive_letter)) :: t, r))
      (fun e => Some (map_failed e)).
Proof.
  unfold map_network_drive. fold (map_letter drive_letter).
  rewrite trace_delete_first. reflexivity.
Qed.

(** the diagnostics complete, run at most a ping and make no win32 call *)
Lemma diagnose_total (env : Env) (network_path letter username : string)
    (reconnect : bool) (process : option CompletedProcess) :
  exists t,
    diagnose env network_path letter username reconnect process = (t, inr tt)
    /\ (forall argv, In argv (subprocess_calls t) -> is_ping argv)
    /\ forallb (fun ev => negb (is_win32_call ev)) t = true.
Proof.
  unfold diagnose, index, subprocess_run, log, emit_event.
  destruct (nth_error (split backslash network_path) 2) as [server |];
    cbn [bind try_except ret raise app].
  - destruct (run env ["ping"; "-n"; "1"; server]) as [e | p];
      cbn [bind try_except ret raise app].
    + eexists. split; [reflexivity |]. split; [| reflexivity].
      cbn. intros argv [<- | []]. by exists server.
    + eexists. split; [reflexivity |]. split; [| reflexivity].
      cbn. intros argv [<- | []]. by exists server.
  - eexists. split; [reflexivity |]. split; [| reflexivity].
    cbn. intros argv [].
Qed.

(** the report, once [stdout] is bound *)
Lemma report_bound (env : Env) (network_path letter username : string)
    (reconnect : bool) (out err : string) (process : option CompletedProcess) :
  exists t,
    report env network_path letter false username reconnect
           {| l_stdout := Some out; l_stderr := err; l_process := process |}
    = (t, inr (if truthy err && contains "error" (lower err)
               then {| success := false; error := Some err; warning := None |}
               else {| success := true; error := None; warning := None |}))
    /\ (forall argv, In argv (subprocess_calls t) -> is_ping argv)
    /\ forallb (fun ev => negb (is_win32_call ev)) t = true
    /\ (truthy err && contains "error" (lower err) = false ->
        subprocess_calls t = []
        /\ In RefreshVolumes t /\ In (mounted network_path letter) t).
Proof.
  unfold report.
  cbn [l_stdout l_stderr l_process read_local negb when bind ret app].
  destruct (diagnose_total env network_path letter username reconnect process)
    as (td & Hd & Hping & Hwin).
  rewrite Hd.
  destruct (truthy out); destruct (truthy err);
    try destruct (contains "error" (lower err));
    cbn [andb when]; unfold log, emit, emit_event, refresh_volumes;
    cbn [bind ret app];
    (eexists; split; [reflexivity |]);
    cbn [subprocess_calls forallb is_win32_call negb andb];
    rewrite ?subprocess_calls_app, ?forallb_app, ?Hwin;
    cbn [subprocess_calls forallb is_win32_call negb andb app];
    rewrite ?app_nil_r;
    (split; [first [exact Hping | intros argv []] |]);
    (split; [reflexivity |]);
    first [discriminate | intros _; unfold mounted; cbn [In]; auto 10].
Qed.

Lemma attempt_import_error (env : Env)
    (network_path letter username password : string) (reconnect : bool)
    (msg : string) :
  import_win32 env = Some msg ->
  map_with_custom_creds env network_path letter username password reconnect
  = ([Log DEBUG ("Using win32 API to map drive with custom credentials for user: "
                 +:+ username);
      Log ERROR ("Failed to import win32 modules: " +:+ msg)],
     inr {| l_stdout := Some EmptyString;
            l_stderr := "Failed to import win32 modules: " +:+ msg;
            l_process := None |}).
Proof. intros Himp. unfold map_with_custom_creds. rewrite Himp. reflexivity. Qed.

Lemma attempt_wnet_ok (env : Env)
    (network_path letter username password : string) (reconnect : bool) :
  import_win32 env = None ->
  WNetAddConnection2 env letter network_path password username (connect_flags reconnect)
  = None ->
  map_with_custom_creds env network_path letter username password reconnect
  = ([Log DEBUG ("Using win32 API to map drive with custom credentials for user: "
                 +:+ username);
      Win32AddConnection letter network_path password username (connect_flags reconnect);
      Log INFO ("Successfully mapped " +:+ network_path +:+ " to " +:+ letter
                +:+ " using win32 API")],
     inr {| l_stdout := Some ("Successfully mapped " +:+ network_path +:+ " to "
                              +:+ letter +:+ " using win32 API");
            l_stderr := EmptyString;
            l_process := None |}).
Proof.
  intros Himp Hw. unfold map_with_custom_creds. fold (connect_flags reconnect).
  rewrite Himp, Hw. reflexivity.
Qed.

Lemma attempt_1219 (env : Env)
    (network_path letter username password : string) (reconnect : bool)
    (msg : string) :
  import_win32 env = None ->
  WNetAddConnection2 env letter network_path password username (connect_flags reconnect)
  = Some (PyWinError 1219 msg) ->
  map_with_custom_creds env network_path letter username password reconnect
  = match run env net_use_list with
    | inr lp =>
        ([Log DEBUG ("Using win32 API to map drive with custom credentials for user: "
                     +:+ username);
          Win32AddConnection letter network_path password username
                             (connect_flags reconnect);
          Log ERROR ("Win32 API error: 1219 - " +:+ msg);
          Log WARNING ("Multiple connection error detected for server: "
                       +:+ server_name_of network_path);
          Subprocess net_use_list]
         ++ (if truthy (stdout lp)
             then [Log DEBUG ("Existing connections:" +:+ nl +:+ stdout lp)]
             else []),
         inr {| l_stdout := Some EmptyString;
                l_stderr := multiple_connections_message network_path username;
                l_process := None |})
    | inl e =>
        ([Log DEBUG ("Using win32 API to map drive with custom credentials for user: "
                     +:+ username);
          Win32AddConnection letter network_path password username
                             (connect_flags reconnect);
          Log ERROR ("Win32 API error: 1219 - " +:+ msg);
          Log WARNING ("Multiple connection error detected for server: "
                       +:+ server_name_of network_path);
          Subprocess net_use_list;
          Log ERROR ("Error listing connections: " +:+ str_exc e)],
         inr {| l_stdout := None;
                l_stderr := "Multiple connections error: " +:+ msg;
                l_process := None |})
    end.
Proof.
  intros Himp Hw. unfold map_with_custom_creds. fold (connect_flags reconnect).
  rewrite Himp, Hw. unfold on_win32_error, subprocess_run.
  fold (server_name_of network_path).
  destruct (run env net_use_list) as [e | lp]; [reflexivity |].
  destruct (truthy (stdout lp)) eqn:Hout; cbn; rewrite Hout; reflexivity.
Qed.

Lemma stages_with_report (env : Env)
    (network_path drive_letter username password : string) (reconnect : bool)
    (t1 : list Event) (out err : string) (process : option CompletedProcess) :
  map_with_custom_creds env network_path (map_letter drive_letter) username password
                        reconnect
  = (t1, inr {| l_stdout := Some out; l_stderr := err; l_process := process |}) ->
  exists t,
    map_network_drive env network_path drive_letter false username password reconnect
    = (Subprocess (net_use_delete (map_letter drive_letter)) :: t1 ++ t,
       inr (if truthy err && contains "error" (lower err)
            then {| success := false; error := Some err; warning := None |}
            else {| success := true; error := None; warning := None |}))
    /\ (forall argv, In argv (subprocess_calls t) -> is_ping argv)
    /\ forallb (fun ev => negb (is_win32_call ev)) t = true
    /\ (truthy err && contains "error" (lower err) = false ->
        subprocess_calls t = []
        /\ In RefreshVolumes t
        /\ In (mounted network_path (map_letter drive_letter)) t).
Proof.
  intros Hattempt. rewrite map_custom_stages, Hattempt.
  destruct (report_bound env network_path (map_letter drive_letter) username reconnect
              out err process) as (t & Hreport & Hrest).
  exists t. split; [| exact Hrest].
  cbn [bind]. rewrite Hreport. reflexivity.
Qed.

(** With custom credentials, when the win32 call succeeds,
    [map_network_drive] returns success and hands the password to
    [WNetAddConnection2]; the one command of its own is the delete of the
    old mapping; [volume_mounted] is emitted for the drive. *)
Lemma map_custom_creds_win32_own (env : Env)
    (network_path drive_letter username password : string) (reconnect : bool) :
  let letter := map_letter drive_letter in
  let call := map_network_drive env network_path drive_letter false username password
                                reconnect in
  import_win32 env = None ->
  WNetAddConnection2 env letter network_path password username (connect_flags reconnect)
  = None ->
  outcome call = inr {| success := true; error := None; warning := None |}
  /\ subprocess_calls (trace call) = [net_use_delete letter]
  /\ In (Win32AddConnection letter network_path password username
                            (connect_flags reconnect)) (trace call)
  /\ In (mounted network_path letter) (trace call).
Proof.
  intros letter call Himp Hw. subst call.
  destruct (stages_with_report env network_path drive_letter username password reconnect
              _ _ _ _ (attempt_wnet_ok env network_path letter username password
                                       reconnect Himp Hw))
    as (t & -> & _ & _ & Hok).
  destruct (Hok eq_refl) as (Hcalls & _ & Hm).
  cbn [outcome snd trace fst andb truthy]. split; [reflexivity |].
  split; [cbn [subprocess_calls app]; by rewrite Hcalls |].
  split; [cbn [In app]; auto |].
  right. apply in_or_app. right. exact Hm.
Qed.

Lemma truthy_message (network_path username : string) :
  truthy (multiple_connections_message network_path username) = true.
Proof. reflexivity. Qed.

(** With custom credentials, when the win32 call fails with error 1219
    and the connections can be listed, [map_network_drive] does not run
    the fallback command that carries the password: of its own it runs the
    delete, the listing and at most a ping.  Its success flag is the
    outcome of the test for "error" in the message it built. *)
Lemma map_error_1219_own (env : Env)
    (network_path drive_letter username password : string) (reconnect : bool)
    (msg : string) (lp : CompletedProcess) :
  let letter := map_letter drive_letter in
  let call := map_network_drive env network_path drive_letter false username password
                                reconnect in
  import_win32 env = None ->
  WNetAddConnection2 env letter network_path password username (connect_flags reconnect)
  = Some (PyWinError 1219 msg) ->
  run env net_use_list = inr lp ->
  exists r,
    outcome call = inr r
    /\ success r
       = negb (contains "error"
                        (lower (multiple_connections_message network_path username)))
    /\ (forall argv, In argv (subprocess_calls (trace call)) ->
                     argv = net_use_delete letter \/ argv = net_use_list
                     \/ is_ping argv)
    /\ ~ In (net_use_map_user letter network_path username password reconnect)
            (subprocess_calls (trace call)).
Proof.
  intros letter call Himp Hw Hlist. subst call.
  pose proof (attempt_1219 env network_path letter username password reconnect msg
                Himp Hw) as Hattempt.
  rewrite Hlist in Hattempt.
  destruct (stages_with_report env network_path drive_letter username password reconnect
              _ _ _ _ Hattempt) as (t & -> & Hping & _ & _).
  rewrite truthy_message. cbn [andb outcome snd trace fst].
  match goal with
  | |- exists r, _ /\ _ /\ (forall argv, In argv (subprocess_calls ?tr) -> _) /\ _ =>
      assert (Hcalls : forall argv,
                 In argv (subprocess_calls tr) ->
                 argv = net_use_delete letter \/ argv = net_use_list \/ is_ping argv)
  end.
  { intros argv. fold letter. cbn [subprocess_calls app].
    rewrite subprocess_calls_app. destruct (truthy (stdout lp));
      cbn [subprocess_calls app In]; intros [<- | [<- | Hin]]; auto. }
  eexists. split; [reflexivity |].
  split; [by destruct (contains "error" _) |].
  split; [exact Hcalls |].
  intros Hin. apply Hcalls in Hin as [Heq | [Heq | [server Heq]]]; discriminate Heq.
Qed.

(** X11.  With custom credentials, when the win32 call fails with error
    1219 and the listing of the connections raises, the local [stdout] is
    never assigned: reading it raises, and [map_network_drive] returns a
    failure whose error is the text of that UnboundLocalError, not the
    "Multiple connections error" message it had prepared. *)
Theorem map_error_1219_listing_fails (env : Env)
    (network_path drive_letter username password : string) (reconnect : bool)
    (msg : string) (e : PyExc) :
  let letter := map_letter drive_letter in
  let call := map_network_drive env network_path drive_letter false username password
                                reconnect in
  import_win32 env = None ->
  WNetAddConnection2 env letter network_path password username (connect_flags reconnect)
  = Some (PyWinError 1219 msg) ->
  run env net_use_list = inl e ->
  outcome call
  = inr {| success := false;
           error := Some (str_exc (UnboundLocalError "stdout"));
           warning := None |}
  /\ In (Emit (error_occurred ("Failed to map network drive: "
                               +:+ str_exc (UnboundLocalError "stdout"))))
        (trace call).
Proof.
  intros letter call Himp Hw Hlist. subst call.
  pose proof (attempt_1219 env network_path letter username password reconnect msg
                Himp Hw) as Hattempt.
  rewrite Hlist in Hattempt.
  rewrite map_custom_stages. fold letter. rewrite Hattempt.
  split; [reflexivity |]. cbn. auto 12.
Qed.

Lemma map_error_1219_listing_fails_witness :
  outcome (map_network_drive (busy_env (inl (OtherError "net: command not found")))
                             "\\fileserver\share" "Y" false "alice" "hunter2" true)
  = inr {| success := false;
           error := Some "cannot access local variable 'stdout' where it is not associated with a value";
           warning := None |}.
Proof.
  exact (proj1 (map_error_1219_listing_fails
                  (busy_env (inl (OtherError "net: command not found")))
                  "\\fileserver\share" "Y" "alice" "hunter2" true
                  "Multiple connections to a server are not allowed."
                  (OtherError "net: command not found") eq_refl eq_refl eq_refl)).
Defined.

(** With custom credentials, when the win32 modules cannot be imported,
    [map_network_drive] makes no win32 call and runs no command of its own
    but the delete and at most a ping.  Its success flag is the outcome of
    the test for "error" in "Failed to import win32 modules: <message>". *)
Lemma map_import_error_own (env : Env)
    (network_path drive_letter username password : string) (reconnect : bool)
    (msg : string) :
  let letter := map_letter drive_letter in
  let call := map_network_drive env network_path drive_letter false username password
                                reconnect in
  import_win32 env = Some msg ->
  exists r,
    outcome call = inr r
    /\ success r
       = negb (contains "error" (lower ("Failed to import win32 modules: " +:+ msg)))
    /\ forallb (fun ev => negb (is_win32_call ev)) (trace call) = true
    /\ (forall argv, In argv (subprocess_calls (trace call)) ->
                     argv = net_use_delete letter \/ is_ping argv).
Proof.
  intros letter call Himp. subst call.
  destruct (stages_with_report env network_path drive_letter username password reconnect
              _ _ _ _ (attempt_import_error env network_path letter username password
                                            reconnect msg Himp))
    as (t & -> & Hping & Hwin & _).
  change (truthy ("Failed to import win32 modules: " +:+ msg)) with true.
  cbn [andb outcome snd trace fst].
  eexists. split; [reflexivity |].
  split; [by destruct (contains "error" _) |].
  split.
  - cbn [forallb app is_win32_call negb andb]. exact Hwin.
  - intros argv. cbn [subprocess_calls app In]. intros [<- | Hin]; auto.
Qed.

(** *** The drive letters and the partitions *)

Lemma in_collect_used (x : string) (ps : list Partition) (acc : list string) :
  In x (collect_used ps acc)
  <-> In x acc
      \/ exists p, In p ps /\ 2 <= String.length (device p)
                   /\ x = slice_to 2 (device p).
Proof.
  revert acc. induction ps as [| p ps IH]; intros acc; cbn [collect_used].
  - split; [auto | intros [H | (p & [] & _)]; exact H].
  - destruct (truthy (device p) && (2 <=? String.length (device p))%nat) eqn:Hc.
    + apply andb_true_iff in Hc as [_ Hlen]. apply Nat.leb_le in Hlen.
      rewrite IH, in_app_iff. cbn [In]. split.
      * intros [[H | [<- | []]] | (q & Hq & Hl & ->)].
        -- auto.
        -- right. exists p. cbn [In]. auto.
        -- right. exists q. cbn [In]. auto.
      * intros [H | (q & [<- | Hq] & Hl & ->)].
        -- auto.
        -- left. right. auto.
        -- right. exists q. cbn [In]. auto.
    + rewrite IH. split.
      * intros [H | (q & Hq & Hl & ->)]; [auto |]. right. exists q. cbn [In]. auto.
      * intros [H | (q & [<- | Hq] & Hl & ->)];
          [auto | | right; exists q; cbn [In]; auto].
        exfalso. apply andb_false_iff in Hc as [Hc | Hc].
        -- destruct (device p); [simpl in Hl; lia | discriminate].
        -- apply Nat.leb_gt in Hc. lia.
Qed.

Lemma length_collect_used (ps : list Partition) (acc : list string) :
  length (collect_used ps acc) <= length acc + length ps.
Proof.
  revert acc. induction ps as [| p ps IH]; intros acc; cbn [collect_used length];
    [lia |].
  destruct (truthy (device p) && (2 <=? String.length (device p))%nat).
  - specialize (IH (acc ++ [slice_to 2 (device p)])). rewrite length_app in IH.
    cbn [length] in IH. lia.
  - specialize (IH acc). lia.
Qed.

(** X13.  When the partitions can be read, a letter is among the
    [available_letters] of [get_drive_letters_info] exactly when it is one
    of "A:" to "Z:" and no partition device of two characters or more
    starts with it: the comparison is exact, so a device spelt "c:\" does
    not take "C:".  There are at most as many [used_letters] as partitions
    and at most 26 available letters. *)
Theorem available_letters_by_partitions (env : Env) (ps : list Partition) :
  disk_partitions env = inr ps ->
  exists info,
    outcome (get_drive_letters_info env) = inr info
    /\ (forall letter,
          In letter (available_letters info)
          <-> In letter letters_A_Z
              /\ forall p, In p ps -> 2 <= String.length (device p) ->
                           slice_to 2 (device p) <> letter)
    /\ length (used_letters info) <= length ps
    /\ length (available_letters info) <= 26.
Proof.
  intros Hps. rewrite (get_drive_letters_info_ok env ps Hps).
  eexists. split; [reflexivity |].
  cbn [all_letters used_letters available_letters].
  split; [| split].
  - intros letter. rewrite filter_In, negb_true_iff.
    split; intros [Hall Hused]; (split; [exact Hall |]).
    + intros p Hp Hlen Heq. apply not_true_iff_false in Hused. apply Hused.
      apply str_in_elem_of, list_elem_of_In, in_collect_used. right. eauto.
    + apply not_true_iff_false. intros Hin.
      apply str_in_elem_of, list_elem_of_In, in_collect_used in Hin
        as [[] | (p & Hp & Hlen & ->)].
      by apply (Hused p).
  - apply (length_collect_used ps []).
  - etransitivity; [apply List.filter_length_le | reflexivity].
Qed.

Lemma available_letters_by_partitions_witness :
  exists info,
    outcome (get_drive_letters_info (sample_env (inr lower_case_partitions))) = inr info
    /\ In "C:" (available_letters info).
Proof.
  destruct (available_letters_by_partitions (sample_env (inr lower_case_partitions))
              lower_case_partitions eq_refl) as (info & Hout & Hiff & _).
  exists info. split; [exact Hout |].
  apply Hiff. split; [cbn; auto 30 |].
  intros p [<- | []] _. discriminate.
Defined.

End DiskManagerMapPaths.

(** ** [DiskManager.refresh_volumes] *)

Module DiskVolumesFacts.

Import PyStr DiskManager DiskVolumes.

Lemma make_volume_ok (env : VolEnv) (p : Partition) :
  usable env p = true ->
  outcome (make_volume env p) = inr (volume_of env p)
  /\ subprocess_calls (trace (make_volume env p)) = net_use_of p
  /\ forall sig, ~ In (Emit sig) (trace (make_volume env p)).
Proof.
  unfold usable, make_volume, volume_of, usage_of, network_path_of, net_use_of,
    subprocess_run.
  destruct (disk_usage env (mountpoint p)) as [total used free percent | | e];
    [| | discriminate]; intros _;
    cbn [bind ret app];
    (destruct (is_remote_ntfs p);
     [destruct (run (os env) ["net"; "use"; rstrip_char backslash (device p)])
        as [e | result];
      [| cbn [bind ret raise try_except emit_event app log];
         destruct (returncode result =? 0)%Z] |]);
    (split; [reflexivity | split; [reflexivity |]]);
    intros sig Hin; cbn in Hin; intuition discriminate.
Qed.

Lemma make_volume_fails (env : VolEnv) (p : Partition) (e : PyExc) :
  disk_usage env (mountpoint p) = UsageFails e ->
  make_volume env p = ([], inl e).
Proof. intros H. unfold make_volume. rewrite H. reflexivity. Qed.

Lemma label_volume_ok (env : VolEnv) (v : Volume) :
  outcome (label_volume env v) = inr (with_label v (label_of env v))
  /\ subprocess_calls (trace (label_volume env v))
     = (if String.eqb (platform_system env) "Windows" && truthy (v_mountpoint v)
        then [["cmd"; "/c"; "vol " +:+ rstrip_char backslash (v_mountpoint v)]]
        else [])
  /\ forall sig, ~ In (Emit sig) (trace (label_volume env v)).
Proof.
  unfold label_volume, label_of, subprocess_run.
  destruct (String.eqb (platform_system env) "Windows" && truthy (v_mountpoint v));
    [destruct (run (os env)
                   ["cmd"; "/c"; "vol " +:+ rstrip_char backslash (v_mountpoint v)])
       as [e | result];
     [| cbn [bind ret raise try_except emit_event app log];
        destruct (returncode result =? 0)%Z;
        [destruct (volume_label_search (stdout result)) |]] |];
    (split; [reflexivity | split; [reflexivity |]]);
    intros sig Hin; cbn in Hin; intuition discriminate.
Qed.

(** a loop whose bodies all complete *)
Lemma for_each_ok {A B} (body : A -> Py B) (f : A -> B) (l : list A) :
  (forall a, In a l -> outcome (body a) = inr (f a)) ->
  for_each body l = (flat_map (fun a => trace (body a)) l, inr (map f l)).
Proof.
  induction l as [| a l IH]; intros Hok; [reflexivity |].
  cbn [for_each flat_map map].
  pose proof (Hok a (or_introl eq_refl)) as Ha.
  destruct (body a) as [t [e | b]]; simpl in Ha; [discriminate |].
  injection Ha as ->. rewrite IH by (intros; apply Hok; by right).
  cbn. by rewrite app_nil_r.
Qed.

(** a loop one of whose bodies raises *)
Lemma for_each_raises {A B} (body : A -> Py B) (l : list A) (a : A) :
  In a l -> (exists e, outcome (body a) = inl e) ->
  exists e, outcome (for_each body l) = inl e.
Proof.
  induction l as [| x l IH]; intros Hin Hraise; [destruct Hin |].
  cbn [for_each]. destruct (body x) as [t [e | b]] eqn:Hx.
  - by exists e.
  - destruct Hin as [-> | Hin].
    + destruct Hraise as [e He]. rewrite Hx in He. discriminate.
    + destruct (IH Hin Hraise) as [e He].
      destruct (for_each body l) as [t' [e' | bs]]; simpl in He; [| discriminate].
      exists e'. reflexivity.
Qed.

Lemma signals_app (t1 t2 : list Event) : signals (t1 ++ t2) = signals t1 ++ signals t2.
Proof.
  induction t1 as [| ev t1 IH]; [reflexivity |].
  destruct ev; cbn [app signals]; rewrite ?IH; reflexivity.
Qed.

Lemma signals_none (t : list Event) :
  (forall sig, ~ In (Emit sig) t) -> signals t = [].
Proof.
  induction t as [| ev t IH]; intros Hno; [reflexivity |].
  destruct ev; cbn [signals];
    try (apply IH; intros sig' Hin; apply (Hno sig'); by right).
  exfalso. apply (Hno sig). by left.
Qed.

Lemma make_volume_signals (env : VolEnv) (p : Partition) :
  signals (trace (make_volume env p)) = [].
Proof.
  destruct (usable env p) eqn:Hu.
  - apply signals_none. by apply make_volume_ok.
  - unfold usable in Hu. destruct (disk_usage env (mountpoint p)) eqn:Hd;
      try discriminate.
    by rewrite (make_volume_fails env p e Hd).
Qed.

Lemma label_volume_signals (env : VolEnv) (v : Volume) :
  signals (trace (label_volume env v)) = [].
Proof. apply signals_none. apply label_volume_ok. Qed.

Lemma for_each_signals {A B} (body : A -> Py B) (l : list A) :
  (forall a, signals (trace (body a)) = []) ->
  signals (trace (for_each body l)) = [].
Proof.
  intros Hno. induction l as [| a l IH]; [reflexivity |].
  cbn [for_each]. specialize (Hno a).
  destruct (body a) as [t [e | b]]; [exact Hno |].
  destruct (for_each body l) as [t' [e' | bs]]; cbn in *;
    by rewrite ?app_nil_r, signals_app, Hno, IH.
Qed.

Lemma signals_flat_map {A} (f : A -> list Event) (l : list A) :
  (forall a, signals (f a) = []) -> signals (flat_map f l) = [].
Proof.
  intros Hno. induction l as [| a l IH]; [reflexivity |].
  cbn [flat_map]. by rewrite signals_app, Hno, IH.
Qed.

Lemma subprocess_calls_flat_map {A} (f : A -> list Event) (l : list A) :
  subprocess_calls (flat_map f l) = flat_map (fun a => subprocess_calls (f a)) l.
Proof.
  induction l as [| a l IH]; [reflexivity |].
  cbn [flat_map]. by rewrite subprocess_calls_app, IH.
Qed.

(** what [refresh_volumes] does and returns when every usage can be read *)
Lemma refresh_volumes_ok (env : VolEnv) (self_volumes : list Volume)
    (ps : list Partition) :
  disk_partitions (os env) = inr ps ->
  (forall p, In p ps -> usable env p = true) ->
  refresh_volumes env self_volumes
  = (Log DEBUG "Refreshing volumes"
     :: flat_map (fun p => trace (make_volume env p)) ps
     ++ flat_map (fun v => trace (label_volume env v)) (map (volume_of env) ps)
     ++ [Emit volumes_refreshed; Log DEBUG "Refreshed volumes"],
     inr (map (final_volume env) ps, map (final_volume env) ps)).
Proof.
  intros Hps Hok. unfold refresh_volumes. rewrite Hps.
  cbn [bind ret log emit_event app].
  rewrite (for_each_ok (make_volume env) (volume_of env) ps)
    by (intros p Hp; by apply make_volume_ok, Hok).
  cbn [bind].
  rewrite (for_each_ok (label_volume env)
             (fun v => with_label v (label_of env v)) (map (volume_of env) ps))
    by (intros v _; apply label_volume_ok).
  rewrite map_map. cbn [bind ret app log emit emit_event].
  reflexivity.
Qed.

(** what [refresh_volumes] does and returns when the body of its [try]
    raises *)
Lemma refresh_volumes_failed (env : VolEnv) (self_volumes : list Volume) :
  (match disk_partitions (os env) with
   | inl _ => True
   | inr ps => exists p, In p ps /\ usable env p = false
   end) ->
  exists e,
    outcome (refresh_volumes env self_volumes) = inr (self_volumes, [])
    /\ signals (trace (refresh_volumes env self_volumes))
       = [error_occurred ("Failed to refresh volumes: " +:+ str_exc e)].
Proof.
  intros Hfail. unfold refresh_volumes.
  destruct (disk_partitions (os env)) as [e | ps].
  { exists e. split; reflexivity. }
  destruct Hfail as (p & Hp & Hu). cbn [bind ret log emit_event app].
  assert (Hraise : exists e, outcome (make_volume env p) = inl e).
  { unfold usable in Hu. destruct (disk_usage env (mountpoint p)) eqn:Hd;
      try discriminate.
    exists e. by rewrite (make_volume_fails env p e Hd). }
  destruct (for_each_raises (make_volume env) ps p Hp Hraise) as [e He].
  pose proof (for_each_signals (make_volume env) ps (make_volume_signals env)) as Hs.
  destruct (for_each (make_volume env) ps) as [t [e' | vs]]; simpl in He, Hs;
    [| discriminate].
  injection He as ->. exists e.
  cbn [bind ret raise try_except log emit emit_event app trace outcome fst snd].
  split; [reflexivity |]. cbn [signals]. rewrite signals_app, Hs. reflexivity.
Qed.

(** X14.  When the partitions can be read and no usage raises anything
    but PermissionError or FileNotFoundError, [refresh_volumes] returns one
    volume per partition, in partition order, and stores the same list in
    [self.volumes]; so does [get_volumes], which only calls it.  Each volume carries its partition's device,
    mountpoint, fstype and opts, the type the [elif] chain gives it, the
    network flag, the usage figures (all zero when the usage could not be
    read) and a label.  [volumes_refreshed] is the one signal emitted. *)
Theorem refresh_volumes_success (env : VolEnv) (self_volumes : list Volume)
    (ps : list Partition) :
  disk_partitions (os env) = inr ps ->
  (forall p e, In p ps -> disk_usage env (mountpoint p) <> UsageFails e) ->
  exists vs,
    outcome (refresh_volumes env self_volumes) = inr (vs, vs)
    /\ outcome (get_volumes env self_volumes) = inr (vs, vs)
    /\ Forall2
         (fun p v =>
            v_device v = device p /\ v_mountpoint v = mountpoint p
            /\ v_fstype v = fstype p /\ v_opts v = opts p
            /\ v_type v = volume_type p
            /\ v_is_network_drive v = is_remote_ntfs p
            /\ (v_total v, v_used v, v_free v, v_percent v)
               = match disk_usage env (mountpoint p) with
                 | Usage total used free percent => (total, used, free, percent)
                 | _ => (0%Z, 0%Z, 0%Z, PyInt 0)
                 end
            /\ exists label, v_label v = Some label)
         ps vs
    /\ signals (trace (refresh_volumes env self_volumes)) = [volumes_refreshed].
Proof.
  intros Hps Hok.
  assert (Hu : forall p, In p ps -> usable env p = true).
  { intros p Hp. unfold usable. specialize (Hok p).
    destruct (disk_usage env (mountpoint p)) as [? ? ? ? | | e]; try reflexivity.
    exfalso. by apply (Hok e). }
  unfold get_volumes. rewrite (refresh_volumes_ok env self_volumes ps Hps Hu).
  exists (map (final_volume env) ps). split; [reflexivity |].
  split; [reflexivity |]. split.
  - clear. induction ps as [| p ps IH]; constructor; [| exact IH].
    unfold final_volume, volume_of, usage_of. cbn.
    destruct (disk_usage env (mountpoint p)); repeat split; eauto.
  - cbn [trace fst signals]. rewrite !signals_app.
    rewrite (signals_flat_map _ ps (make_volume_signals env)).
    rewrite (signals_flat_map _ _ (label_volume_signals env)). reflexivity.
Qed.

Lemma refresh_volumes_success_witness :
  exists vs,
    outcome (refresh_volumes windows_env []) = inr (vs, vs)
    /\ map v_type vs = ["System Drive"; "Unknown"; "Network Drive"]
    /\ signals (trace (refresh_volumes windows_env [])) = [volumes_refreshed].
Proof.
  destruct (refresh_volumes_success windows_env [] three_partitions eq_refl)
    as (vs & Hout & _ & Hvs & Hsig).
  - intros p e [<- | [<- | [<- | []]]]; discriminate.
  - exists vs. split; [exact Hout |]. split; [| exact Hsig].
    clear Hout Hsig.
    transitivity (map volume_type three_partitions); [| reflexivity].
    induction Hvs as [| p v ps vs' (_ & _ & _ & _ & Ht & _) _ IH]; [reflexivity |].
    cbn [map]. by rewrite Ht, IH.
Defined.

(** X15.  When the partitions cannot be read, or the usage of one
    partition raises anything but PermissionError or FileNotFoundError,
    [refresh_volumes] returns the empty list, however many volumes could be
    read, leaves [self.volumes] as it was, and emits [error_occurred] once
    and [volumes_refreshed] not at all. *)
Theorem refresh_volumes_failure (env : VolEnv) (self_volumes : list Volume) :
  ((exists e, disk_partitions (os env) = inl e)
   \/ exists ps p e,
        disk_partitions (os env) = inr ps /\ In p ps
        /\ disk_usage env (mountpoint p) = UsageFails e) ->
  exists e,
    outcome (refresh_volumes env self_volumes) = inr (self_volumes, [])
    /\ signals (trace (refresh_volumes env self_volumes))
       = [error_occurred ("Failed to refresh volumes: " +:+ str_exc e)].
Proof.
  intros Hfail. apply refresh_volumes_failed.
  destruct Hfail as [[e ->] | (ps & p & e & -> & Hp & Hd)]; [exact I |].
  exists p. split; [exact Hp |]. unfold usable. by rewrite Hd.
Qed.

Lemma refresh_volumes_failure_witness :
  outcome (refresh_volumes not_ready_env []) = inr ([], [])
  /\ signals (trace (refresh_volumes not_ready_env []))
     = [error_occurred "Failed to refresh volumes: [WinError 21] The device is not ready"].
Proof.
  destruct (refresh_volumes_failure not_ready_env []) as (e & Hout & Hsig).
  - right.
    exists three_partitions,
      {| device := "D:\"; mountpoint := "D:\"; fstype := ""; opts := "cdrom" |},
      (OtherError "[WinError 21] The device is not ready").
    split; [reflexivity |]. split; [cbn; auto | reflexivity].
  - split; [exact Hout | reflexivity].
Defined.

(** The commands of a successful [refresh_volumes] are, first, one
    [net use <drive>] per remote NTFS partition, then, on Windows only, one
    [cmd /c vol <drive>] per partition with a mountpoint, each in
    partition order; on any other platform no [vol] command is run and
    every label is "Unknown". *)
Theorem refresh_volumes_commands (env : VolEnv) (self_volumes : list Volume)
    (ps : list Partition) :
  disk_partitions (os env) = inr ps ->
  (forall p e, In p ps -> disk_usage env (mountpoint p) <> UsageFails e) ->
  subprocess_calls (trace (refresh_volumes env self_volumes))
  = flat_map net_use_of ps ++ flat_map (vol_of env) ps
  /\ (platform_system env <> "Windows" ->
      flat_map (vol_of env) ps = []
      /\ forall now vs v,
           outcome (refresh_volumes env self_volumes) = inr (now, vs) ->
           In v vs -> v_label v = Some "Unknown").
Proof.
  intros Hps Hok.
  assert (Hu : forall p, In p ps -> usable env p = true).
  { intros p Hp. unfold usable. specialize (Hok p).
    destruct (disk_usage env (mountpoint p)) as [? ? ? ? | | e]; try reflexivity.
    exfalso. by apply (Hok e). }
  rewrite (refresh_volumes_ok env self_volumes ps Hps Hu).
  cbn [trace fst outcome snd subprocess_calls]. split.
  - rewrite !subprocess_calls_app, !subprocess_calls_flat_map.
    cbn [subprocess_calls]. rewrite app_nil_r. f_equal.
    + clear -Hu. induction ps as [| p ps IH]; [reflexivity |].
      cbn [flat_map]. rewrite IH by (intros; apply Hu; by right).
      f_equal. apply make_volume_ok, Hu. by left.
    + clear. induction ps as [| p ps IH]; [reflexivity |].
      cbn [flat_map map]. rewrite IH. f_equal.
      destruct (label_volume_ok env (volume_of env p)) as (_ & -> & _).
      reflexivity.
  - intros Hnw. apply String.eqb_neq in Hnw. split.
    + clear -Hnw. induction ps as [| p ps IH]; [reflexivity |].
      cbn [flat_map]. rewrite IH. unfold vol_of. by rewrite Hnw.
    + intros now vs v Hout Hv. injection Hout as _ <-.
      apply in_map_iff in Hv as (p & <- & _).
      unfold final_volume, label_of. cbn. by rewrite Hnw.
Qed.

Lemma refresh_volumes_commands_witness :
  subprocess_calls (trace (refresh_volumes windows_env []))
  = [["net"; "use"; "Z:"];
     ["cmd"; "/c"; "vol C:"]; ["cmd"; "/c"; "vol D:"]; ["cmd"; "/c"; "vol Z:"]]
  /\ subprocess_calls (trace (refresh_volumes linux_env [])) = [["net"; "use"; "Z:"]].
Proof.
  split.
  - refine (proj1 (refresh_volumes_commands windows_env [] three_partitions eq_refl _)).
    intros p e [<- | [<- | [<- | []]]]; discriminate.
  - refine (proj1 (refresh_volumes_commands linux_env [] three_partitions eq_refl _)).
    intros p e [<- | [<- | [<- | []]]]; discriminate.
Defined.

Lemma network_type_iff (p : Partition) :
  is_remote_ntfs p = true <-> volume_type p = "Network Drive".
Proof.
  unfold volume_type. destruct (is_remote_ntfs p); [tauto |].
  split; [discriminate |].
  repeat match goal with
         | |- context [if ?b then _ else _] => destruct b
         end; discriminate.
Qed.

Lemma volume_type_named (p : Partition) : In (volume_type p) volume_types.
Proof.
  unfold volume_type, volume_types.
  repeat match goal with
         | |- context [if ?b then _ else _] => destruct b
         end; cbn; auto 10.
Qed.

(** X16.  Every volume that [refresh_volumes] returns is flagged as a
    network drive exactly when its type is "Network Drive"; only a network
    drive has a network path, and a network path starts with two
    backslashes; its type is one of the six type names; and it has a
    label. *)
Theorem refresh_volumes_volume_invariants (env : VolEnv)
    (self_volumes now vs : list Volume) (v : Volume) :
  outcome (refresh_volumes env self_volumes) = inr (now, vs) ->
  In v vs ->
  (v_is_network_drive v = true <-> v_type v = "Network Drive")
  /\ (forall path, v_network_path v = Some path ->
                   v_is_network_drive v = true /\ startswith "\\" path = true)
  /\ In (v_type v) volume_types
  /\ v_label v <> None.
Proof.
  intros Hout Hv.
  destruct (disk_partitions (os env)) as [e | ps] eqn:Hps.
  { destruct (refresh_volumes_failed env self_volumes) as (e' & Hf & _);
      [by rewrite Hps |].
    rewrite Hf in Hout. injection Hout as _ <-. destruct Hv. }
  destruct (forallb (usable env) ps) eqn:Hall.
  - rewrite forallb_forall in Hall.
    rewrite (refresh_volumes_ok env self_volumes ps Hps Hall) in Hout.
    injection Hout as _ <-. apply in_map_iff in Hv as (p & <- & _).
    unfold final_volume, volume_of, network_path_of. cbn.
    split; [apply network_type_iff |].
    split; [| split; [apply volume_type_named | discriminate]].
    intros path. destruct (is_remote_ntfs p); [| discriminate].
    destruct (run (os env) _) as [e | result]; [discriminate |].
    destruct (returncode result =? 0)%Z; [| discriminate].
    destruct (remote_name_search (stdout result)); [| discriminate].
    cbn. intros Hpath. injection Hpath as <-. split; reflexivity.
  - assert (Hex : exists p, In p ps /\ usable env p = false).
    { clear -Hall. induction ps as [| p ps IH]; [discriminate |].
      cbn in Hall. destruct (usable env p) eqn:Hp.
      - destruct (IH Hall) as (q & Hq & Hqu). exists q. split; [by right | exact Hqu].
      - exists p. split; [by left | exact Hp]. }
    destruct (refresh_volumes_failed env self_volumes) as (e' & Hf & _);
      [by rewrite Hps |].
    rewrite Hf in Hout. injection Hout as _ <-. destruct Hv.
Qed.

Lemma refresh_volumes_volume_invariants_witness :
  forallb (fun v => Bool.eqb (v_is_network_drive v)
                             (String.eqb (v_type v) "Network Drive"))
          (snd (match outcome (refresh_volumes windows_env []) with
                | inr r => r
                | inl _ => ([], [])
                end))
  = true.
Proof.
  apply forallb_forall. intros v Hv.
  destruct (refresh_volumes_volume_invariants windows_env []
              (map (final_volume windows_env) three_partitions)
              (map (final_volume windows_env) three_partitions) v eq_refl Hv)
    as (Hiff & _).
  destruct (v_is_network_drive v); destruct (String.eqb_spec (v_type v) "Network Drive");
    try reflexivity; intuition congruence.
Defined.

(** The [elif] chain that names the type of a volume tests in this
    order: a remote NTFS partition is a "Network Drive" wherever it is
    mounted; any other partition mounted at "C:\" is the "System Drive";
    any other partition without a file system type is "Unknown", whatever
    its options (so an optical drive without a disc is "Unknown", not
    "CD/DVD"); and "CD/DVD" and "Removable Drive" are given only to
    partitions with a file system type that are not mounted at "C:\". *)
Theorem volume_type_order (p : Partition) :
  (is_remote_ntfs p = true -> volume_type p = "Network Drive")
  /\ (is_remote_ntfs p = false -> mountpoint p = "C:\" ->
      volume_type p = "System Drive")
  /\ (is_remote_ntfs p = false -> mountpoint p <> "C:\" -> fstype p = EmptyString ->
      volume_type p = "Unknown")
  /\ (volume_type p = "CD/DVD" \/ volume_type p = "Removable Drive" ->
      fstype p <> EmptyString /\ mountpoint p <> "C:\"
      /\ opts p <> EmptyString).
Proof.
  unfold volume_type.
  split; [by intros -> |].
  split; [intros -> ->; reflexivity |].
  split.
  - intros -> Hm ->. apply String.eqb_neq in Hm. by rewrite Hm.
  - destruct (is_remote_ntfs p); [intros [H | H]; discriminate |].
    destruct (String.eqb_spec (mountpoint p) "C:\"); [intros [H | H]; discriminate |].
    destruct (fstype p) eqn:Hf; cbn [truthy negb]; [intros [H | H]; discriminate |].
    destruct (opts p) eqn:Ho; cbn [truthy]; [intros [H | H]; discriminate |].
    intros _. repeat split; [discriminate | assumption | discriminate].
Qed.

Lemma volume_type_order_witness :
  volume_type {| device := "D:\"; mountpoint := "D:\"; fstype := ""; opts := "cdrom" |}
  = "Unknown".
Proof.
  refine (proj1 (proj2 (proj2 (volume_type_order
            {| device := "D:\"; mountpoint := "D:\"; fstype := ""; opts := "cdrom" |})))
            eq_refl _ eq_refl).
  discriminate.
Defined.

End DiskVolumesFacts.

(** ** [DiskManager]: the commands of a call, its refresh included *)

Module DiskProgramFacts.

Import PyStr DiskManager DiskManagerStages DiskManagerFacts DiskManagerPaths
  DiskManagerMapPaths DiskVolumes DiskProgram.

(** *** What [refresh_volumes] does *)

(** the events of a loop are events of its bodies *)
Lemma for_each_trace {A B} (body : A -> Py B) (l : list A) (ev : Event) :
  In ev (trace (for_each body l)) -> exists a, In a l /\ In ev (trace (body a)).
Proof.
  induction l as [| a l IH]; [intros [] |].
  cbn [for_each]. destruct (body a) as [t [e | b]] eqn:Hb.
  - cbn [bind trace fst]. intros Hin. exists a. rewrite Hb. split; [by left | exact Hin].
  - cbn [bind]. destruct (for_each body l) as [t' [e' | bs]];
      cbn [bind ret trace fst] in *; rewrite ?app_nil_r; intros Hin;
      apply in_app_or in Hin as [Hin | Hin];
      try (exists a; rewrite Hb; split; [by left | exact Hin]);
      destruct (IH Hin) as (a' & Ha' & Hev); exists a'; (split; [by right | exact Hev]).
Qed.

(** what a loop returns is what its bodies returned *)
Lemma for_each_outcome {A B} (body : A -> Py B) (l : list A) (bs : list B) :
  outcome (for_each body l) = inr bs ->
  forall b, In b bs -> exists a, In a l /\ outcome (body a) = inr b.
Proof.
  revert bs. induction l as [| a l IH]; intros bs.
  - cbn. intros [= <-] b [].
  - cbn [for_each]. destruct (body a) as [t [e | b0]] eqn:Hb; [discriminate |].
    cbn [bind]. destruct (for_each body l) as [t' [e' | bs']];
      cbn [bind ret outcome snd] in *; [discriminate |].
    intros [= <-] b [<- | Hin].
    + exists a. rewrite Hb. split; [by left | reflexivity].
    + destruct (IH bs' eq_refl b Hin) as (a' & Ha' & Hout).
      exists a'. split; [by right | exact Hout].
Qed.

Lemma make_volume_events (env : VolEnv) (p : Partition) (ev : Event) :
  In ev (trace (make_volume env p)) ->
  ev = Subprocess ["net"; "use"; rstrip_char backslash (device p)]
  \/ exists level msg, ev = Log level msg.
Proof.
  unfold make_volume, subprocess_run.
  destruct (disk_usage env (mountpoint p)) as [total used free percent | | e];
    cbn [bind ret raise app trace fst]; [| | intros []];
    (destruct (is_remote_ntfs p);
     [destruct (run (os env) ["net"; "use"; rstrip_char backslash (device p)])
        as [e | result];
      [| cbn [bind ret raise try_except emit_event app log];
         destruct (returncode result =? 0)%Z] |]);
    cbn; intuition eauto.
Qed.

Lemma make_volume_mountpoint (env : VolEnv) (p : Partition) (v : Volume) :
  outcome (make_volume env p) = inr v -> v_mountpoint v = mountpoint p.
Proof.
  unfold make_volume, subprocess_run.
  destruct (disk_usage env (mountpoint p)) as [total used free percent | | e];
    cbn [bind ret raise app trace fst]; [| | discriminate];
    (destruct (is_remote_ntfs p);
     [destruct (run (os env) ["net"; "use"; rstrip_char backslash (device p)])
        as [e | result];
      [| cbn [bind ret raise try_except emit_event app log];
         destruct (returncode result =? 0)%Z] |]);
    cbn; intros [= <-]; reflexivity.
Qed.

Lemma label_volume_events (env : VolEnv) (v : Volume) (ev : Event) :
  In ev (trace (label_volume env v)) ->
  ev = Subprocess ["cmd"; "/c"; "vol " +:+ rstrip_char backslash (v_mountpoint v)]
  \/ exists level msg, ev = Log level msg.
Proof.
  unfold label_volume, subprocess_run.
  destruct (String.eqb (platform_system env) "Windows" && truthy (v_mountpoint v));
    [destruct (run (os env)
                   ["cmd"; "/c"; "vol " +:+ rstrip_char backslash (v_mountpoint v)])
       as [e | result];
     [| cbn [bind ret raise try_except emit_event app log];
        destruct (returncode result =? 0)%Z;
        [destruct (volume_label_search (stdout result)) |]] |];
    cbn; intuition eauto.
Qed.

(** [refresh_volumes] only runs its two kinds of command, logs and emits *)
Lemma refresh_volumes_all_events (env : VolEnv) (self_volumes : list Volume) :
  List.Forall (is_refresh_event env)
              (trace (DiskVolumes.refresh_volumes env self_volumes)).
Proof.
  unfold DiskVolumes.refresh_volumes.
  destruct (disk_partitions (os env)) as [e | ps] eqn:Hps.
  { cbn. repeat constructor. }
  cbn [bind ret log emit_event app].
  assert (H1 : List.Forall (is_refresh_event env)
                           (trace (for_each (make_volume env) ps))).
  { apply List.Forall_forall. intros ev' Hin.
    apply for_each_trace in Hin as (p & Hp & Hin).
    apply make_volume_events in Hin as [-> | (level & msg & ->)]; [| exact I].
    exists ps, p. auto. }
  pose proof (for_each_outcome (make_volume env) ps) as Hvs.
  destruct (for_each (make_volume env) ps) as [t1 [e1 | vs]];
    cbn [trace fst outcome snd] in H1, Hvs.
  { cbn [bind ret raise try_except log emit emit_event app trace fst].
    apply List.Forall_cons; [exact I |].
    apply List.Forall_app. split; [exact H1 | repeat constructor]. }
  cbn [bind].
  assert (H2 : List.Forall (is_refresh_event env)
                           (trace (for_each (label_volume env) vs))).
  { apply List.Forall_forall. intros ev' Hin.
    apply for_each_trace in Hin as (v & Hv & Hin).
    apply label_volume_events in Hin as [-> | (level & msg & ->)]; [| exact I].
    destruct (Hvs vs eq_refl v Hv) as (p & Hp & Hout).
    rewrite (make_volume_mountpoint env p v Hout).
    exists ps, p. auto. }
  destruct (for_each (label_volume env) vs) as [t2 [e2 | vs2]];
    cbn [trace fst] in H2;
    cbn [bind ret raise try_except log emit emit_event app trace fst];
    repeat first [exact H1 | exact H2 | exact I | apply List.Forall_nil
                 | apply List.Forall_cons | apply List.Forall_app; split].
Qed.

Lemma refresh_volumes_events (env : VolEnv) (self_volumes : list Volume) (ev : Event) :
  In ev (trace (DiskVolumes.refresh_volumes env self_volumes)) ->
  is_refresh_event env ev.
Proof.
  apply (proj1 (List.Forall_forall _ _) (refresh_volumes_all_events env self_volumes)).
Qed.

(** [refresh_volumes] never raises: the marked call always returns *)
Lemma refresh_volumes_never_raises (env : VolEnv) (self_volumes : list Volume) :
  exists r, outcome (DiskVolumes.refresh_volumes env self_volumes) = inr r.
Proof.
  unfold DiskVolumes.refresh_volumes.
  match goal with
  | |- context [try_except ?m (fun e => Some (@?h e))] =>
      destruct (try_except_total m h) as (r & t & Hr & _);
      [intros e; eexists; reflexivity | exists r; exact Hr]
  end.
Qed.

Lemma refresh_commands_shape (env : VolEnv) (self_volumes : list Volume)
    (argv : list string) :
  In argv (refresh_commands env self_volumes) -> is_refresh_command env argv.
Proof.
  unfold refresh_commands. intros Hin.
  apply (refresh_volumes_events env self_volumes (Subprocess argv)).
  revert Hin. generalize (trace (DiskVolumes.refresh_volumes env self_volumes)).
  induction l as [| ev l IH]; [intros [] |].
  destruct ev; cbn [subprocess_calls In]; intros Hin; auto.
  destruct Hin as [<- | Hin]; auto.
Qed.

Lemma refresh_no_win32_call (env : VolEnv) (self_volumes : list Volume) :
  forallb (fun ev => negb (is_win32_call ev))
          (trace (DiskVolumes.refresh_volumes env self_volumes)) = true.
Proof.
  apply forallb_forall. intros ev Hin.
  apply refresh_volumes_events in Hin. by destruct ev.
Qed.

(** *** The trace of the program *)

Lemma whole_trace_no_refresh (env : VolEnv) (self_volumes : list Volume)
    (t : list Event) :
  forallb (fun ev => negb (is_refresh_call ev)) t = true ->
  whole_trace env self_volumes t = t.
Proof.
  induction t as [| ev t IH]; [reflexivity |].
  cbn [forallb]. intros [Hev Ht]%andb_prop.
  destruct ev; try discriminate; cbn [whole_trace]; by rewrite IH.
Qed.

Lemma whole_trace_app (env : VolEnv) (self_volumes : list Volume)
    (t1 t2 : list Event) :
  forallb (fun ev => negb (is_refresh_call ev)) t1 = true ->
  whole_trace env self_volumes (t1 ++ t2) = t1 ++ whole_trace env self_volumes t2.
Proof.
  induction t1 as [| ev t1 IH]; [reflexivity |].
  cbn [forallb]. intros [Hev Ht]%andb_prop.
  destruct ev; try discriminate; cbn [whole_trace app]; by rewrite IH.
Qed.

(** what the method does is part of what the program does *)
Lemma in_whole_trace (env : VolEnv) (self_volumes : list Volume) (t : list Event)
    (ev : Event) :
  In ev t -> In ev (whole_trace env self_volumes t).
Proof.
  revert self_volumes. induction t as [| x t IH]; intros self_volumes; [intros [] |].
  intros [-> | Hin].
  - destruct ev; cbn [whole_trace]; by left.
  - destruct x; cbn [whole_trace]; try (right; by apply IH).
    right. apply in_or_app. right. by apply IH.
Qed.

(** the rest is done by [refresh_volumes] *)
Lemma whole_trace_events (env : VolEnv) (self_volumes : list Volume) (t : list Event)
    (ev : Event) :
  In ev (whole_trace env self_volumes t) -> In ev t \/ is_refresh_event env ev.
Proof.
  revert self_volumes. induction t as [| x t IH]; intros self_volumes; [intros [] |].
  destruct x; cbn [whole_trace];
    try (intros [<- | Hin]; [left; by left |];
         destruct (IH _ Hin); [left; by right | by right]).
  intros [<- | Hin]; [left; by left |].
  apply in_app_or in Hin as [Hin | Hin].
  - right. by apply (refresh_volumes_events env self_volumes).
  - destruct (IH _ Hin); [left; by right | by right].
Qed.

Lemma in_subprocess_calls_inv (argv : list string) (t : list Event) :
  In argv (subprocess_calls t) -> In (Subprocess argv) t.
Proof.
  induction t as [| ev t IH]; [intros [] |].
  destruct ev; cbn [subprocess_calls]; try (intros Hin; right; by apply IH).
  intros [<- | Hin]; [by left | right; by apply IH].
Qed.

(** a command of the program is a command of the method or one of
    [refresh_volumes] *)
Lemma program_commands_from (env : VolEnv) (self_volumes : list Volume) (t : list Event)
    (argv : list string) :
  In argv (subprocess_calls (whole_trace env self_volumes t)) ->
  In argv (subprocess_calls t) \/ is_refresh_command env argv.
Proof.
  intros Hin. apply in_subprocess_calls_inv in Hin.
  apply whole_trace_events in Hin as [Hin | Hin]; [left | by right].
  by apply in_subprocess_calls.
Qed.

Lemma whole_trace_no_win32_call (env : VolEnv) (self_volumes : list Volume)
    (t : list Event) :
  forallb (fun ev => negb (is_win32_call ev)) t = true ->
  forallb (fun ev => negb (is_win32_call ev)) (whole_trace env self_volumes t) = true.
Proof.
  intros Ht. apply forallb_forall. intros ev Hin.
  apply whole_trace_events in Hin as [Hin | Hin].
  - by apply (proj1 (forallb_forall _ _) Ht).
  - by destruct ev.
Qed.

(** the end of a successful call: the log line, the refresh, the signal *)
Lemma whole_trace_tail (env : VolEnv) (self_volumes : list Volume)
    (t : list Event) (line signal : Event) :
  forallb (fun ev => negb (is_refresh_call ev)) t = true ->
  is_refresh_call line = false -> is_refresh_call signal = false ->
  subprocess_calls [line; signal] = [] ->
  subprocess_calls (whole_trace env self_volumes (t ++ [line; RefreshVolumes; signal]))
  = subprocess_calls t ++ refresh_commands env self_volumes.
Proof.
  intros Ht Hline Hsignal Hquiet. rewrite whole_trace_app by exact Ht.
  rewrite subprocess_calls_app. f_equal.
  destruct line; try discriminate; destruct signal; try discriminate;
    cbn [whole_trace subprocess_calls]; rewrite subprocess_calls_app;
    cbn [subprocess_calls]; by rewrite app_nil_r.
Qed.

(** *** [disconnect_network_drive] *)


(** on a machine with Z: mapped, the disconnection of Z: runs the listing,
    the delete and the four commands of the refresh *)
Example disconnect_then_refresh :
  program_commands mapped_windows_env [] (disconnect_network_drive
                                            (os mapped_windows_env) "z")
  = [["net"; "use"]; ["net"; "use"; "z:"; "/delete"; "/y"];
     ["net"; "use"; "Z:"];
     ["cmd"; "/c"; "vol C:"]; ["cmd"; "/c"; "vol D:"]; ["cmd"; "/c"; "vol Z:"]].
Proof. vm_compute. reflexivity. Qed.

(** *** [map_network_drive] *)

(** X7.  With the current Windows credentials ([use_windows_creds] true)
    [map_network_drive] runs the delete of the old mapping and [net use
    <drive> <path> /persistent:...], followed, when and only when it
    reports success, by the commands of [refresh_volumes] ([net use
    <drive>] for the device of a partition, [cmd /c vol <drive>] for its
    mountpoint).  It makes no win32 call, and does and returns the same
    whatever the password argument is. *)
Theorem map_windows_creds_keeps_password_out (env : VolEnv)
    (self_volumes : list Volume)
    (network_path drive_letter username password : string) (reconnect : bool) :
  let letter := map_letter drive_letter in
  let call := map_network_drive (os env) network_path drive_letter true username
                                password reconnect in
  (exists r,
     outcome call = inr r
     /\ program_commands env self_volumes call
        = [net_use_delete letter; net_use_map letter network_path reconnect]
          ++ (if success r then refresh_commands env self_volumes else []))
  /\ (forall argv, In argv (refresh_commands env self_volumes) ->
                   is_refresh_command env argv)
  /\ forallb (fun ev => negb (is_win32_call ev)) (program_trace env self_volumes call)
     = true
  /\ forall password',
       map_network_drive (os env) network_path drive_letter true username password'
                         reconnect = call.
Proof.
  intros letter call. subst call.
  destruct (map_windows_creds_own_commands (os env) network_path drive_letter username
              password reconnect) as (_ & Hwin & Hsame).
  split; [| split; [intros argv; apply refresh_commands_shape |
                    split; [by apply whole_trace_no_win32_call | exact Hsame]]].
  unfold program_commands, program_trace.
  rewrite map_windows_creds_cases. cbv zeta. fold letter. clearbody letter.
  destruct (run (os env) (net_use_map letter network_path reconnect)) as [e | p].
  { eexists. split; reflexivity. }
  destruct (truthy (stdout p)); destruct (truthy (stderr p)); cbn [andb app];
    try destruct (contains "error" (lower (stderr p)));
    (eexists; split; [reflexivity |]);
    cbn [trace fst success app whole_trace subprocess_calls];
    rewrite ?subprocess_calls_app; cbn [whole_trace subprocess_calls];
    rewrite ?app_nil_r; reflexivity.
Qed.

(** the report of a mapping that is taken to have succeeded *)
Lemma report_success (env : Env) (network_path letter username : string)
    (reconnect : bool) (out err : string) (process : option CompletedProcess) :
  truthy err && contains "error" (lower err) = false ->
  report env network_path letter false username reconnect
         {| l_stdout := Some out; l_stderr := err; l_process := process |}
  = ((if truthy out then [Log DEBUG ("Command output: " +:+ out)] else [])
     ++ (if truthy err then [Log DEBUG ("Command error: " +:+ err)] else [])
     ++ [Log INFO ("Mapping network drive " +:+ network_path +:+ " to " +:+ letter);
         RefreshVolumes; mounted network_path letter],
     inr {| success := true; error := None; warning := None |}).
Proof.
  intros Hok. unfold report.
  cbn [l_stdout l_stderr l_process read_local negb when bind ret app].
  rewrite Hok.
  destruct (truthy out); destruct (truthy err); reflexivity.
Qed.

Lemma diagnose_no_refresh (env : Env) (network_path letter username : string)
    (reconnect : bool) (process : option CompletedProcess) :
  forallb (fun ev => negb (is_refresh_call ev))
          (trace (diagnose env network_path letter username reconnect process)) = true.
Proof.
  unfold diagnose, index, subprocess_run, log, emit_event.
  destruct (nth_error (split backslash network_path) 2) as [server |];
    cbn [bind try_except ret raise app]; [| reflexivity].
  destruct (run env ["ping"; "-n"; "1"; server]) as [e | p]; reflexivity.
Qed.

(** a mapping that is reported as failed does not refresh the volumes *)
Lemma report_failure_no_refresh (env : Env) (network_path letter username : string)
    (reconnect : bool) (out err : string) (process : option CompletedProcess) :
  truthy err && contains "error" (lower err) = true ->
  forallb (fun ev => negb (is_refresh_call ev))
          (trace (report env network_path letter false username reconnect
                         {| l_stdout := Some out; l_stderr := err;
                            l_process := process |})) = true.
Proof.
  intros Hfailed. unfold report.
  cbn [l_stdout l_stderr l_process read_local negb when bind ret app].
  rewrite Hfailed.
  pose proof (diagnose_no_refresh env network_path letter username reconnect process)
    as Hd.
  destruct (diagnose_total env network_path letter username reconnect process)
    as (td & Hdiagnose & _).
  rewrite Hdiagnose in Hd |- *. cbn [trace fst] in Hd.
  destruct (truthy out); destruct (truthy err); try discriminate Hfailed;
    cbn [andb when]; unfold log, emit, emit_event;
    cbn [bind ret app trace fst forallb is_refresh_call negb andb];
    rewrite ?forallb_app, ?Hd; reflexivity.
Qed.

(** the commands of a mapping with custom credentials, after the attempt
    has left its three locals *)
Lemma map_custom_program (env : VolEnv) (self_volumes : list Volume)
    (network_path drive_letter username password : string) (reconnect : bool)
    (t1 : list Event) (out err : string) (process : option CompletedProcess) :
  let letter := map_letter drive_letter in
  let call := map_network_drive (os env) network_path drive_letter false username
                                password reconnect in
  map_with_custom_creds (os env) network_path letter username password reconnect
  = (t1, inr {| l_stdout := Some out; l_stderr := err; l_process := process |}) ->
  forallb (fun ev => negb (is_refresh_call ev)) t1 = true ->
  if truthy err && contains "error" (lower err) then
    program_trace env self_volumes call = trace call
  else
    program_commands env self_volumes call
    = net_use_delete letter :: subprocess_calls t1 ++ refresh_commands env self_volumes.
Proof.
  intros letter call Hattempt Hquiet. subst call letter.
  unfold program_commands, program_trace.
  rewrite map_custom_stages, Hattempt. cbn [bind].
  destruct (truthy err && contains "error" (lower err)) eqn:Htest.
  - pose proof (report_failure_no_refresh (os env) network_path
                  (map_letter drive_letter) username reconnect out err process Htest)
      as Hr.
    destruct (report_bound (os env) network_path (map_letter drive_letter) username
                reconnect out err process) as (t & Hreport & _).
    rewrite Hreport in Hr |- *. cbn [trace fst] in Hr.
    cbn [try_except trace fst].
    apply whole_trace_no_refresh. cbn [forallb is_refresh_call negb andb].
    by rewrite forallb_app, Hquiet, Hr.
  - rewrite (report_success _ _ _ _ _ _ _ _ Htest).
    cbn [try_except trace fst whole_trace subprocess_calls]. f_equal.
    rewrite app_assoc, app_assoc.
    rewrite whole_trace_tail; [| | reflexivity | reflexivity | reflexivity].
    + f_equal. rewrite !subprocess_calls_app.
      destruct (truthy out); destruct (truthy err); cbn [subprocess_calls];
        by rewrite ?app_nil_r.
    + rewrite !forallb_app, Hquiet.
      by destruct (truthy out); destruct (truthy err).
Qed.

(** X9.  With custom credentials, when the win32 call succeeds,
    [map_network_drive] returns success and hands the password to
    [WNetAddConnection2] and to no command: it runs the delete of the old
    mapping, then the commands of [refresh_volumes] ([net use <drive>] for
    the device of a partition, [cmd /c vol <drive>] for its mountpoint),
    and never the [net use ... /user:] command that carries the password;
    [volume_mounted] is emitted for the drive. *)
Theorem map_custom_creds_win32_success (env : VolEnv) (self_volumes : list Volume)
    (network_path drive_letter username password : string) (reconnect : bool) :
  let letter := map_letter drive_letter in
  let call := map_network_drive (os env) network_path drive_letter false username
                                password reconnect in
  import_win32 (os env) = None ->
  WNetAddConnection2 (os env) letter network_path password username
                     (connect_flags reconnect) = None ->
  outcome call = inr {| success := true; error := None; warning := None |}
  /\ program_commands env self_volumes call
     = net_use_delete letter :: refresh_commands env self_volumes
  /\ (forall argv, In argv (refresh_commands env self_volumes) ->
                   is_refresh_command env argv)
  /\ ~ In (net_use_map_user letter network_path username password reconnect)
          (program_commands env self_volumes call)
  /\ In (Win32AddConnection letter network_path password username
                            (connect_flags reconnect))
        (program_trace env self_volumes call)
  /\ In (mounted network_path letter) (program_trace env self_volumes call).
Proof.
  intros letter call Himp Hw. subst call.
  destruct (map_custom_creds_win32_own (os env) network_path drive_letter username
              password reconnect Himp Hw) as (Hout & _ & Hcall & Hmounted).
  pose proof (map_custom_program env self_volumes network_path drive_letter username
                password reconnect _ _ _ _
                (attempt_wnet_ok (os env) network_path letter username password
                                 reconnect Himp Hw) eq_refl) as Hcommands.
  cbn [truthy andb subprocess_calls app] in Hcommands. fold letter in Hcommands.
  split; [exact Hout |]. split; [exact Hcommands |].
  split; [intros argv; apply refresh_commands_shape |].
  split.
  - rewrite Hcommands. intros [Heq | Hin]; [discriminate Heq |].
    apply refresh_commands_shape in Hin as (ps & p & _ & _ & [Heq | Heq]);
      discriminate Heq.
  - split; by apply in_whole_trace.
Qed.

Lemma map_custom_creds_win32_success_witness :
  program_commands mapped_windows_env []
    (map_network_drive (os mapped_windows_env) "\\fileserver\share" "Y" false "alice"
                       "hunter2" true)
  = [["net"; "use"; "Y:"; "/delete"; "/y"];
     ["net"; "use"; "Z:"];
     ["cmd"; "/c"; "vol C:"]; ["cmd"; "/c"; "vol D:"]; ["cmd"; "/c"; "vol Z:"]].
Proof.
  destruct (map_custom_creds_win32_success mapped_windows_env []
              "\\fileserver\share" "Y" "alice" "hunter2" true eq_refl eq_refl)
    as (_ & Hcommands & _).
  exact Hcommands.
Defined.

(** X10.  With custom credentials, when the win32 call fails with error
    1219 and the connections can be listed, [map_network_drive] does not
    run the fallback command that carries the password.  Its success flag
    is the outcome of the test for "error" in the message it built: it
    reports success, although nothing was mapped, unless that message,
    through the network path or the user name, contains "error".  When it
    reports success it runs the delete, the listing and then the commands
    of [refresh_volumes]; when it reports a failure it runs the delete,
    the listing and at most a ping, and does not refresh the volumes. *)
Theorem map_error_1219 (env : VolEnv) (self_volumes : list Volume)
    (network_path drive_letter username password : string) (reconnect : bool)
    (msg : string) (lp : CompletedProcess) :
  let letter := map_letter drive_letter in
  let call := map_network_drive (os env) network_path drive_letter false username
                                password reconnect in
  import_win32 (os env) = None ->
  WNetAddConnection2 (os env) letter network_path password username
                     (connect_flags reconnect) = Some (PyWinError 1219 msg) ->
  run (os env) net_use_list = inr lp ->
  exists r,
    outcome call = inr r
    /\ success r
       = negb (contains "error"
                        (lower (multiple_connections_message network_path username)))
    /\ (success r = true ->
        program_commands env self_volumes call
        = [net_use_delete letter; net_use_list] ++ refresh_commands env self_volumes)
    /\ (success r = false ->
        program_trace env self_volumes call = trace call
        /\ forall argv, In argv (program_commands env self_volumes call) ->
                        argv = net_use_delete letter \/ argv = net_use_list
                        \/ is_ping argv)
    /\ (forall argv, In argv (refresh_commands env self_volumes) ->
                     is_refresh_command env argv)
    /\ ~ In (net_use_map_user letter network_path username password reconnect)
            (program_commands env self_volumes call).
Proof.
  intros letter call Himp Hw Hlist. subst call.
  destruct (map_error_1219_own (os env) network_path drive_letter username password
              reconnect msg lp Himp Hw Hlist) as (r & Hout & Hs & Hown & Hnot).
  pose proof (attempt_1219 (os env) network_path letter username password reconnect msg
                Himp Hw) as Hattempt.
  rewrite Hlist in Hattempt.
  pose proof (map_custom_program env self_volumes network_path drive_letter username
                password reconnect _ _ _ _ Hattempt) as Hprogram.
  cbv zeta in Hprogram. fold letter in Hprogram.
  rewrite truthy_message in Hprogram. cbn [andb] in Hprogram.
  assert (Hquiet : forallb (fun ev => negb (is_refresh_call ev))
                     ([Log DEBUG ("Using win32 API to map drive with custom credentials for user: "
                                  +:+ username);
                       Win32AddConnection letter network_path password username
                                          (connect_flags reconnect);
                       Log ERROR ("Win32 API error: 1219 - " +:+ msg);
                       Log WARNING ("Multiple connection error detected for server: "
                                    +:+ server_name_of network_path);
                       Subprocess net_use_list]
                      ++ (if truthy (stdout lp)
                          then [Log DEBUG ("Existing connections:" +:+ nl +:+ stdout lp)]
                          else [])) = true).
  { by destruct (truthy (stdout lp)). }
  specialize (Hprogram Hquiet).
  exists r. split; [exact Hout |]. split; [exact Hs |].
  rewrite Hs.
  destruct (contains "error"
              (lower (multiple_connections_message network_path username)));
    cbn [negb].
  - split; [discriminate |].
    split; [intros _; split; [exact Hprogram |] |].
    { unfold program_commands. rewrite Hprogram. exact Hown. }
    split; [intros argv; apply refresh_commands_shape |].
    unfold program_commands. rewrite Hprogram. exact Hnot.
  - assert (Hcommands : program_commands env self_volumes
                          (map_network_drive (os env) network_path drive_letter false
                                             username password reconnect)
                        = [net_use_delete letter; net_use_list]
                          ++ refresh_commands env self_volumes).
    { rewrite Hprogram. rewrite subprocess_calls_app.
      by destruct (truthy (stdout lp)). }
    split; [intros _; exact Hcommands |].
    split; [discriminate |].
    split; [intros argv; apply refresh_commands_shape |].
    rewrite Hcommands. cbn [app In].
    intros [Heq | [Heq | Hin]]; [discriminate Heq | discriminate Heq |].
    apply refresh_commands_shape in Hin as (ps & p & _ & _ & [Heq | Heq]);
      discriminate Heq.
Qed.

Lemma map_error_1219_witness :
  exists r,
    outcome (map_network_drive (os busy_windows_env) "\\fileserver\share" "Y" false
                               "alice" "hunter2" true) = inr r
    /\ success r = true
    /\ program_commands busy_windows_env []
         (map_network_drive (os busy_windows_env) "\\fileserver\share" "Y" false
                            "alice" "hunter2" true)
       = [["net"; "use"; "Y:"; "/delete"; "/y"]; ["net"; "use"];
          ["net"; "use"; "Z:"];
          ["cmd"; "/c"; "vol C:"]; ["cmd"; "/c"; "vol D:"]; ["cmd"; "/c"; "vol Z:"]].
Proof.
  destruct (map_error_1219 busy_windows_env [] "\\fileserver\share" "Y" "alice"
              "hunter2" true "Multiple connections to a server are not allowed."
              listing eq_refl eq_refl eq_refl) as (r & Hout & Hs & Hcommands & _).
  exists r. split; [exact Hout |]. split; [exact Hs |].
  exact (Hcommands Hs).
Defined.

(** X12.  With custom credentials, when the win32 modules cannot be
    imported, [map_network_drive] makes no win32 call.  Its success flag
    is the outcome of the test for "error" in "Failed to import win32
    modules: <message>": it reports success, although nothing was mapped,
    unless the import message contains "error".  When it reports success
    it runs the delete and then the commands of [refresh_volumes]; when it
    reports a failure it runs the delete and at most a ping, and does not
    refresh the volumes. *)
Theorem map_import_error (env : VolEnv) (self_volumes : list Volume)
    (network_path drive_letter username password : string) (reconnect : bool)
    (msg : string) :
  let letter := map_letter drive_letter in
  let call := map_network_drive (os env) network_path drive_letter false username
                                password reconnect in
  import_win32 (os env) = Some msg ->
  exists r,
    outcome call = inr r
    /\ success r
       = negb (contains "error" (lower ("Failed to import win32 modules: " +:+ msg)))
    /\ forallb (fun ev => negb (is_win32_call ev))
               (program_trace env self_volumes call) = true
    /\ (success r = true ->
        program_commands env self_volumes call
        = net_use_delete letter :: refresh_commands env self_volumes)
    /\ (success r = false ->
        program_trace env self_volumes call = trace call
        /\ forall argv, In argv (program_commands env self_volumes call) ->
                        argv = net_use_delete letter \/ is_ping argv)
    /\ (forall argv, In argv (refresh_commands env self_volumes) ->
                     is_refresh_command env argv).
Proof.
  intros letter call Himp. subst call.
  destruct (map_import_error_own (os env) network_path drive_letter username password
              reconnect msg Himp) as (r & Hout & Hs & Hwin & Hown).
  pose proof (map_custom_program env self_volumes network_path drive_letter username
                password reconnect _ _ _ _
                (attempt_import_error (os env) network_path letter username password
                                      reconnect msg Himp) eq_refl) as Hprogram.
  cbv zeta in Hprogram. fold letter in Hprogram.
  change (truthy ("Failed to import win32 modules: " +:+ msg)) with true in Hprogram.
  cbn [andb subprocess_calls app] in Hprogram.
  exists r. split; [exact Hout |]. split; [exact Hs |].
  split; [by apply whole_trace_no_win32_call |].
  rewrite Hs.
  destruct (contains "error" (lower ("Failed to import win32 modules: " +:+ msg)));
    cbn [negb].
  - split; [discriminate |].
    split; [intros _; split; [exact Hprogram |] |].
    { unfold program_commands. rewrite Hprogram. exact Hown. }
    intros argv; apply refresh_commands_shape.
  - split; [intros _; exact Hprogram |].
    split; [discriminate |].
    intros argv; apply refresh_commands_shape.
Qed.

Lemma map_import_error_witness :
  exists r,
    outcome (map_network_drive (os no_pywin32_windows_env) "\\fileserver\share" "Y"
                               false "alice" "hunter2" true) = inr r
    /\ success r = true
    /\ program_commands no_pywin32_windows_env []
         (map_network_drive (os no_pywin32_windows_env) "\\fileserver\share" "Y" false
                            "alice" "hunter2" true)
       = [["net"; "use"; "Y:"; "/delete"; "/y"];
          ["net"; "use"; "Z:"];
          ["cmd"; "/c"; "vol C:"]; ["cmd"; "/c"; "vol D:"]; ["cmd"; "/c"; "vol Z:"]].
Proof.
  destruct (map_import_error no_pywin32_windows_env [] "\\fileserver\share" "Y" "alice"
              "hunter2" true "No module named 'win32wnet'" eq_refl)
    as (r & Hout & Hs & _ & Hcommands & _).
  exists r. split; [exact Hout |]. split; [exact Hs |].
  exact (Hcommands Hs).
Defined.

End DiskProgramFacts.

(** ** [int] and [str] *)

Module PyIntFacts.
Import PyStr PyInt.

Fixpoint uval (d : Decimal.uint) (acc : Z) : Z :=
  match d with
  | Decimal.Nil => acc
  | Decimal.D0 l => uval l (10 * acc + 0)
  | Decimal.D1 l => uval l (10 * acc + 1)
  | Decimal.D2 l => uval l (10 * acc + 2)
  | Decimal.D3 l => uval l (10 * acc + 3)
  | Decimal.D4 l => uval l (10 * acc + 4)
  | Decimal.D5 l => uval l (10 * acc + 5)
  | Decimal.D6 l => uval l (10 * acc + 6)
  | Decimal.D7 l => uval l (10 * acc + 7)
  | Decimal.D8 l => uval l (10 * acc + 8)
  | Decimal.D9 l => uval l (10 * acc + 9)
  end.

Lemma digits_string_of_uint (d : Decimal.uint) (acc : Z) :
  digits (NilEmpty.string_of_uint d) acc true = Some (uval d acc).
Proof.
  revert acc. induction d; intros acc; cbn [NilEmpty.string_of_uint digits uval];
    try reflexivity; apply IHd.
Qed.

Lemma uval_acc (d : Decimal.uint) (acc : positive) :
  uval d (Z.pos acc) = Z.pos (Pos.of_uint_acc d acc).
Proof.
  revert acc. induction d; intros acc; cbn [uval Pos.of_uint_acc];
    try reflexivity;
    match goal with
    | |- uval _ ?z = Z.pos (Pos.of_uint_acc _ ?p) =>
        replace z with (Z.pos p) by lia; apply IHd
    end.
Qed.

Lemma uval_of_uint (d : Decimal.uint) : uval d 0 = Z.of_uint d.
Proof.
  unfold Z.of_uint. induction d; cbn [uval Pos.of_uint]; try reflexivity;
    try exact IHd; apply (uval_acc d).
Qed.

Lemma first_digit (d : Decimal.uint) :
  d <> Decimal.Nil ->
  exists c r, NilEmpty.string_of_uint d = String c r /\ is_digit c = true.
Proof. destruct d; intros Hd; try (by destruct Hd); eexists _, _; split; reflexivity. Qed.

Lemma digits_start (s : string) (acc : Z) c r :
  s = String c r -> is_digit c = true -> digits s acc false = digits s acc true.
Proof. intros -> Hc. cbn. by rewrite Hc. Qed.


(** a string of digits, with a sign before it or not, has no blank to
    strip *)
Lemma is_digit_not_blank (c : ascii) : is_digit c = true -> is_blank c = false.
Proof.
  unfold is_digit, is_blank. intros Hc. apply andb_true_iff in Hc as [H1 H2].
  apply Nat.leb_le in H1, H2.
  repeat match goal with
         | |- context [(?a <=? ?b)%nat] => destruct (Nat.leb_spec a b)
         | |- context [(?a =? ?b)%nat] => destruct (Nat.eqb_spec a b)
         end; cbn; try reflexivity; lia.
Qed.

Lemma all_digits (d : Decimal.uint) :
  Forall (fun c => is_digit c = true) (list_ascii_of_string (NilEmpty.string_of_uint d)).
Proof. induction d; cbn; constructor; try reflexivity; exact IHd. Qed.

Lemma skip_trailing_no_blank (s : string) :
  Forall (fun c => is_blank c = false) (list_ascii_of_string s) -> skip_trailing s = s.
Proof.
  induction s as [| c r IH]; [reflexivity |]. cbn [list_ascii_of_string skip_trailing].
  intros Hs. inversion Hs as [| ? ? Hc Hr]; subst. rewrite (IH Hr).
  destruct r; [by rewrite Hc | reflexivity].
Qed.

Lemma skip_blanks_no_blank (s : string) :
  Forall (fun c => is_blank c = false) (list_ascii_of_string s) -> skip_blanks s = s.
Proof.
  intros Hs. unfold skip_blanks.
  assert (skip_leading s = s) as ->; [| by apply skip_trailing_no_blank].
  destruct s as [| c r]; [reflexivity |]. cbn. inversion Hs; subst.
  by match goal with H : is_blank c = false |- _ => rewrite H end.
Qed.

Lemma count_digits_length (s : string) : (count_digits s <= String.length s)%nat.
Proof. induction s as [| c r IH]; cbn; [lia |]. destruct (is_digit c); lia. Qed.

Lemma py_int_uint (d : Decimal.uint) :
  d <> Decimal.Nil ->
  (String.length (NilEmpty.string_of_uint d) <= max_str_digits)%nat ->
  py_int (NilEmpty.string_of_uint d) = inr (Z.of_uint d)
  /\ py_int (String "-" (NilEmpty.string_of_uint d)) = inr (- Z.of_uint d)%Z.
Proof.
  intros Hd Hlen. destruct (first_digit d Hd) as (c & r & Hs & Hc).
  pose proof (all_digits d) as Hall.
  assert (Hns : Forall (fun c => is_blank c = false)
                       (list_ascii_of_string (NilEmpty.string_of_uint d))).
  { eapply Forall_impl; [exact Hall |]. apply is_digit_not_blank. }
  pose proof (count_digits_length (NilEmpty.string_of_uint d)) as Hcount.
  assert (Hdig : digits (NilEmpty.string_of_uint d) 0 false = Some (Z.of_uint d)).
  { rewrite (digits_start _ 0 c r Hs Hc), digits_string_of_uint. f_equal.
    apply uval_of_uint. }
  split; unfold py_int; cbv zeta.
  - rewrite (skip_blanks_no_blank _ Hns).
    assert (parse_literal (NilEmpty.string_of_uint d) = Some (Z.of_uint d)) as ->.
    { rewrite <- Hdig. rewrite Hs. unfold parse_literal.
      assert (Ascii.eqb c "+" = false) as ->
        by (apply Ascii.eqb_neq; intros ->; discriminate Hc).
      assert (Ascii.eqb c "-" = false) as ->
        by (apply Ascii.eqb_neq; intros ->; discriminate Hc).
      reflexivity. }
    destruct (Nat.ltb_spec max_str_digits (count_digits (NilEmpty.string_of_uint d)));
      [lia | reflexivity].
  - rewrite skip_blanks_no_blank by (cbn; constructor; [reflexivity | exact Hns]).
    cbn [parse_literal Ascii.eqb Bool.eqb]. rewrite Hdig. cbn [option_map].
    cbn [count_digits]. change (is_digit "-") with false. cbv iota.
    destruct (Nat.ltb_spec max_str_digits (count_digits (NilEmpty.string_of_uint d)));
      [lia | reflexivity].
Qed.

Lemma string_of_uint_nonnil (d : Decimal.uint) :
  d <> Decimal.Nil -> NilZero.string_of_uint d = NilEmpty.string_of_uint d.
Proof. destruct d; intros Hd; [by destruct Hd | reflexivity ..]. Qed.

(** [int(str(z)) == z] *)
Lemma py_int_of_Z (z : Z) :
  (String.length (of_Z (Z.abs z)) <= max_str_digits)%nat ->
  py_int (of_Z z) = inr z.
Proof.
  unfold of_Z. destruct z as [| p | p]; intros Hlen; [reflexivity | |];
    pose proof (Unsigned.to_uint_nonnil p) as Hnil;
    [change (String.length (NilZero.string_of_uint (Pos.to_uint p))
             <= max_str_digits)%nat in Hlen;
     change (py_int (NilZero.string_of_uint (Pos.to_uint p)) = inr (Z.pos p))
    |change (String.length (NilZero.string_of_uint (Pos.to_uint p))
             <= max_str_digits)%nat in Hlen;
     change (py_int (String "-" (NilZero.string_of_uint (Pos.to_uint p)))
             = inr (Z.neg p))];
    rewrite (string_of_uint_nonnil _ Hnil) in Hlen |- *.
  - rewrite (proj1 (py_int_uint _ Hnil Hlen)). f_equal.
    unfold Z.of_uint. by rewrite Unsigned.of_to.
  - rewrite (proj2 (py_int_uint _ Hnil Hlen)). f_equal.
    unfold Z.of_uint. by rewrite Unsigned.of_to.
Qed.

(** [int] skips the blanks around a literal and refuses one padded with
    a unit separator, which [str.strip()] would drop *)
Example py_int_keeps_separators :
  py_int (String (ascii_of_nat 9) "12 ") = inr 12%Z
  /\ py_int (String (ascii_of_nat 31) "12")
     = inl (invalid_literal (String (ascii_of_nat 31) "12"))
  /\ strip (String (ascii_of_nat 31) "12") = "12".
Proof. repeat split; reflexivity. Qed.

End PyIntFacts.

(** ** [DiskManager.get_disks] *)

Module PhysicalDisksFacts.

Import PyStr PyInt PhysicalDisks.

Lemma map_same {A} (f : A -> A) (l : list A) :
  (forall a, f a = a) -> map f l = l.
Proof. intros Hf. induction l as [| a l IH]; [reflexivity |]. cbn. by rewrite Hf, IH. Qed.

Lemma Forall2_map_self {A B} (R : A -> B -> Prop) (f : A -> B) (l : list A) :
  (forall a, In a l -> R a (f a)) -> Forall2 R l (map f l).
Proof.
  induction l as [| a l IH]; intros HR; constructor.
  - apply HR. by left.
  - apply IH. intros; apply HR; by right.
Qed.

Lemma disk_info_parses (disk : Win32_DiskDrive) (z : Z) :
  size_or_zero (Size disk) = inr z -> disk_info disk = inr (disk_info_of disk).
Proof. intros Hz. unfold disk_info, disk_info_of. by rewrite Hz. Qed.

Lemma read_drives_ok (drives : list Win32_DiskDrive)
    (disk_map : gmap (option Z) Win32_DiskDrive) (disks : list DiskInfo) :
  (forall disk, In disk drives -> exists z, size_or_zero (Size disk) = inr z) ->
  read_drives drives disk_map disks
  = inr (foldl (fun m disk => <[Index disk := disk]> m) disk_map drives,
         disks ++ map disk_info_of drives).
Proof.
  revert disk_map disks. induction drives as [| disk drives IH]; intros disk_map disks Hok.
  - cbn. by rewrite app_nil_r.
  - cbn [read_drives foldl map].
    destruct (Hok disk (or_introl eq_refl)) as [z Hz].
    rewrite (disk_info_parses disk z Hz).
    rewrite IH by (intros; apply Hok; by right).
    by rewrite <- app_assoc.
Qed.

Lemma read_drives_fails (drives : list Win32_DiskDrive)
    (disk_map : gmap (option Z) Win32_DiskDrive) (disks : list DiskInfo)
    (disk : Win32_DiskDrive) (e : PyExc) :
  In disk drives -> size_or_zero (Size disk) = inl e ->
  exists e', read_drives drives disk_map disks = inl e'.
Proof.
  revert disk_map disks. induction drives as [| d drives IH]; intros disk_map disks Hin He;
    [destruct Hin |].
  cbn [read_drives]. unfold disk_info at 1.
  destruct (size_or_zero (Size d)) as [e' | z] eqn:Hd; [by exists e' |].
  destruct Hin as [-> | Hin]; [congruence |]. by apply IH.
Qed.

Lemma attach_ok (partition : Win32_DiskPartition) (caption : option string)
    (disks : list DiskInfo) (info : PartitionInfo) :
  partition_info partition = inr info ->
  attach partition caption disks
  = (map (fun disk => if caption_eqb (di_name disk) caption
                      then append_partition disk info else disk) disks, None).
Proof.
  intros Hinfo. induction disks as [| disk rest IH]; [reflexivity |].
  cbn [attach map]. rewrite Hinfo, IH.
  by destruct (caption_eqb (di_name disk) caption).
Qed.

Lemma attach_fails (partition : Win32_DiskPartition) (caption : option string)
    (disks : list DiskInfo) (e : PyExc) :
  partition_info partition = inl e ->
  attach partition caption disks
  = (disks, if existsb (fun disk => caption_eqb (di_name disk) caption) disks
            then Some e else None).
Proof.
  intros Hinfo. induction disks as [| disk rest IH]; [reflexivity |].
  cbn [attach existsb]. rewrite Hinfo, IH.
  by destruct (caption_eqb (di_name disk) caption).
Qed.

(** one partition: what is returned, and that nothing but warnings is
    logged *)
Lemma place_partition_ok (disk_map : gmap (option Z) Win32_DiskDrive)
    (partition : Win32_DiskPartition) (disks : list DiskInfo) :
  outcome (place_partition disk_map partition disks)
  = inr (map (fun disk =>
                match contributes disk_map (di_name disk) partition with
                | Some info => append_partition disk info
                | None => disk
                end) disks)
  /\ Forall (fun ev => exists msg, ev = Log WARNING msg)
            (trace (place_partition disk_map partition disks)).
Proof.
  unfold place_partition, contributes.
  destruct (DiskIndex partition) as [disk_index |]; cbn [int_of_index].
  - destruct (disk_map !! Some disk_index) as [drive |].
    + destruct (partition_info partition) as [e | info] eqn:Hinfo.
      * rewrite (attach_fails _ _ _ e Hinfo).
        destruct (existsb _ disks); cbn;
          (split; [f_equal; symmetry; apply map_same; intros d;
                   by destruct (caption_eqb _ _) |]);
          [repeat constructor; by eexists | constructor].
      * rewrite (attach_ok _ _ _ info Hinfo). cbn. split; [| constructor].
        f_equal. apply map_ext. intros d. by destruct (caption_eqb _ _).
    + cbn. split; [| constructor]. f_equal. symmetry. by apply map_same.
  - cbn. split; [| repeat constructor; by eexists].
    f_equal. symmetry. by apply map_same.
Qed.

Lemma add_partitions_nil (disk : DiskInfo) : add_partitions disk [] = disk.
Proof. destruct disk. unfold add_partitions. cbn. by rewrite app_nil_r. Qed.

Lemma place_partitions_ok (disk_map : gmap (option Z) Win32_DiskDrive)
    (partitions : list Win32_DiskPartition) (disks : list DiskInfo) :
  outcome (place_partitions disk_map partitions disks)
  = inr (map (fun disk =>
                add_partitions disk
                  (omap (contributes disk_map (di_name disk)) partitions)) disks)
  /\ Forall (fun ev => exists msg, ev = Log WARNING msg)
            (trace (place_partitions disk_map partitions disks)).
Proof.
  revert disks. induction partitions as [| p ps IH]; intros disks.
  - cbn. split; [| constructor]. f_equal. symmetry.
    apply map_same. intros d. apply add_partitions_nil.
  - cbn [place_partitions].
    destruct (place_partition_ok disk_map p disks) as [Hout Htr].
    destruct (place_partition disk_map p disks) as [t [e | disks']];
      cbn in Hout, Htr; [discriminate |].
    injection Hout as ->. cbn [bind].
    match goal with
    | |- context [place_partitions disk_map ps ?l] =>
        destruct (IH l) as [Hout' Htr'];
        destruct (place_partitions disk_map ps l) as [t' [e' | disks'']]
    end; cbn in Hout', Htr'; [discriminate |].
    injection Hout' as ->. cbn. split; [| by apply Forall_app].
    f_equal. rewrite map_map. apply map_ext. intros d.
    destruct (contributes disk_map (di_name d) p) as [info |] eqn:Hc.
    + unfold add_partitions, append_partition. cbn. by rewrite <- app_assoc.
    + reflexivity.
Qed.


(** every drive's size can be read, or the size of one of them cannot *)
Lemma sizes_readable_or_not (drives : list Win32_DiskDrive) :
  (forall disk, In disk drives -> exists z, size_or_zero (Size disk) = inr z)
  \/ exists disk e, In disk drives /\ size_or_zero (Size disk) = inl e.
Proof.
  induction drives as [| d l [IH | (disk & e & Hin & He)]].
  - left. intros disk [].
  - destruct (size_or_zero (Size d)) as [e | z] eqn:Hd.
    + right. exists d, e. split; [by left | exact Hd].
    + left. intros disk [<- | Hin]; [by exists z | by apply IH].
  - right. exists disk, e. split; [by right | exact He].
Qed.

Lemma get_disks_ok (env : WmiEnv) (drives : list Win32_DiskDrive)
    (partitions : list Win32_DiskPartition) :
  import_wmi env = None -> WMI env = None ->
  query_DiskDrive env = inr drives ->
  query_DiskPartition env = inr partitions ->
  (forall disk, In disk drives -> exists z, size_or_zero (Size disk) = inr z) ->
  outcome (get_disks env) = inr (disks_of drives partitions)
  /\ Forall (fun ev => exists msg, ev = Log WARNING msg) (trace (get_disks env)).
Proof.
  intros Himp Hwmi Hdrives Hparts Hsizes. unfold get_disks.
  rewrite Himp, Hwmi, Hdrives, Hparts. cbn [bind ret lift app].
  rewrite (read_drives_ok drives ∅ [] Hsizes). cbn [bind ret lift app fst snd].
  destruct (place_partitions_ok (index_map drives) partitions (map disk_info_of drives))
    as [Hout Htr].
  fold (index_map drives).
  destruct (place_partitions (index_map drives) partitions (map disk_info_of drives))
    as [t [e | disks]]; cbn in Hout, Htr; [discriminate |].
  injection Hout as ->. cbn. split; [| exact Htr].
  unfold disks_of. by rewrite map_map.
Qed.

Lemma get_disks_failed (env : WmiEnv) :
  import_wmi env = None ->
  (WMI env <> None
   \/ (exists e, query_DiskDrive env = inl e)
   \/ (exists drives disk e,
         query_DiskDrive env = inr drives /\ In disk drives
         /\ size_or_zero (Size disk) = inl e)
   \/ (exists e, query_DiskPartition env = inl e)) ->
  exists e,
    get_disks env
    = ([Log ERROR ("Error getting physical disks: " +:+ str_exc e)], inr []).
Proof.
  intros Himp Hfail. unfold get_disks. rewrite Himp.
  destruct (WMI env) as [e |]; [by exists e |].
  destruct Hfail as [Hw | Hfail]; [by destruct Hw |].
  cbn [bind ret app].
  destruct (query_DiskDrive env) as [e | drives] eqn:Hdrives; [by exists e |].
  cbn [bind ret lift app].
  destruct (sizes_readable_or_not drives) as [Hsizes | (disk & e & Hin & He)].
  - rewrite (read_drives_ok drives ∅ [] Hsizes). cbn [bind ret lift app fst snd].
    destruct Hfail as [(e & He) | [(drives' & disk & e & Heq & Hin & He) | (e & He)]];
      [discriminate | |].
    + injection Heq as <-. destruct (Hsizes disk Hin) as [z Hz]. congruence.
    + rewrite He. by exists e.
  - destruct (read_drives_fails drives ∅ [] disk e Hin He) as [e' ->]. by exists e'.
Qed.


(** X17.  [get_disks] imports [wmi] before its [try]: when the import
    fails the ImportError leaves the function and nothing is logged; when
    it succeeds, nothing leaves the function, whatever the WMI calls do:
    it returns a list. *)
Theorem get_disks_raises_import_error_only (env : WmiEnv) :
  (forall msg, import_wmi env = Some msg ->
               get_disks env = ([], inl (ImportError msg)))
  /\ (import_wmi env = None -> exists disks, outcome (get_disks env) = inr disks)
  /\ (forall e, outcome (get_disks env) = inl e ->
                exists msg, import_wmi env = Some msg /\ e = ImportError msg).
Proof.
  assert (Hret : import_wmi env = None ->
                 exists disks, outcome (get_disks env) = inr disks).
  { intros Himp. unfold get_disks. rewrite Himp.
    match goal with
    | |- context [try_except ?m (fun e => Some (@?h e))] =>
        destruct (try_except_total m h) as (r & t & Hr & _);
        [intros e; eexists; reflexivity | exists r; exact Hr]
    end. }
  split; [| split; [exact Hret |]].
  - intros msg Himp. unfold get_disks. by rewrite Himp.
  - intros e He. destruct (import_wmi env) as [msg |] eqn:Himp.
    + exists msg. split; [reflexivity |].
      unfold get_disks in He. rewrite Himp in He. cbn in He. congruence.
    + destruct (Hret eq_refl) as [disks Hd]. congruence.
Qed.

(** X18.  When [wmi.WMI()] raises, or one of the two queries raises, or
    the size of one drive is no integer literal, [get_disks] returns the
    empty list, also when every drive had been read before the failure,
    and logs the one error. *)
Theorem get_disks_all_or_nothing (env : WmiEnv) :
  import_wmi env = None ->
  (WMI env <> None
   \/ (exists e, query_DiskDrive env = inl e)
   \/ (exists drives disk e,
         query_DiskDrive env = inr drives /\ In disk drives
         /\ size_or_zero (Size disk) = inl e)
   \/ (exists e, query_DiskPartition env = inl e)) ->
  exists e,
    get_disks env
    = ([Log ERROR ("Error getting physical disks: " +:+ str_exc e)], inr []).
Proof. apply get_disks_failed. Qed.

Lemma get_disks_all_or_nothing_witness :
  get_disks no_partitions
  = ([Log ERROR "Error getting physical disks: <x_wmi: Unexpected COM Error>"], inr []).
Proof.
  destruct (get_disks_all_or_nothing no_partitions eq_refl) as [e He].
  - right. right. right. by eexists.
  - reflexivity.
Defined.

(** X19.  When nothing raises, [get_disks] returns one dictionary per
    drive, in the order of the query: its name is the caption, its size
    the integer read from [Size] (0 for a null or empty [Size]), a
    property the drive lacks is 'Unknown', and its partitions are, in the
    order of the partition query, those whose [DiskIndex] is the index of a
    drive with the same caption and whose size can be read.  Only warnings
    are logged. *)
Theorem get_disks_one_entry_per_drive (env : WmiEnv)
    (drives : list Win32_DiskDrive) (partitions : list Win32_DiskPartition) :
  import_wmi env = None -> WMI env = None ->
  query_DiskDrive env = inr drives ->
  query_DiskPartition env = inr partitions ->
  (forall disk, In disk drives -> exists z, size_or_zero (Size disk) = inr z) ->
  exists disks,
    outcome (get_disks env) = inr disks
    /\ Forall2
         (fun disk info =>
            di_name info = Caption disk
            /\ di_model info = Model disk
            /\ size_or_zero (Size disk) = inr (di_size info)
            /\ di_interface info = attr_or (InterfaceType disk) (VStr "Unknown")
            /\ di_serial info = attr_or (SerialNumber disk) (VStr "Unknown")
            /\ di_status info = attr_or (Status disk) (VStr "Unknown")
            /\ di_firmware info = attr_or (FirmwareRevision disk) (VStr "Unknown")
            /\ di_partitions info
               = omap (contributes (index_map drives) (Caption disk)) partitions)
         drives disks
    /\ Forall (fun ev => exists msg, ev = Log WARNING msg) (trace (get_disks env)).
Proof.
  intros Himp Hwmi Hdrives Hparts Hsizes.
  destruct (get_disks_ok env drives partitions Himp Hwmi Hdrives Hparts Hsizes)
    as [Hout Htr].
  exists (disks_of drives partitions). split; [exact Hout |]. split; [| exact Htr].
  unfold disks_of. generalize (index_map drives). intros m.
  clear -Hsizes. induction drives as [| d l IH]; constructor.
  - destruct (Hsizes d (or_introl eq_refl)) as [z Hz]. cbn. rewrite Hz.
    repeat split; reflexivity.
  - apply IH. intros; apply Hsizes; by right.
Qed.

Lemma get_disks_one_entry_per_drive_witness :
  exists disks,
    outcome (get_disks two_models) = inr disks
    /\ map di_name disks = [Some "Samsung SSD 970 EVO 1TB"; Some "WDC WD40EZRZ"]
    /\ map (fun info => map pi_name (di_partitions info)) disks
       = [[Some "Disk #0, Partition #0"]; [Some "Disk #1, Partition #0"]].
Proof.
  destruct (get_disks_one_entry_per_drive two_models _ _ eq_refl eq_refl eq_refl eq_refl)
    as (disks & Hout & _ & _).
  - intros disk [<- | [<- | []]]; eexists; reflexivity.
  - exists disks. split; [exact Hout |].
    vm_compute in Hout. injection Hout as <-. split; reflexivity.
Defined.

(** X20.  The partitions are matched to the disks by caption, not by
    index: in whatever [get_disks] returns, two disks of the same name have
    the same list of partitions, so each of two drives of one model is
    given the partitions of both. *)
Theorem get_disks_same_caption_same_partitions (env : WmiEnv)
    (disks : list DiskInfo) (a b : DiskInfo) :
  outcome (get_disks env) = inr disks ->
  In a disks -> In b disks ->
  di_name a = di_name b ->
  di_partitions a = di_partitions b.
Proof.
  intros Hout Ha Hb Hname.
  destruct (import_wmi env) as [msg |] eqn:Himp.
  { unfold get_disks in Hout. rewrite Himp in Hout. discriminate. }
  assert (Hempty : forall t, get_disks env = (t, inr []) ->
                             di_partitions a = di_partitions b).
  { intros t Heq. rewrite Heq in Hout. injection Hout as <-. destruct Ha. }
  destruct (WMI env) as [e |] eqn:Hwmi.
  { destruct (get_disks_failed env Himp) as [e' He']; [left; congruence |]. eauto. }
  destruct (query_DiskDrive env) as [e | drives] eqn:Hdrives.
  { destruct (get_disks_failed env Himp) as [e' He']; [right; left; eauto |]. eauto. }
  destruct (query_DiskPartition env) as [e | partitions] eqn:Hparts.
  { destruct (get_disks_failed env Himp) as [e' He']; [right; right; right; eauto |].
    eauto. }
  destruct (sizes_readable_or_not drives) as [Hsizes | (disk & e & Hin & He)].
  - destruct (get_disks_ok env drives partitions Himp Hwmi Hdrives Hparts Hsizes)
      as [Hok _].
    rewrite Hok in Hout. injection Hout as <-.
    unfold disks_of in Ha, Hb.
    apply in_map_iff in Ha as (da & <- & _). apply in_map_iff in Hb as (db & <- & _).
    cbn in Hname |- *. by rewrite Hname.
  - destruct (get_disks_failed env Himp) as [e' He'];
      [right; right; left; by exists drives, disk, e |]. eauto.
Qed.

Lemma get_disks_same_caption_same_partitions_witness :
  exists a b,
    outcome (get_disks twin_drives) = inr [a; b]
    /\ di_partitions a = di_partitions b
    /\ map pi_name (di_partitions a)
       = [Some "Disk #0, Partition #0"; Some "Disk #1, Partition #0"].
Proof.
  eexists _, _. split; [vm_compute; reflexivity |]. split; [| reflexivity].
  refine (get_disks_same_caption_same_partitions twin_drives _ _ _ eq_refl _ _ eq_refl).
  - left. reflexivity.
  - right. left. reflexivity.
Defined.

Lemma index_map_lookup (drives : list Win32_DiskDrive)
    (m : gmap (option Z) Win32_DiskDrive) (k : option Z) (drive : Win32_DiskDrive) :
  foldl (fun m disk => <[Index disk := disk]> m) m drives !! k = Some drive ->
  (In drive drives /\ Index drive = k) \/ m !! k = Some drive.
Proof.
  revert m. induction drives as [| d l IH]; intros m Hk; [by right |].
  cbn [foldl] in Hk. destruct (IH _ Hk) as [[Hin Hidx] | Hm].
  - left. split; [by right | exact Hidx].
  - destruct (decide (Index d = k)) as [Heq | Hne].
    + subst k. rewrite lookup_insert_eq in Hm. injection Hm as <-.
      left. split; [by left | reflexivity].
    + rewrite lookup_insert_ne in Hm by exact Hne. by right.
Qed.

Lemma index_map_untouched (drives : list Win32_DiskDrive)
    (m : gmap (option Z) Win32_DiskDrive) (k : option Z) :
  ~ In k (map Index drives) ->
  foldl (fun m disk => <[Index disk := disk]> m) m drives !! k = m !! k.
Proof.
  revert m. induction drives as [| d l IH]; intros m Hk; [reflexivity |].
  cbn [foldl]. rewrite IH by (intros Hin; apply Hk; by right).
  apply lookup_insert_ne. intros Heq. apply Hk. by left.
Qed.

Lemma index_map_own (drives : list Win32_DiskDrive)
    (m : gmap (option Z) Win32_DiskDrive) (drive : Win32_DiskDrive) :
  List.NoDup (map Index drives) -> In drive drives ->
  foldl (fun m disk => <[Index disk := disk]> m) m drives !! Index drive = Some drive.
Proof.
  revert m. induction drives as [| d l IH]; intros m Hnd Hin; [destruct Hin |].
  cbn [map] in Hnd. inversion Hnd as [| ? ? Hd Hl]; subst.
  cbn [foldl]. destruct Hin as [-> | Hin]; [| by apply IH].
  rewrite index_map_untouched by exact Hd. apply lookup_insert_eq.
Qed.

Lemma caption_eqb_eq (a b : option string) : caption_eqb a b = true <-> a = b.
Proof.
  destruct a as [x |], b as [y |]; cbn; try (split; [discriminate | congruence]);
    [| tauto].
  rewrite String.eqb_eq. split; congruence.
Qed.

Lemma NoDup_map_inj {A B} (f : A -> B) (l : list A) (a b : A) :
  List.NoDup (map f l) -> In a l -> In b l -> f a = f b -> a = b.
Proof.
  induction l as [| x l IH]; intros Hnd Ha Hb Hf; [destruct Ha |].
  cbn [map] in Hnd. inversion Hnd as [| ? ? Hx Hl]; subst.
  destruct Ha as [-> | Ha], Hb as [-> | Hb]; try reflexivity.
  - destruct Hx. rewrite Hf. by apply in_map.
  - destruct Hx. rewrite <- Hf. by apply in_map.
  - by apply IH.
Qed.

(** X21.  When the drives have pairwise different captions and pairwise
    different indexes and nothing raises, the partitions [get_disks] lists
    under a drive are exactly the partitions whose [DiskIndex] is the index
    of that drive and whose size can be read. *)
Theorem get_disks_partitions_by_index (env : WmiEnv)
    (drives : list Win32_DiskDrive) (partitions : list Win32_DiskPartition) :
  import_wmi env = None -> WMI env = None ->
  query_DiskDrive env = inr drives ->
  query_DiskPartition env = inr partitions ->
  (forall disk, In disk drives -> exists z, size_or_zero (Size disk) = inr z) ->
  List.NoDup (map Caption drives) ->
  List.NoDup (map Index drives) ->
  exists disks,
    outcome (get_disks env) = inr disks
    /\ Forall2
         (fun disk info =>
            forall pinfo,
              In pinfo (di_partitions info)
              <-> exists partition disk_index,
                    In partition partitions
                    /\ DiskIndex partition = Some disk_index
                    /\ Index disk = Some disk_index
                    /\ partition_info partition = inr pinfo)
         drives disks.
Proof.
  intros Himp Hwmi Hdrives Hparts Hsizes Hcaptions Hindexes.
  destruct (get_disks_ok env drives partitions Himp Hwmi Hdrives Hparts Hsizes)
    as [Hout _].
  exists (disks_of drives partitions). split; [exact Hout |].
  unfold disks_of.
  assert (Hown : forall disk, In disk drives ->
            forall pinfo,
              In pinfo (omap (contributes (index_map drives) (Caption disk)) partitions)
              <-> exists partition disk_index,
                    In partition partitions
                    /\ DiskIndex partition = Some disk_index
                    /\ Index disk = Some disk_index
                    /\ partition_info partition = inr pinfo).
  { intros disk Hdisk pinfo. rewrite <- list_elem_of_In, list_elem_of_omap.
    split.
    - intros (p & Hp & Hc). apply list_elem_of_In in Hp.
      unfold contributes in Hc.
      destruct (DiskIndex p) as [i |] eqn:Hi; [| discriminate].
      destruct (index_map drives !! Some i) as [drv |] eqn:Hm; [| discriminate].
      destruct (caption_eqb (Caption disk) (Caption drv)) eqn:Hcap; [| discriminate].
      destruct (partition_info p) as [e | info] eqn:Hinfo; [discriminate |].
      injection Hc as ->.
      apply index_map_lookup in Hm as [[Hin Hidx] | Hm];
        [| by rewrite lookup_empty in Hm].
      apply caption_eqb_eq in Hcap.
      assert (disk = drv) as -> by exact (NoDup_map_inj Caption drives _ _ Hcaptions
                                            Hdisk Hin Hcap).
      by exists p, i.
    - intros (p & i & Hp & Hi & Hidx & Hinfo). exists p.
      split; [by apply list_elem_of_In |].
      unfold contributes. rewrite Hi, <- Hidx.
      unfold index_map. rewrite (index_map_own drives ∅ disk Hindexes Hdisk).
      rewrite (proj2 (caption_eqb_eq _ _) eq_refl). by rewrite Hinfo. }
  apply Forall2_map_self. intros disk Hdisk pinfo. cbn. by apply Hown.
Qed.

Lemma get_disks_partitions_by_index_witness :
  exists disks,
    outcome (get_disks two_models) = inr disks
    /\ map (fun info => map pi_size (di_partitions info)) disks
       = [[104857600%Z]; [4000769794048%Z]].
Proof.
  destruct (get_disks_partitions_by_index two_models _ _ eq_refl eq_refl eq_refl eq_refl)
    as (disks & Hout & _).
  - intros disk [<- | [<- | []]]; eexists; reflexivity.
  - repeat constructor; cbn; intuition discriminate.
  - repeat constructor; cbn; intuition discriminate.
  - exists disks. split; [exact Hout |].
    vm_compute in Hout. injection Hout as <-. reflexivity.
Defined.

End PhysicalDisksFacts.

(** ** [PackagesTree.find_program] and [clear_programs] *)

Module PackagesTreeFind.

Import PackagesTree.

Lemma find_program_app_new (self : PackagesTree) (item : QTreeWidgetItem)
    (name : string) :
  find_program self name = None ->
  find_program (addTopLevelItem self item) name
  = if String.eqb (text item 0) name then Some item else None.
Proof.
  unfold find_program, addTopLevelItem. cbn [top_level_items].
  induction (top_level_items self) as [| x l IH]; cbn [find app].
  - intros _. by destruct (String.eqb (text item 0) name).
  - destruct (String.eqb (text x 0) name); [discriminate | exact IH].
Qed.

(** [find_program] answers an item of the tree whose name column is
    the name asked for, and answers None exactly when no item of the tree
    has that name; the comparison is exact, so a name that differs in case
    or by a blank is not found. *)
Theorem find_program_by_name (self : PackagesTree) (name : string) :
  (forall item, find_program self name = Some item ->
                In item (top_level_items self)
                /\ dict_get (get_program item) "name" = Some name)
  /\ (find_program self name = None
      <-> forall item, In item (top_level_items self) -> text item 0 <> name).
Proof.
  unfold find_program. split.
  - intros item Hfind. apply find_some in Hfind as [Hin Heq].
    apply String.eqb_eq in Heq. split; [exact Hin |]. cbn. by rewrite Heq.
  - split.
    + intros Hnone item Hin. apply String.eqb_neq.
      exact (find_none _ _ Hnone item Hin).
    + intros Hno. destruct (find _ _) as [item |] eqn:Hfind; [| reflexivity].
      apply find_some in Hfind as [Hin Heq]. apply String.eqb_eq in Heq.
      by destruct (Hno item Hin).
Qed.

(** X22.  A program added under a name the tree does not hold yet is the
    one [find_program] answers for that name, and [get_program] reads its
    six fields back unchanged; the search for any other name is answered as
    before. *)
Theorem add_then_find_program (self : PackagesTree)
    (name version publisher install_date install_location registry_key : string) :
  find_program self name = None ->
  let tree := fst (add_program self name version publisher install_date
                               install_location registry_key) in
  let item := snd (add_program self name version publisher install_date
                               install_location registry_key) in
  find_program tree name = Some item
  /\ option_map get_program (find_program tree name)
     = Some [("name", name); ("version", version); ("publisher", publisher);
             ("install_date", install_date);
             ("install_location", install_location);
             ("registry_key", registry_key)]
  /\ forall other, other <> name ->
                   find_program tree other = find_program self other.
Proof.
  intros Hnew tree item.
  assert (Hfind : find_program tree name = Some item).
  { subst tree item. unfold add_program. cbn [fst snd].
    rewrite (find_program_app_new _ _ _ Hnew). cbn. by rewrite String.eqb_refl. }
  split; [exact Hfind |]. split; [by rewrite Hfind |].
  intros other Hother. subst tree. unfold add_program, find_program, addTopLevelItem.
  cbn [fst top_level_items].
  induction (top_level_items self) as [| x l IH]; cbn [find app].
  - cbn. apply not_eq_sym, String.eqb_neq in Hother. by rewrite Hother.
  - by destruct (String.eqb (text x 0) other).
Qed.

Lemma add_then_find_program_witness :
  option_map get_program
    (find_program (fst (add_program setup_ui "7-Zip" "23.01" "Igor Pavlov"
                                    "20240105" "C:\Program Files\7-Zip" "7-Zip"))
                  "7-Zip")
  = Some [("name", "7-Zip"); ("version", "23.01"); ("publisher", "Igor Pavlov");
          ("install_date", "20240105");
          ("install_location", "C:\Program Files\7-Zip");
          ("registry_key", "7-Zip")].
Proof.
  exact (proj1 (proj2 (add_then_find_program setup_ui "7-Zip" "23.01" "Igor Pavlov"
                         "20240105" "C:\Program Files\7-Zip" "7-Zip" eq_refl))).
Defined.

(** [add_program] never replaces a row: the tree grows by one item
    each time, also when the name is already there, and every earlier item
    stays; after [clear_programs] no name is found any more, the header is
    kept, and a name added next is found with the item just added. *)
Theorem add_program_keeps_rows_clear_drops_them (self : PackagesTree)
    (name version publisher install_date install_location registry_key : string) :
  let added := add_program self name version publisher install_date
                           install_location registry_key in
  let readded := add_program (clear_programs self) name version publisher
                             install_date install_location registry_key in
  length (top_level_items (fst added)) = S (length (top_level_items self))
  /\ (forall item, In item (top_level_items self) ->
                   In item (top_level_items (fst added)))
  /\ In (snd added) (top_level_items (fst added))
  /\ (exists item, find_program (fst added) name = Some item
                   /\ text item 0 = name)
  /\ (forall other, find_program (clear_programs self) other = None)
  /\ header_labels (clear_programs self) = header_labels self
  /\ find_program (fst readded) name = Some (snd readded).
Proof.
  cbv zeta. unfold add_program, addTopLevelItem, clear_programs.
  cbn [fst snd top_level_items header_labels].
  split; [rewrite length_app; cbn; lia |].
  split; [intros item Hin; apply in_or_app; by left |].
  split; [apply in_or_app; right; by left |].
  split.
  - unfold find_program. cbn [top_level_items].
    destruct (find _ _) as [item |] eqn:Hfind.
    + exists item. split; [reflexivity |].
      apply find_some in Hfind as [_ Heq]. by apply String.eqb_eq.
    + exfalso.
      pose proof (find_none _ _ Hfind
                    {| columns := [name; version; publisher; install_date;
                                   install_location; registry_key] |}) as Hno.
      cbn in Hno. rewrite String.eqb_refl in Hno.
      discriminate Hno. apply in_or_app. right. by left.
  - split; [reflexivity |]. split; [reflexivity |].
    unfold find_program. cbn. by rewrite String.eqb_refl.
Qed.

End PackagesTreeFind.

(** ** [StartupTree] *)

Module StartupTreeFacts.

Import PackagesTree StartupTree.

(** X23.  [get_startup_item] on the item [add_startup_item] returns reads
    the four strings back unchanged under the keys name, command, location
    and type; when the tree held no entry of that name, [find_startup_item]
    answers that item for the name; [find_startup_item] answers only items
    of the tree whose name column is the name asked for; and after
    [clear_startup_items] nothing is found. *)
Theorem add_startup_item_round_trip (self : StartupTree)
    (name command location item_type : string) :
  let tree := fst (add_startup_item self name command location item_type) in
  let item := snd (add_startup_item self name command location item_type) in
  get_startup_item item
  = [("name", name); ("command", command); ("location", location);
     ("type", item_type)]
  /\ (find_startup_item self name = None -> find_startup_item tree name = Some item)
  /\ (forall other found,
        find_startup_item tree other = Some found ->
        In found (startup_items tree)
        /\ dict_get (get_startup_item found) "name" = Some other)
  /\ (forall other, find_startup_item (clear_startup_items tree) other = None).
Proof.
  cbv zeta. unfold add_startup_item, addTopLevelItem, clear_startup_items,
    find_startup_item.
  cbn [fst snd startup_items startup_header_labels].
  split; [reflexivity |]. split; [| split; [| reflexivity]].
  - induction (startup_items self) as [| x l IH]; cbn [find app].
    + intros _. cbn. by rewrite String.eqb_refl.
    + destruct (String.eqb (text x 0) name); [discriminate | exact IH].
  - intros other found Hfind. apply find_some in Hfind as [Hin Heq].
    apply String.eqb_eq in Heq. split; [exact Hin |]. cbn. by rewrite Heq.
Qed.

End StartupTreeFacts.

(** ** [RemoteHandler.connect] *)

Module RemoteHandlerConnect.

Import RemoteHandler.

Section Connect.

Context {M : Type} `{RemoteManagerAPI M}.

Variable ConnectionDialog_exec : M -> M * bool.
Variable ui_raises : Event -> option PyExc.

(** X24.  [connect] touches the main window only when the connection
    dialog was accepted and the manager then reports a connection; it then
    reads the manager's host and makes three calls, in this order: the
    connection status, the status line, and the enabling of the remote
    features, which is therefore the last.  [connect] has no [try]: an
    exception raised by the reading of the host or by any one of the three
    calls leaves [connect], and the calls after it are not made. *)
Theorem connect_enables_after_status (self : RemoteHandler M) :
  let m := fst (ConnectionDialog_exec (remote_manager self)) in
  let accepted := snd (ConnectionDialog_exec (remote_manager self)) in
  let run := connect ConnectionDialog_exec ui_raises self in
  (accepted && rm_is_connected m = false -> run = ([], inr (with_manager self m)))
  /\ (accepted && rm_is_connected m = true ->
      match rm_connection_host m with
      | inl e => run = ([], inl e)
      | inr host =>
          let set_connection_status := SetConnectionStatus true (Some host) in
          let set_status := SetStatus ("Connected to " +:+ host) in
          let update_remote_state := UpdateRemoteState true in
          match ui_raises set_connection_status with
          | Some e => run = ([set_connection_status], inl e)
          | None =>
              match ui_raises set_status with
              | Some e => run = ([set_connection_status; set_status], inl e)
              | None =>
                  match ui_raises update_remote_state with
                  | Some e =>
                      run = ([set_connection_status; set_status;
                              update_remote_state], inl e)
                  | None =>
                      run = ([set_connection_status; set_status;
                              update_remote_state], inr (with_manager self m))
                  end
              end
          end
      end)
  /\ (In (UpdateRemoteState true) (trace run) ->
      accepted && rm_is_connected m = true
      /\ exists host,
           rm_connection_host m = inr host
           /\ trace run = [SetConnectionStatus true (Some host);
                           SetStatus ("Connected to " +:+ host);
                           UpdateRemoteState true]).
Proof.
  cbv zeta. unfold connect.
  destruct (ConnectionDialog_exec (remote_manager self)) as [m accepted].
  cbn [fst snd with_manager remote_manager].
  destruct accepted; cbn [andb];
    [destruct (rm_is_connected m) |];
    try (split; [reflexivity |]; split; [discriminate | intros []]).
  split; [discriminate |].
  unfold lift, ui_call, enable_remote_features, ui_call.
  destruct (rm_connection_host m) as [e | host];
    [split; [reflexivity | intros []] |].
  cbn [bind ret raise emit_event app trace fst].
  destruct (ui_raises (SetConnectionStatus true (Some host)));
    [split; [reflexivity | cbn; intuition discriminate] |].
  cbn [bind ret raise emit_event app trace fst].
  destruct (ui_raises (SetStatus ("Connected to " +:+ host)));
    [split; [reflexivity | cbn; intuition discriminate] |].
  cbn [bind ret raise emit_event app trace fst].
  destruct (ui_raises (UpdateRemoteState true));
    (split; [reflexivity |]; intros _; split; [reflexivity |]; by exists host).
Qed.

End Connect.

Import OneHostManager.

Lemma connect_enables_after_status_witness :
  connect OneHostManager.dialog_connects OneHostManager.status_line_broken
          OneHostManager.idle_handler
  = ([SetConnectionStatus true (Some "srv01"); SetStatus "Connected to srv01"],
     inl (OtherError "wrapped C/C++ object has been deleted")).
Proof.
  exact (proj1 (proj2 (connect_enables_after_status OneHostManager.dialog_connects
                         OneHostManager.status_line_broken
                         OneHostManager.idle_handler))
               eq_refl).
Defined.

End RemoteHandlerConnect.

(** ** [ProcessesTree] *)

Module ProcessesTreeFacts.

Import PyStr PyInt PackagesTree ProcessesTree.

Section Formats.

Variables float datetime : Type.
Variable truediv : Z -> Z -> float.
Variable format_1f : float -> string.
Variable strftime : datetime -> string -> string.
Variable float_of_string : string -> PyExc + float.

Lemma add_process_get_process (self : ProcessesTree) (name : string) (pid : Z)
    (status : string) (cpu_percent : float) (memory : Z) (username : string)
    (create_time : datetime) :
  (String.length (of_Z (Z.abs pid)) <= max_str_digits)%nat ->
  get_process float float_of_string
    (snd (add_process float datetime truediv format_1f strftime self name pid status
                      cpu_percent memory username create_time))
  = match float_of_string (DiskVolumes.rstrip_char "%" (format_1f cpu_percent)) with
    | inl e => inl e
    | inr cpu =>
        inr {| pd_name := name;
               pd_pid := pid;
               pd_status := status;
               pd_cpu_percent := cpu;
               pd_memory :=
                 if (memory <=? 1024 * 1024 * 1024)%Z
                 then format_1f (truediv memory (1024 * 1024)) +:+ " MB"
                 else format_1f (truediv memory (1024 * 1024 * 1024)) +:+ " GB";
               pd_username := username;
               pd_started := strftime create_time "%Y-%m-%d %H:%M:%S" |}
    end.
Proof.
  intros Hlen. unfold get_process, add_process. cbn [snd text columns nth].
  rewrite (PyIntFacts.py_int_of_Z pid Hlen).
  destruct (float_of_string _) as [e | cpu]; [reflexivity |].
  unfold mem_str. rewrite Z.leb_antisym. by destruct (_ <? memory)%Z.
Qed.

(** the items [find_process] answers *)
Lemma find_process_sound (self : ProcessesTree) (pid : Z) (item : QTreeWidgetItem) :
  find_process self pid = Some item ->
  In item (process_items self) /\ text item 1 = of_Z pid.
Proof.
  unfold find_process. intros Hfind. apply find_some in Hfind as [Hin Heq].
  by apply String.eqb_eq in Heq.
Qed.

Lemma find_process_added (self : ProcessesTree) (item : QTreeWidgetItem) (pid : Z) :
  find_process self pid = None -> text item 1 = of_Z pid ->
  find_process (addTopLevelItem self item) pid = Some item.
Proof.
  unfold find_process, addTopLevelItem. cbn [process_items]. intros Hnone Hitem.
  induction (process_items self) as [| x l IH]; cbn [find app] in *.
  - by rewrite Hitem, String.eqb_refl.
  - destruct (String.eqb (text x 1) (of_Z pid)); [discriminate | by apply IH].
Qed.

(** X25.  A process id survives the tree.  [get_process] on the item
    [add_process] returns reads the id back as the same integer, through
    [str] and [int], with the name, the status and the user name unchanged,
    the memory as the text shown (in GB only above 1024**3 bytes) and the
    CPU load as the float read from its text of one decimal; a text that
    [float] refuses makes [get_process] raise.  Every item [find_process]
    answers for the id is an item of the tree from which [get_process]
    reads that id, and the item added for an id the tree did not hold is
    the one found for it. *)
Theorem process_id_round_trip (self : ProcessesTree) (name : string) (pid : Z)
    (status : string) (cpu_percent : float) (memory : Z) (username : string)
    (create_time : datetime) :
  (String.length (of_Z (Z.abs pid)) <= max_str_digits)%nat ->
  let tree := fst (add_process float datetime truediv format_1f strftime self name pid
                               status cpu_percent memory username create_time) in
  let item := snd (add_process float datetime truediv format_1f strftime self name pid
                               status cpu_percent memory username create_time) in
  get_process float float_of_string item
  = match float_of_string (DiskVolumes.rstrip_char "%" (format_1f cpu_percent)) with
    | inl e => inl e
    | inr cpu =>
        inr {| pd_name := name;
               pd_pid := pid;
               pd_status := status;
               pd_cpu_percent := cpu;
               pd_memory :=
                 if (memory <=? 1024 * 1024 * 1024)%Z
                 then format_1f (truediv memory (1024 * 1024)) +:+ " MB"
                 else format_1f (truediv memory (1024 * 1024 * 1024)) +:+ " GB";
               pd_username := username;
               pd_started := strftime create_time "%Y-%m-%d %H:%M:%S" |}
    end
  /\ (forall found details,
        find_process tree pid = Some found ->
        In found (process_items tree)
        /\ (get_process float float_of_string found = inr details ->
            pd_pid details = pid))
  /\ (find_process self pid = None -> find_process tree pid = Some item).
Proof.
  intros Hlen tree item. split; [by apply add_process_get_process |]. split.
  - intros found details Hfind. apply find_process_sound in Hfind as [Hin Htext].
    split; [exact Hin |]. unfold get_process.
    rewrite Htext, (PyIntFacts.py_int_of_Z pid Hlen).
    destruct (float_of_string _); [discriminate |]. by intros [= <-].
  - intros Hnone. by apply find_process_added.
Qed.

End Formats.

Lemma process_id_round_trip_witness :
  get_process string text_float_of_string
    (snd (add_process string string text_truediv (fun x => x) text_strftime
                      setup_ui "python.exe" 4242 "running" "12.5"
                      (1024 * 1024 * 1024) "alice" "2024-01-05 10:00:00"))
  = inr {| pd_name := "python.exe"; pd_pid := 4242; pd_status := "running";
           pd_cpu_percent := "12.5"; pd_memory := "1024.0 MB";
           pd_username := "alice"; pd_started := "2024-01-05 10:00:00" |}.
Proof.
  refine (proj1 (process_id_round_trip string string text_truediv (fun x => x)
                   text_strftime text_float_of_string setup_ui "python.exe" 4242
                   "running" "12.5" (1024 * 1024 * 1024) "alice"
                   "2024-01-05 10:00:00" _)).
  vm_compute. lia.
Defined.

End ProcessesTreeFacts.


(** ** [VariableOperations] *)

Module VariableOperationsFacts.

Import VariableOperations.
Local Open Scope op_scope.

Lemma add_all_ok (self : Panel) (items : list (string * string)) (var_type : string) :
  (forall a, view_raises self a = None) ->
  add_all self items var_type = (view_adds items var_type, inr tt).
Proof.
  intros Hview. induction items as [| [name value] items IH]; [reflexivity |].
  cbn [add_all view_adds map]. unfold view_call. rewrite Hview, IH. reflexivity.
Qed.

Lemma filter_view_adds (items : list (string * string)) (var_type : string) :
  List.filter is_view (view_adds items var_type) = view_adds items var_type
  /\ List.filter is_change (view_adds items var_type) = [].
Proof.
  unfold view_adds. induction items as [| item items [IH1 IH2]]; [by split |].
  cbn [map List.filter is_view is_change]. split; [by rewrite IH1 | exact IH2].
Qed.

(** the manager call of [add_variable] and of the second half of
    [edit_variable] *)
Lemma set_branch (self : Panel) (var_type name value : string) :
  (if String.eqb var_type "System"
   then call (SetSystemVariable name value) (set_system_variable self name value)
   else call (SetUserVariable name value) (set_user_variable self name value))
  = ([set_call var_type name value], set_answer self var_type name value).
Proof.
  unfold set_call, set_answer, call.
  destruct (String.eqb var_type "System");
    [destruct (set_system_variable self name value)
    | destruct (set_user_variable self name value)]; reflexivity.
Qed.

Lemma delete_branch (self : Panel) (var_type name : string) :
  (if String.eqb var_type "System"
   then call (DeleteSystemVariable name) (delete_system_variable self name)
   else call (DeleteUserVariable name) (delete_user_variable self name))
  = ([delete_call var_type name], delete_answer self var_type name).
Proof.
  unfold delete_call, delete_answer, call.
  destruct (String.eqb var_type "System");
    [destruct (delete_system_variable self name)
    | destruct (delete_user_variable self name)]; reflexivity.
Qed.

Lemma is_change_set (var_type name value : string) :
  is_change (set_call var_type name value) = true
  /\ is_view (set_call var_type name value) = false.
Proof. unfold set_call. by destruct (String.eqb var_type "System"). Qed.

Lemma is_change_delete (var_type name : string) :
  is_change (delete_call var_type name) = true
  /\ is_view (delete_call var_type name) = false.
Proof. unfold delete_call. by destruct (String.eqb var_type "System"). Qed.

(** the [except] clauses: the error is logged and shown; what leaves is
    what [show_error] raises *)
Lemma try_report (self : Panel) (t : list Action) (r : PyExc + unit)
    (msg : PyExc -> string) :
  try_except (t, r)
    (fun e => act (LogError (msg e)) ;;; dialog_call self (ShowError (msg e)))
  = match r with
    | inr u => (t, inr u)
    | inl e =>
        (t ++ [LogError (msg e); ShowError (msg e)],
         match dialog_raises self (ShowError (msg e)) with
         | Some e' => inl e'
         | None => inr tt
         end)
    end.
Proof.
  destruct r as [e | u]; [| reflexivity].
  unfold try_except, dialog_call, act, bind.
  by destruct (dialog_raises self (ShowError (msg e))).
Qed.

(** keeps the [except] clause folded while the body is evaluated *)
Ltac fold_handler handler :=
  match goal with
  | |- context [try_except _ ?h] => set (handler := h)
  end.

(** what leaves an [except] clause is what [show_error] raised *)
Lemma leaves_by_show_error (self : Panel) (msg : string) (e : PyExc) :
  match dialog_raises self (ShowError msg) with
  | Some e' => inl e'
  | None => inr tt
  end = (inl e : PyExc + unit) ->
  exists m, dialog_raises self (ShowError m) = Some e.
Proof.
  intros H. exists msg.
  destruct (dialog_raises self (ShowError msg)); [by inversion H | discriminate].
Qed.

(** what [add_variable] does once the dialog was accepted with a
    variable *)
Lemma add_variable_accepted (self : Panel) (dialog : Dialog)
    (name value var_type : string) :
  create_add_dialog self None = inr dialog ->
  exec dialog = inr true ->
  get_variable dialog = inr (name, value, var_type) ->
  add_variable self
  = try_except
      (success <- ([set_call var_type name value],
                   set_answer self var_type name value) ;;
       if success : bool then
         view_call self (ViewAdd name value var_type) ;;;
         act (LogInfo ("Added " +:+ var_type +:+ " variable: " +:+ name +:+ "="
                       +:+ value))
       else raise (OtherError "Failed to set variable"))
      (fun e =>
         act (LogError ("Failed to add variable: " +:+ str_exc e)) ;;;
         dialog_call self (ShowError ("Failed to add variable: " +:+ str_exc e))).
Proof.
  intros Hdlg Hexec Hvar. unfold add_variable, answer. rewrite Hdlg.
  cbn [bind app]. rewrite Hexec. cbn [bind app]. rewrite Hvar. cbn [bind app].
  rewrite set_branch.
  by destruct (try_except _ _) as [t r].
Qed.

(** X26.  When its dialog is rejected [add_variable] does nothing.  When
    the dialog is accepted it makes one call into the manager:
    [set_system_variable] for the type "System" and [set_user_variable]
    for any other type; the variable is added to the view exactly when
    that call answered true, and otherwise an error is logged and shown.
    An exception of the manager or of the view never leaves the function:
    what can leave it, once the dialog has answered, is only an exception
    raised by [show_error] itself. *)
Theorem add_variable_sets_then_shows (self : Panel) (dialog : Dialog) :
  create_add_dialog self None = inr dialog ->
  (exec dialog = inr false -> add_variable self = ([], inr tt))
  /\ forall name value var_type,
       exec dialog = inr true ->
       get_variable dialog = inr (name, value, var_type) ->
       List.filter is_change (actions (add_variable self))
       = [set_call var_type name value]
       /\ List.filter is_view (actions (add_variable self))
          = (if set_answer self var_type name value is inr true
             then [ViewAdd name value var_type] else [])
       /\ (set_answer self var_type name value <> inr true ->
           exists e, In (ShowError ("Failed to add variable: " +:+ str_exc e))
                        (actions (add_variable self)))
       /\ ((forall msg, dialog_raises self (ShowError msg) = None) ->
           result (add_variable self) = inr tt)
       /\ (forall e, result (add_variable self) = inl e ->
                     exists msg, dialog_raises self (ShowError msg) = Some e).
Proof.
  intros Hdlg. split.
  { intros Hexec. unfold add_variable, answer. rewrite Hdlg. cbn [bind app].
    by rewrite Hexec. }
  intros name value var_type Hexec Hvar.
  rewrite (add_variable_accepted self dialog name value var_type Hdlg Hexec Hvar).
  fold_handler handler.
  destruct (is_change_set var_type name value) as [Hc Hv].
  destruct (set_answer self var_type name value) as [e | [|]]; cbn [bind raise app].
  - subst handler; rewrite try_report. cbn [actions result fst snd app List.filter is_change is_view].
    rewrite Hc, Hv.
    split; [reflexivity |]. split; [reflexivity |].
    split; [intros _; exists e; cbn; auto |].
    split; [intros Hbox; by rewrite Hbox |].
    intros e' He'. exact (leaves_by_show_error _ _ _ He').
  - unfold view_call.
    destruct (view_raises self (ViewAdd name value var_type)) as [e |];
      cbn [bind act app]; subst handler; rewrite try_report;
      cbn [actions result fst snd app List.filter is_change is_view];
      rewrite Hc, Hv;
      (split; [reflexivity |]; split; [reflexivity |];
       split; [intros Hne; by destruct Hne |]).
    + split; [intros Hbox; by rewrite Hbox |].
      intros e' He'. exact (leaves_by_show_error _ _ _ He').
    + split; [reflexivity | discriminate].
  - subst handler; rewrite try_report. cbn [actions result fst snd app List.filter is_change is_view].
    rewrite Hc, Hv.
    split; [reflexivity |]. split; [reflexivity |].
    split; [intros _; exists (OtherError "Failed to set variable"); cbn; auto |].
    split; [intros Hbox; by rewrite Hbox |].
    intros e' He'. exact (leaves_by_show_error _ _ _ He').
Qed.

Lemma add_variable_sets_then_shows_witness :
  add_variable retype_panel
  = ([SetSystemVariable "PATH" "C:\bin"; ViewAdd "PATH" "C:\bin" "System";
      LogInfo "Added System variable: PATH=C:\bin"], inr tt)
  /\ List.filter is_change (actions (add_variable retype_panel))
     = [SetSystemVariable "PATH" "C:\bin"].
Proof.
  split; [reflexivity |].
  exact (proj1 (proj2 (add_variable_sets_then_shows retype_panel
                         (accepted_with ("PATH", "C:\bin", "System")) eq_refl)
                      "PATH" "C:\bin" "System" eq_refl eq_refl)).
Defined.

(** what [edit_variable] does once a variable is selected and the dialog
    accepted *)
Lemma edit_variable_accepted (self : Panel) (dialog : Dialog)
    (name value var_type new_name new_value new_type : string) :
  get_selected_variable self = inr (Some (name, value, var_type)) ->
  create_add_dialog self (Some (name, value, var_type)) = inr dialog ->
  exec dialog = inr true ->
  get_variable dialog = inr (new_name, new_value, new_type) ->
  edit_variable self
  = try_except
      ((if negb (String.eqb name new_name) then
          success <- ([delete_call var_type name], delete_answer self var_type name) ;;
          if success : bool then ret tt
          else raise (OtherError ("Failed to delete old variable " +:+ name))
        else ret tt) ;;;
       success <- ([set_call new_type new_name new_value],
                   set_answer self new_type new_name new_value) ;;
       if success : bool then
         view_call self (ViewUpdate new_name new_value new_type) ;;;
         act (LogInfo ("Updated variable: " +:+ name +:+ "=" +:+ value +:+ " -> "
                       +:+ new_name +:+ "=" +:+ new_value))
       else raise (OtherError "Failed to set new variable value"))
      (fun e =>
         act (LogError ("Failed to update variable: " +:+ str_exc e)) ;;;
         dialog_call self (ShowError ("Failed to update variable: " +:+ str_exc e))).
Proof.
  intros Hsel Hdlg Hexec Hvar. unfold edit_variable, answer. rewrite Hsel.
  cbn [bind app]. rewrite Hdlg. cbn [bind app]. rewrite Hexec. cbn [bind app].
  rewrite Hvar. cbn [bind app]. unfold apply_edit.
  rewrite delete_branch, set_branch.
  by destruct (try_except _ _) as [t r].
Qed.

(** X27.  When [edit_variable] renames a variable it first deletes the
    old name, among the variables of the old type, and only then sets the
    new name, among those of the new type.  If the deletion does not
    answer true nothing is set.  If the deletion answers true and the
    setting does not, the old variable is gone without a replacement: the
    two calls were made, the view is not updated and an error is shown.
    An exception of the manager or of the view never leaves the function:
    what can leave it, once the dialog has answered, is only an exception
    raised by [show_error] itself. *)
Theorem edit_variable_rename_is_delete_then_set (self : Panel) (dialog : Dialog)
    (name value var_type new_name new_value new_type : string) :
  get_selected_variable self = inr (Some (name, value, var_type)) ->
  create_add_dialog self (Some (name, value, var_type)) = inr dialog ->
  exec dialog = inr true ->
  get_variable dialog = inr (new_name, new_value, new_type) ->
  name <> new_name ->
  (delete_answer self var_type name <> inr true ->
   List.filter is_change (actions (edit_variable self))
   = [delete_call var_type name]
   /\ List.filter is_view (actions (edit_variable self)) = [])
  /\ (delete_answer self var_type name = inr true ->
      List.filter is_change (actions (edit_variable self))
      = [delete_call var_type name; set_call new_type new_name new_value]
      /\ (set_answer self new_type new_name new_value <> inr true ->
          List.filter is_view (actions (edit_variable self)) = []
          /\ exists e, In (ShowError ("Failed to update variable: " +:+ str_exc e))
                          (actions (edit_variable self))))
  /\ ((forall msg, dialog_raises self (ShowError msg) = None) ->
      result (edit_variable self) = inr tt)
  /\ (forall e, result (edit_variable self) = inl e ->
                exists msg, dialog_raises self (ShowError msg) = Some e).
Proof.
  intros Hsel Hdlg Hexec Hvar Hname.
  rewrite (edit_variable_accepted self dialog _ _ _ _ _ _ Hsel Hdlg Hexec Hvar).
  fold_handler handler.
  apply String.eqb_neq in Hname. rewrite Hname. cbn [negb].
  destruct (is_change_delete var_type name) as [Hcd Hvd].
  destruct (is_change_set new_type new_name new_value) as [Hcs Hvs].
  assert (Hleave : forall msg : string,
            ((forall m, dialog_raises self (ShowError m) = None) ->
             match dialog_raises self (ShowError msg) with
             | Some e' => inl e'
             | None => inr tt
             end = (inr tt : PyExc + unit))
            /\ (forall e, match dialog_raises self (ShowError msg) with
                          | Some e' => inl e'
                          | None => inr tt
                          end = (inl e : PyExc + unit) ->
                          exists m, dialog_raises self (ShowError m) = Some e)).
  { intros msg. split; [intros Hbox; by rewrite Hbox |].
    intros e He. exact (leaves_by_show_error _ _ _ He). }
  destruct (delete_answer self var_type name) as [e | [|]]; cbn [bind raise ret app].
  - subst handler; rewrite try_report. cbn [actions result fst snd app List.filter is_change is_view].
    rewrite Hcd, Hvd.
    split; [by intros _ |]. split; [discriminate |].
    apply Hleave.
  - destruct (set_answer self new_type new_name new_value) as [e | [|]];
      cbn [bind raise ret app].
    + subst handler; rewrite try_report. cbn [actions result fst snd app List.filter is_change is_view].
      rewrite Hcd, Hvd, Hcs, Hvs.
      split; [intros Hne; by destruct Hne |].
      split; [intros _; split; [reflexivity |]; intros _; split; [reflexivity |];
              exists e; cbn; auto |].
      apply Hleave.
    + unfold view_call.
      destruct (view_raises self (ViewUpdate new_name new_value new_type)) as [e |];
        cbn [bind act app]; subst handler; rewrite try_report;
        cbn [actions result fst snd app List.filter is_change is_view];
        rewrite Hcd, Hvd, Hcs, Hvs;
        (split; [intros Hne; by destruct Hne |];
         split; [intros _; split; [reflexivity |]; intros Hne; by destruct Hne |]).
      * apply Hleave.
      * split; [reflexivity | discriminate].
    + subst handler; rewrite try_report. cbn [actions result fst snd app List.filter is_change is_view].
      rewrite Hcd, Hvd, Hcs, Hvs.
      split; [intros Hne; by destruct Hne |].
      split; [intros _; split; [reflexivity |]; intros _; split; [reflexivity |];
              exists (OtherError "Failed to set new variable value"); cbn; auto |].
      apply Hleave.
  - subst handler; rewrite try_report. cbn [actions result fst snd app List.filter is_change is_view].
    rewrite Hcd, Hvd.
    split; [by intros _ |]. split; [discriminate |].
    apply Hleave.
Qed.

Lemma edit_variable_rename_is_delete_then_set_witness :
  actions (edit_variable rename_panel)
  = [DeleteUserVariable "PATH"; SetSystemVariable "Path" "C:\bin";
     LogError "Failed to update variable: Failed to set new variable value";
     ShowError "Failed to update variable: Failed to set new variable value"]
  /\ List.filter is_view (actions (edit_variable rename_panel)) = [].
Proof.
  split; [reflexivity |].
  refine (proj1 (proj2 (proj1 (proj2 (edit_variable_rename_is_delete_then_set
            rename_panel (accepted_with ("Path", "C:\bin", "System"))
            "PATH" "C:\bin" "User" "Path" "C:\bin" "System"
            eq_refl eq_refl eq_refl eq_refl _)) eq_refl) _)); discriminate.
Defined.

(** X28.  When the name is kept, [edit_variable] deletes nothing, also
    when the type changes: its one call into the manager sets the variable
    among those of the new type, so a variable moved from "User" to
    "System" stays among the user variables as well. *)
Theorem edit_variable_same_name_deletes_nothing (self : Panel) (dialog : Dialog)
    (name value var_type new_value new_type : string) :
  get_selected_variable self = inr (Some (name, value, var_type)) ->
  create_add_dialog self (Some (name, value, var_type)) = inr dialog ->
  exec dialog = inr true ->
  get_variable dialog = inr (name, new_value, new_type) ->
  List.filter is_change (actions (edit_variable self))
  = [set_call new_type name new_value]
  /\ List.filter is_view (actions (edit_variable self))
     = (if set_answer self new_type name new_value is inr true
        then [ViewUpdate name new_value new_type] else []).
Proof.
  intros Hsel Hdlg Hexec Hvar.
  rewrite (edit_variable_accepted self dialog _ _ _ _ _ _ Hsel Hdlg Hexec Hvar).
  fold_handler handler.
  rewrite String.eqb_refl. cbn [negb].
  destruct (is_change_set new_type name new_value) as [Hcs Hvs].
  destruct (set_answer self new_type name new_value) as [e | [|]];
    cbn [bind raise ret app].
  - subst handler; rewrite try_report. cbn [actions result fst snd app List.filter is_change is_view].
    rewrite Hcs, Hvs. by split.
  - unfold view_call.
    destruct (view_raises self (ViewUpdate name new_value new_type)) as [e |];
      cbn [bind act app]; subst handler; rewrite try_report;
      cbn [actions result fst snd app List.filter is_change is_view];
      rewrite Hcs, Hvs; by split.
  - subst handler; rewrite try_report. cbn [actions result fst snd app List.filter is_change is_view].
    rewrite Hcs, Hvs. by split.
Qed.

Lemma edit_variable_same_name_deletes_nothing_witness :
  List.filter is_change (actions (edit_variable retype_panel))
  = [SetSystemVariable "PATH" "C:\bin"].
Proof.
  exact (proj1 (edit_variable_same_name_deletes_nothing retype_panel
                  (accepted_with ("PATH", "C:\bin", "System"))
                  "PATH" "C:\bin" "User" "C:\bin" "System"
                  eq_refl eq_refl eq_refl eq_refl)).
Defined.

(** what [refresh_variables] does when the view does not raise *)
Lemma refresh_variables_cases (self : Panel) :
  (forall a, view_raises self a = None) ->
  refresh_variables self
  = match get_user_variables self with
    | inl e => ([ViewClear; GetUserVariables], inl e)
    | inr user =>
        match get_system_variables self with
        | inl e =>
            (ViewClear :: GetUserVariables :: view_adds user "User"
             ++ [GetSystemVariables], inl e)
        | inr system =>
            (ViewClear :: GetUserVariables :: view_adds user "User"
             ++ GetSystemVariables :: view_adds system "System", inr tt)
        end
    end.
Proof.
  intros Hview. unfold refresh_variables, view_call, call. rewrite Hview.
  destruct (get_user_variables self) as [e | user]; [reflexivity |].
  cbn [bind app]. rewrite (add_all_ok self user "User" Hview). cbn [bind app].
  destruct (get_system_variables self) as [e | system]; cbn [bind app].
  - reflexivity.
  - by rewrite (add_all_ok self system "System" Hview).
Qed.

Lemma filter_app_cons_view (l : list (string * string)) (ty : string)
    (a : Action) (rest : list Action) :
  is_view a = false ->
  List.filter is_view (view_adds l ty ++ a :: rest)
  = view_adds l ty ++ List.filter is_view rest.
Proof.
  intros Ha. rewrite List.filter_app. cbn [List.filter]. rewrite Ha.
  by rewrite (proj1 (filter_view_adds l ty)).
Qed.

(** X29.  [refresh_variables] empties the view and lists the user
    variables under the type "User", then the system variables under the
    type "System", each in the order of its dictionary, so a name that is
    in both is listed twice.  It has no [try]: when the system variables
    cannot be read the exception leaves the function, and the view is left
    with the user variables alone. *)
Theorem refresh_variables_lists_user_then_system (self : Panel)
    (user : list (string * string)) :
  (forall a, view_raises self a = None) ->
  get_user_variables self = inr user ->
  (forall system,
     get_system_variables self = inr system ->
     result (refresh_variables self) = inr tt
     /\ List.filter is_view (actions (refresh_variables self))
        = ViewClear :: view_adds user "User" ++ view_adds system "System")
  /\ (forall e,
        get_system_variables self = inl e ->
        result (refresh_variables self) = inl e
        /\ List.filter is_view (actions (refresh_variables self))
           = ViewClear :: view_adds user "User")
  /\ List.filter is_change (actions (refresh_variables self)) = [].
Proof.
  intros Hview Huser. rewrite (refresh_variables_cases self Hview), Huser.
  split; [| split].
  - intros system ->. split; [reflexivity |].
    cbn [actions fst List.filter is_view].
    rewrite filter_app_cons_view by reflexivity.
    by rewrite (proj1 (filter_view_adds system "System")).
  - intros e ->. split; [reflexivity |].
    cbn [actions fst List.filter is_view].
    rewrite filter_app_cons_view by reflexivity. cbn. by rewrite app_nil_r.
  - destruct (get_system_variables self) as [e | system];
      cbn [actions fst List.filter is_change]; rewrite List.filter_app;
      rewrite (proj2 (filter_view_adds user "User")); cbn [List.filter is_change app];
      [reflexivity | apply filter_view_adds].
Qed.

Lemma refresh_variables_lists_user_then_system_witness :
  List.filter is_view (actions (refresh_variables retype_panel))
  = [ViewClear; ViewAdd "TEMP" "C:\Temp" "User"; ViewAdd "PATH" "C:\bin" "User";
     ViewAdd "PATH" "C:\Windows" "System"]
  /\ List.filter is_view (actions (refresh_variables rename_panel))
     = [ViewClear; ViewAdd "TEMP" "C:\Temp" "User"].
Proof.
  split.
  - exact (proj2 (proj1 (refresh_variables_lists_user_then_system retype_panel _
                           (fun _ => eq_refl) eq_refl) _ eq_refl)).
  - exact (proj2 (proj1 (proj2 (refresh_variables_lists_user_then_system rename_panel _
                                  (fun _ => eq_refl) eq_refl)) _ eq_refl)).
Defined.

(** [refresh_variables] changes no variable, whatever raises *)
Lemma no_change_bind {A B : Type} (m : Op A) (k : A -> Op B) :
  List.filter is_change (actions m) = [] ->
  (forall a, List.filter is_change (actions (k a)) = []) ->
  List.filter is_change (actions (x <- m ;; k x)) = [].
Proof.
  destruct m as [t [e | a]]; cbn [bind actions fst]; intros Hm Hk; [exact Hm |].
  specialize (Hk a). destruct (k a) as [t' r]. cbn [actions fst] in *.
  by rewrite List.filter_app, Hm, Hk.
Qed.

Lemma view_call_no_change (self : Panel) (a : Action) :
  is_change a = false ->
  List.filter is_change (actions (view_call self a)) = [].
Proof.
  intros Ha. unfold view_call.
  destruct (view_raises self a); cbn [actions fst List.filter]; by rewrite Ha.
Qed.

Lemma add_all_no_change (self : Panel) (items : list (string * string))
    (var_type : string) :
  List.filter is_change (actions (add_all self items var_type)) = [].
Proof.
  induction items as [| [name value] items IH]; [reflexivity |].
  cbn [add_all]. apply no_change_bind; [by apply view_call_no_change |].
  intros _. exact IH.
Qed.

Lemma refresh_variables_no_change (self : Panel) :
  List.filter is_change (actions (refresh_variables self)) = [].
Proof.
  unfold refresh_variables.
  apply no_change_bind; [by apply view_call_no_change |]. intros _.
  apply no_change_bind; [by destruct (get_user_variables self) |]. intros user.
  apply no_change_bind; [apply add_all_no_change |]. intros _.
  apply no_change_bind; [by destruct (get_system_variables self) |]. intros system.
  apply add_all_no_change.
Qed.

(** what [delete_variable] changes, what it does after a deletion and
    what can leave it *)
Lemma delete_variable_paths (self : Panel) :
  List.filter is_change (actions (delete_variable self))
  = match get_selected_variable self with
    | inr (Some (name, _, var_type)) =>
        match confirm_delete self var_type name with
        | inr true => [delete_call var_type name]
        | _ => []
        end
    | _ => []
    end
  /\ (forall name value var_type,
        get_selected_variable self = inr (Some (name, value, var_type)) ->
        confirm_delete self var_type name = inr true ->
        delete_answer self var_type name = inr true ->
        actions (delete_variable self)
        = delete_call var_type name :: actions (refresh_variables self)
          ++ match result (refresh_variables self) with
             | inr _ => [LogInfo ("Deleted " +:+ var_type +:+ " variable: " +:+ name)]
             | inl e =>
                 [LogError ("Failed to delete variable: " +:+ str_exc e);
                  ShowError ("Failed to delete variable: " +:+ str_exc e)]
             end)
  /\ (forall e,
        result (delete_variable self) = inl e ->
        get_selected_variable self = inl e
        \/ (exists title text, dialog_raises self (ShowWarning title text) = Some e)
        \/ (exists var_type name, confirm_delete self var_type name = inl e)
        \/ (exists msg, dialog_raises self (ShowError msg) = Some e)).
Proof.
  unfold delete_variable, answer.
  destruct (get_selected_variable self) as [e | [[[name value] var_type] |]];
    cbn [bind app].
  { split; [reflexivity |]. split; [discriminate |].
    intros e' [= ->]. by left. }
  2: { unfold dialog_call.
       destruct (dialog_raises self (ShowWarning _ _)) as [e |] eqn:Hw;
         (split; [reflexivity |]; split; [discriminate |]);
         [| discriminate].
       intros e' [= ->]. right. left. eauto. }
  destruct (confirm_delete self var_type name) as [e | [|]] eqn:Hconfirm;
    cbn [bind app].
  { split; [reflexivity |].
    split; [intros ? ? ? [= <- <- <-] Hyes; rewrite Hconfirm in Hyes; discriminate |].
    intros e' [= ->]. right. right. left. eauto. }
  2: { split; [reflexivity |].
       split; [intros ? ? ? [= <- <- <-] Hyes; rewrite Hconfirm in Hyes; discriminate |].
       discriminate. }
  rewrite delete_branch. fold_handler handler.
  destruct (is_change_delete var_type name) as [Hcd _].
  pose proof (refresh_variables_no_change self) as Hnc.
  assert (Hleave : forall (e0 : PyExc) (e : PyExc),
            match dialog_raises self (ShowError ("Failed to delete variable: "
                                                  +:+ str_exc e0)) with
            | Some e' => inl e'
            | None => inr tt
            end = (inl e : PyExc + unit) ->
            exists msg, dialog_raises self (ShowError msg) = Some e).
  { intros e0 e He. exact (leaves_by_show_error _ _ _ He). }
  destruct (delete_answer self var_type name) as [e | [|]] eqn:Hdeleted;
    cbn [bind raise app].
  - subst handler; rewrite try_report. cbn [actions result fst snd app List.filter is_change].
    rewrite Hcd. split; [reflexivity |].
    split; [intros ? ? ? [= <- <- <-] _ Hyes; rewrite Hdeleted in Hyes; discriminate |].
    intros e' He'. right. right. right. by apply (Hleave e).
  - destruct (refresh_variables self) as [t [e | []]];
      cbn [actions fst] in Hnc; cbn [bind act app actions result fst snd];
      subst handler; rewrite try_report;
      cbn [actions result fst snd app List.filter is_change]; rewrite Hcd.
    + rewrite List.filter_app, Hnc. split; [reflexivity |].
      split; [intros ? ? ? [= <- <- <-] _ _; reflexivity |].
      intros e' He'. right. right. right. by apply (Hleave e).
    + rewrite List.filter_app, Hnc. split; [reflexivity |].
      split; [intros ? ? ? [= <- <- <-] _ _; reflexivity | discriminate].
  - subst handler; rewrite try_report. cbn [actions result fst snd app List.filter is_change].
    rewrite Hcd. split; [reflexivity |].
    split; [intros ? ? ? [= <- <- <-] _ Hyes; rewrite Hdeleted in Hyes; discriminate |].
    intros e' He'. right. right. right.
    by apply (Hleave (OtherError "Failed to delete variable")).
Qed.

(** X30.  [delete_variable] calls the manager to change a variable only
    for a selected variable whose deletion was confirmed, and then once,
    for the type of the variable.  Without a selection only the "No
    Selection" warning is shown.  When the deletion answers true the view
    is refreshed right after it; when the refresh raises, the error
    "Failed to delete variable" is logged and shown, although the variable
    has been deleted.  An exception of the manager or of the refresh never
    leaves the function: what leaves it is an exception raised by the
    reading of the selection, by the confirmation, by [show_warning] or by
    [show_error]. *)
Theorem delete_variable_then_refresh (self : Panel) :
  List.filter is_change (actions (delete_variable self))
  = match get_selected_variable self with
    | inr (Some (name, _, var_type)) =>
        match confirm_delete self var_type name with
        | inr true => [delete_call var_type name]
        | _ => []
        end
    | _ => []
    end
  /\ (get_selected_variable self = inr None ->
      actions (delete_variable self)
      = [ShowWarning "No Selection" "Please select a variable to delete."])
  /\ (forall name value var_type,
        get_selected_variable self = inr (Some (name, value, var_type)) ->
        confirm_delete self var_type name = inr true ->
        delete_answer self var_type name = inr true ->
        actions (delete_variable self)
        = delete_call var_type name :: actions (refresh_variables self)
          ++ match result (refresh_variables self) with
             | inr _ => [LogInfo ("Deleted " +:+ var_type +:+ " variable: " +:+ name)]
             | inl e =>
                 [LogError ("Failed to delete variable: " +:+ str_exc e);
                  ShowError ("Failed to delete variable: " +:+ str_exc e)]
             end)
  /\ (forall e,
        result (delete_variable self) = inl e ->
        get_selected_variable self = inl e
        \/ (exists title text, dialog_raises self (ShowWarning title text) = Some e)
        \/ (exists var_type name, confirm_delete self var_type name = inl e)
        \/ (exists msg, dialog_raises self (ShowError msg) = Some e)).
Proof.
  destruct (delete_variable_paths self) as (Hchange & Hdeleted & Hleaves).
  split; [exact Hchange |].
  split; [| split; [exact Hdeleted | exact Hleaves]].
  intros Hnone. unfold delete_variable, answer. rewrite Hnone. cbn [bind app].
  unfold dialog_call. by destruct (dialog_raises self _).
Qed.

End VariableOperationsFacts.
